(** * AutoLab: naming engine, retry policy, batch orchestrator, archive builder

    A shallow embedding of the batch-orchestration and naming core of the
    AutoLab application ([App.tsx], [services/zipService.ts], [types.ts]) and
    the properties its specification states about it.

    Conventions of the embedding.
    - A JavaScript string is a [string]; one [ascii] stands for one UTF-16
      code unit below 256.  None of the regular expressions of the source
      carries the [u] flag, so they work on code units.
    - A JavaScript number is a double; the numbers of the naming code are
      integers, and a double that holds an integer is the [Z] of its value.
      [+] rounds as the double addition does and [toString] prints what
      JavaScript prints, which is the decimal notation only for the safe
      integers (at most 2^53 - 1 in absolute value).
    - The asynchronous functions run on one thread of control and are
      written in a state monad over [World]: the React state, and the log of
      every call made to the outside (remote service, timers, snapshot
      service, state setters).  A run is followed from its start to its end;
      the handlers of other events (an upload, a file read that completes, a
      removal) are embedded on their own and not woven into a run.
    - JSZip is a library the application loads.  Its [folder] and [file] are
      embedded as version 3 of the library defines them: an archive is one
      table from full paths to entries, and writing a path creates the
      folders above it. *)

From Stdlib Require Import ZArith String Ascii List Bool Lia DecimalString DecimalPos DecimalZ.
From stdpp Require Import base tactics option list gmap strings.

(** ** JavaScript string primitives *)

Module JS.

(** [s.startsWith(needle)] *)
Fixpoint startsWith (needle s : string) : bool :=
  match needle, s with
  | EmptyString, _ => true
  | String _ _, EmptyString => false
  | String a needle', String b s' => Ascii.eqb a b && startsWith needle' s'
  end.

(** [s.includes(needle)] *)
Fixpoint includes (needle s : string) : bool :=
  startsWith needle s ||
  match s with
  | EmptyString => false
  | String _ s' => includes needle s'
  end.

(** [s.lastIndexOf(c)] for a one-character [c]; [-1] when [c] is absent. *)
Fixpoint lastIndexOf (c : ascii) (s : string) : Z :=
  match s with
  | EmptyString => (-1)%Z
  | String a s' =>
      let r := lastIndexOf c s' in
      if (0 <=? r)%Z then (r + 1)%Z
      else if Ascii.eqb a c then 0%Z else (-1)%Z
  end.

(** [s.substring(indexStart, indexEnd)]: both bounds are clamped to
    [0 .. s.length] and swapped when they come in the wrong order. *)
Definition substring (s : string) (indexStart indexEnd : Z) : string :=
  let len := Z.of_nat (String.length s) in
  let a := Z.min (Z.max indexStart 0) len in
  let b := Z.min (Z.max indexEnd 0) len in
  let lo := Z.min a b in
  let hi := Z.max a b in
  String.substring (Z.to_nat lo) (Z.to_nat (hi - lo)) s.

(** [s.split(sep)] for a one-character separator; never the empty array. *)
Fixpoint split (sep : ascii) (s : string) : list string :=
  match s with
  | EmptyString => [EmptyString]
  | String c s' =>
      match split sep s' with
      | [] => [EmptyString]
      | seg :: segs =>
          if Ascii.eqb c sep then EmptyString :: seg :: segs
          else String c seg :: segs
      end
  end.

(** [array.pop()], as a value: the last element, [undefined] when empty. *)
Definition pop (l : list string) : option string := last l.

(** [x || d] for a string [x]: the empty string is falsy. *)
Definition or_else (x d : string) : string :=
  match x with
  | EmptyString => d
  | String _ _ => x
  end.

(** [x || d] for [x : string | undefined]. *)
Definition or_default (x : option string) (d : string) : string :=
  match x with
  | Some s => or_else s d
  | None => d
  end.

(** *** Numbers

    The exact decimal notation of an integer. *)
Definition decimal (n : Z) : string := NilZero.string_of_int (Z.to_int n).

(** [Number.isSafeInteger(z)] *)
Definition isSafeInteger (z : Z) : Prop := (- (2 ^ 53 - 1) <= z <= 2 ^ 53 - 1)%Z.

(** The double nearest to the integer [z], ties going to the even
    significand (53 bits).  No integer that the naming code meets reaches
    2^1024, where the doubles end. *)
Definition roundToDouble (z : Z) : Z :=
  let a := Z.abs z in
  let shift := (Z.log2 a - 52)%Z in
  if (shift <=? 0)%Z then z
  else
    let q := (a / 2 ^ shift)%Z in
    let r := (a mod 2 ^ shift)%Z in
    let half := (2 ^ (shift - 1))%Z in
    let q' := if (half <? r)%Z || ((r =? half)%Z && Z.odd q) then (q + 1)%Z else q in
    (Z.sgn z * (q' * 2 ^ shift))%Z.

(** [a + b] for two doubles that hold integers. *)
Definition add (a b : Z) : Z := roundToDouble (a + b).

(** The digits [Number::toString] prints for a positive double [a]: the
    decimal [s * 10^e] with the fewest digits [s] that still rounds to [a],
    and among those the one nearest to [a].  The search starts at the
    coarsest exponent. *)
Fixpoint shortest (e : nat) (a : Z) : Z :=
  let p := (10 ^ Z.of_nat e)%Z in
  let lo := (a / p * p)%Z in
  let hi := (lo + p)%Z in
  let okLo := (0 <? lo)%Z && (roundToDouble lo =? a)%Z in
  let okHi := (roundToDouble hi =? a)%Z in
  if okLo && okHi then
    if (a - lo <? hi - a)%Z then lo
    else if (hi - a <? a - lo)%Z then hi
    else if Z.even (a / p) then lo else hi
  else if okLo then lo
  else if okHi then hi
  else
    match e with
    | O => a
    | S e' => shortest e' a
    end.

Fixpoint stripZeros (s : string) : string :=
  match s with
  | EmptyString => EmptyString
  | String c s' =>
      match stripZeros s' with
      | EmptyString => if Ascii.eqb c "0" then EmptyString else String c EmptyString
      | r => String c r
      end
  end.

(** The exponent notation of [c]: first digit, the further digits that
    count behind a point, and the power of ten. *)
Definition exponential (c : Z) : string :=
  match decimal c with
  | EmptyString => EmptyString
  | String d ds =>
      String d
        (match stripZeros ds with
         | EmptyString => EmptyString
         | fraction => String "." fraction
         end)
      +:+ "e+" +:+ decimal (Z.of_nat (String.length ds))
  end.

(** A positive double: digits and zeros below 10^21, exponent notation
    from there on. *)
Definition render (a : Z) : string :=
  let c := shortest (String.length (decimal a)) a in
  if (c <? 10 ^ 21)%Z then decimal c else exponential c.

(** [n.toString()] for a double that holds an integer. *)
Definition toString (n : Z) : string :=
  match n with
  | Z0 => "0"
  | Zpos _ => render n
  | Zneg p => "-" +:+ render (Zpos p)
  end.

(** The class [\s] of a regular expression, on code units below 256:
    tab, line feed, vertical tab, form feed, carriage return, space and
    no-break space. *)
Definition isWhiteSpace (c : ascii) : bool :=
  match c with
  | "009" | "010" | "011" | "012" | "013" | " " | "160" => true
  | _ => false
  end%char.

(** *** Regular expressions of the form [literal] or [literal[class]?]

    Every regular expression of the naming code is a literal text, once
    followed by an optional character of a class; all carry the [g] flag
    and none has a capture group. *)
Record RegExp := {
  re_literal : string;
  re_optional : option (ascii -> bool)
}.

(** Length of the match of [re] that starts at the head of [s]; the
    optional character is taken when it is there (greedy [?]). *)
Definition matchAt (re : RegExp) (s : string) : option nat :=
  if startsWith (re_literal re) s then
    let n := String.length (re_literal re) in
    match re_optional re, String.get n s with
    | Some cls, Some c => if cls c then Some (S n) else Some n
    | _, _ => Some n
    end
  else None.

(** [GetSubstitution] of ECMAScript for a match without capture groups:
    in the replacement text [$$] is a dollar sign, [$&] the matched text,
    [$`] the text before the match, [$'] the text after it; any other
    dollar sign stands for itself. *)
Fixpoint getSubstitution (matched before after replacement : string) : string :=
  match replacement with
  | EmptyString => EmptyString
  | String c tl =>
      if Ascii.eqb c "$" then
        match tl with
        | String d r =>
            if Ascii.eqb d "$" then String "$" (getSubstitution matched before after r)
            else if Ascii.eqb d "&" then matched +:+ getSubstitution matched before after r
            else if Ascii.eqb d "`" then before +:+ getSubstitution matched before after r
            else if Ascii.eqb d "'" then after +:+ getSubstitution matched before after r
            else String c (getSubstitution matched before after tl)
        | EmptyString => String c EmptyString
        end
      else String c (getSubstitution matched before after tl)
  end.

(** The scan of [s.replace(re, replacement)] for a global [re].  [before]
    is the text already passed; [skip] counts the characters of the
    current match that are still to be dropped.  A match is looked for at
    every position that is not inside the previous match. *)
Fixpoint replace_from (re : RegExp) (replacement before s : string) (skip : nat)
  : string :=
  match s with
  | EmptyString => EmptyString
  | String c s' =>
      match skip with
      | S k => replace_from re replacement (before +:+ String c EmptyString) s' k
      | O =>
          match matchAt re s with
          | Some (S m) =>
              getSubstitution (String.substring 0 (S m) s) before
                (String.substring (S m) (String.length s - S m) s) replacement
              +:+ replace_from re replacement (before +:+ String c EmptyString) s' m
          | _ =>
              String c (replace_from re replacement (before +:+ String c EmptyString) s' 0)
          end
      end
  end.

(** [s.replace(re, replacement)] *)
Definition replace (re : RegExp) (replacement s : string) : string :=
  replace_from re replacement EmptyString s 0.

End JS.

(** ** Data model ([types.ts]) *)

Inductive FileStatus := PENDING | RUNNING | COMPLETED | ERROR.

(** A captured image; its bytes are never inspected. *)
Record Blob := { blob_bytes : string }.

Record ProgramFile := {
  id : string;
  name : string;
  content : string;
  language : string;
  status : FileStatus;
  output : option string;
  imageBlob : option Blob
}.

(** The naming settings held by the application.  [startIndex] is a double
    that holds an integer: the application sets it to [parseInt(...) || 0]. *)
Record NamingConfig := {
  folderPattern : string;
  screenshotPattern : string;
  startIndex : Z;
  isNumberingEnabled : bool
}.

(** ** Naming engine ([formatName]) *)

(** [/\[name\]/g], [/\[ext\]/g], [/\[full\]/g], [/\[index\]/g] *)
Definition re_name : JS.RegExp := {| JS.re_literal := "[name]"; JS.re_optional := None |}.
Definition re_ext : JS.RegExp := {| JS.re_literal := "[ext]"; JS.re_optional := None |}.
Definition re_full : JS.RegExp := {| JS.re_literal := "[full]"; JS.re_optional := None |}.
Definition re_index : JS.RegExp := {| JS.re_literal := "[index]"; JS.re_optional := None |}.

(** The class [[_\-\s]] *)
Definition isSeparator (c : ascii) : bool :=
  Ascii.eqb c "_" || Ascii.eqb c "-" || JS.isWhiteSpace c.

(** [/\[index\][_\-\s]?/g] *)
Definition re_index_sep : JS.RegExp :=
  {| JS.re_literal := "[index]"; JS.re_optional := Some isSeparator |}.

(** [file.name.substring(0, file.name.lastIndexOf('.')) || file.name] *)
Definition nameWithoutExt (fileName : string) : string :=
  JS.or_else (JS.substring fileName 0 (JS.lastIndexOf "." fileName)) fileName.

(** [file.name.split('.').pop() || ''] *)
Definition ext (fileName : string) : string :=
  JS.or_default (JS.pop (JS.split "." fileName)) "".

(** The text after the first three replacements of [formatName]. *)
Definition formatted (pattern : string) (file : ProgramFile) : string :=
  JS.replace re_full (name file)
    (JS.replace re_ext (ext (name file))
       (JS.replace re_name (nameWithoutExt (name file)) pattern)).

Definition formatName (cfg : NamingConfig) (pattern : string) (file : ProgramFile)
  (index : nat) : string :=
  if isNumberingEnabled cfg then
    JS.replace re_index (JS.toString (JS.add (startIndex cfg) (Z.of_nat index)))
      (formatted pattern file)
  else
    JS.replace re_index_sep "" (formatted pattern file).

(** ** Errors of the remote service *)

(** The values a status-like field of a thrown error can hold. *)
Inductive JsValue :=
| JsUndefined
| JsNull
| JsNumber (n : Z)
| JsString (s : string)
| JsObject.

(** What [getErrorStatus] and [String(err)] can see of a thrown value.  A
    nested field reads [JsUndefined] when its parent is absent, as the
    optional chaining [?.] of the source makes it. *)
Record ApiError := {
  err_status : JsValue;            (* err?.status *)
  err_code : JsValue;              (* err?.code *)
  err_response_status : JsValue;   (* err?.response?.status *)
  err_error_code : JsValue;        (* err?.error?.code *)
  err_error_status : JsValue;      (* err?.error?.status *)
  err_string : string              (* String(err) *)
}.

(** [a ?? b] *)
Definition nullish (a b : JsValue) : JsValue :=
  match a with
  | JsUndefined | JsNull => b
  | _ => a
  end.

Definition getErrorStatus (error : ApiError) : option Z :=
  let direct :=
    nullish (err_status error)
      (nullish (err_code error)
         (nullish (err_response_status error)
            (nullish (err_error_code error) (err_error_status error)))) in
  match direct with
  | JsNumber n => Some n
  | _ => None
  end.

(** [status === 429] *)
Definition status_is_429 (st : option Z) : bool :=
  match st with
  | Some n => (n =? 429)%Z
  | None => false
  end.

(** The classification made inside the retry loop. *)
Definition isRateLimited (err : ApiError) : bool :=
  status_is_429 (getErrorStatus err)
  || JS.includes "429" (err_string err)
  || JS.includes "RESOURCE_EXHAUSTED" (err_string err).

(** ** The outside world *)

(** The logical request sent to the remote service: the source text, the
    language tag, and the flag that selects one of the two fixed prompt and
    system-instruction templates. *)
Record Request := {
  req_isHtml : bool;
  req_language : string;
  req_content : string
}.

(** [response.text] may be [undefined]. *)
Inductive RemoteResult :=
| Response (text : option string)
| Throws (err : ApiError).

(** A change made to the files whose id matches, as the four state updates
    [setFiles(prev => prev.map(f => f.id === fileId ? {...f, ...} : f))] of
    [processSingleFile] make it. *)
Inductive Patch :=
| PatchStatus (s : FileStatus)
| PatchOutput (out : string) (s : FileStatus)
| PatchImage (blob : Blob).

Inductive Event :=
| EvSetFiles (fileId : string) (p : Patch)
| EvSetIsProcessing (b : bool)
| EvGenerateContent (rq : Request) (attempt : nat)
| EvSleep (ms : Z)
| EvToPng (fileId : string).

(** The collaborators.  The remote service and the snapshot service answer
    their n-th call, counted from 0 over the whole session, as they please;
    [None] from [toPng] stands for a capture that throws ([toPng], [fetch] or
    [response.blob()]).  [terminalRefs] tells whether a rendered element is
    registered under an id.  [newClient] tells what the n-th construction
    [new GoogleGenAI({ apiKey: process.env.API_KEY })] throws, [None] when
    the client is built. *)
Record Env := {
  newClient : nat -> option ApiError;
  generateContent : nat -> Request -> RemoteResult;
  terminalRefs : string -> bool;
  toPng : nat -> string -> option Blob
}.

Record World := {
  files : list ProgramFile;
  isProcessing : bool;
  clients : nat;
  requests : nat;
  captures : nat;
  trace : list Event
}.

(** *** The monad of the asynchronous functions *)

Definition M (A : Type) : Type := World -> A * World.

Definition ret {A : Type} (a : A) : M A := fun w => (a, w).

Definition bind {A B : Type} (m : M A) (k : A -> M B) : M B :=
  fun w => let (a, w') := m w in k a w'.

Notation "'let*' x ':=' c 'in' k" := (bind c (fun x => k))
  (at level 10, x pattern, c at level 100, k at level 200).

Definition log (e : Event) (w : World) : World :=
  {| files := files w; isProcessing := isProcessing w; clients := clients w;
     requests := requests w; captures := captures w; trace := trace w ++ [e] |}.

Definition applyPatch (p : Patch) (f : ProgramFile) : ProgramFile :=
  match p with
  | PatchStatus s =>
      {| id := id f; name := name f; content := content f; language := language f;
         status := s; output := output f; imageBlob := imageBlob f |}
  | PatchOutput out s =>
      {| id := id f; name := name f; content := content f; language := language f;
         status := s; output := Some out; imageBlob := imageBlob f |}
  | PatchImage blob =>
      {| id := id f; name := name f; content := content f; language := language f;
         status := status f; output := output f; imageBlob := Some blob |}
  end.

Definition patchIfId (fileId : string) (p : Patch) (f : ProgramFile) : ProgramFile :=
  if String.eqb (id f) fileId then applyPatch p f else f.

Definition setFiles (fileId : string) (p : Patch) : M unit :=
  fun w =>
    (tt, log (EvSetFiles fileId p)
           {| files := map (patchIfId fileId p) (files w);
              isProcessing := isProcessing w; clients := clients w;
              requests := requests w; captures := captures w; trace := trace w |}).

Definition setIsProcessing (b : bool) : M unit :=
  fun w =>
    (tt, log (EvSetIsProcessing b)
           {| files := files w; isProcessing := b; clients := clients w;
              requests := requests w; captures := captures w; trace := trace w |}).

Definition sleep (ms : Z) : M unit := fun w => (tt, log (EvSleep ms) w).

Definition callGenerateContent (env : Env) (rq : Request) (attempt : nat)
  : M RemoteResult :=
  fun w =>
    (generateContent env (requests w) rq,
     log (EvGenerateContent rq attempt)
       {| files := files w; isProcessing := isProcessing w; clients := clients w;
          requests := S (requests w); captures := captures w; trace := trace w |}).

Definition callToPng (env : Env) (fileId : string) : M (option Blob) :=
  fun w =>
    (toPng env (captures w) fileId,
     log (EvToPng fileId)
       {| files := files w; isProcessing := isProcessing w; clients := clients w;
          requests := requests w; captures := S (captures w); trace := trace w |}).

(** The world after a construction of the client. *)
Definition afterNewClient (w : World) : World :=
  {| files := files w; isProcessing := isProcessing w; clients := S (clients w);
     requests := requests w; captures := captures w; trace := trace w |}.

Definition callNewClient (env : Env) : M (option ApiError) :=
  fun w => (newClient env (clients w), afterNewClient w).

(** ** Retry policy and output generation ([generateOutput]) *)

Definition maxAttempts : nat := 4.

Definition requestOf (file : ProgramFile) : Request :=
  {| req_isHtml := String.eqb (language file) "html";
     req_language := language file;
     req_content := content file |}.

(** [isHtml ? "Console was cleared." : "No output generated."] *)
Definition placeholderOutput (isHtml : bool) : string :=
  if isHtml then "Console was cleared." else "No output generated.".

Definition newline : string := String "010" EmptyString.

Definition rateLimitDiagnostic : string :=
  "Execution Error: Gemini API quota/rate limit exceeded (429)." +:+ newline +:+
  "Fix: wait a bit, reduce batch size, or enable billing / increase quota in Google AI Studio."
  +:+ newline +:+
  "Docs: https://ai.google.dev/gemini-api/docs/rate-limits".

Definition genericDiagnostic : string :=
  "Execution Error: Failed to generate output via AI.".

(** [Math.round(1500 * Math.pow(2, attempt - 1))] *)
Definition delayMs (attempt : nat) : Z := (1500 * 2 ^ (Z.of_nat attempt - 1))%Z.

(** The loop [for (let attempt = 1; attempt <= maxAttempts; attempt++)];
    [remaining] is [maxAttempts + 1 - attempt].  The result is the returned
    text, or the error the loop throws. *)
Fixpoint attempts (env : Env) (rq : Request) (remaining attempt : nat)
  : M (string + ApiError) :=
  match remaining with
  | O => ret (inl (placeholderOutput (req_isHtml rq)))
  | S remaining' =>
      let* r := callGenerateContent env rq attempt in
      match r with
      | Response text => ret (inl (JS.or_default text (placeholderOutput (req_isHtml rq))))
      | Throws err =>
          if negb (isRateLimited err) || Nat.eqb attempt maxAttempts then ret (inr err)
          else
            let* _ := sleep (delayMs attempt) in
            attempts env rq remaining' (S attempt)
      end
  end.

(** The outer [catch] of [generateOutput]. *)
Definition diagnosticOf (error : ApiError) : string :=
  if status_is_429 (getErrorStatus error)
     || JS.includes "RESOURCE_EXHAUSTED" (err_string error)
  then rateLimitDiagnostic
  else genericDiagnostic.

(** The client is built inside the outer [try], before the loop: what its
    construction throws goes to the outer [catch] as the errors of the loop
    do.  What [console.error] prints is left out. *)
Definition generateOutput (env : Env) (file : ProgramFile) : M string :=
  let* client := callNewClient env in
  match client with
  | Some error => ret (diagnosticOf error)
  | None =>
      let* r := attempts env (requestOf file) maxAttempts 1 in
      match r with
      | inl text => ret text
      | inr error => ret (diagnosticOf error)
      end
  end.

(** ** Batch orchestrator ([processSingleFile], [processAll]) *)

(** [files0] is the [files] of the render whose closure is running. *)
Definition processSingleFile (env : Env) (files0 : list ProgramFile) (fileId : string)
  : M unit :=
  let* _ := setFiles fileId (PatchStatus RUNNING) in
  match List.find (fun f => String.eqb (id f) fileId) files0 with
  | None => ret tt
  | Some file =>
      let* out := generateOutput env file in
      let* _ := setFiles fileId (PatchOutput out COMPLETED) in
      let* _ := sleep 800 in
      if terminalRefs env fileId then
        let* r := callToPng env fileId in
        match r with
        | Some blob => setFiles fileId (PatchImage blob)
        | None => setFiles fileId (PatchStatus ERROR)
        end
      else ret tt
  end.

Definition notCompleted (f : ProgramFile) : bool :=
  match status f with
  | COMPLETED => false
  | _ => true
  end.

(** [for (const file of filesToProcess) { await processSingleFile(file.id); await sleep(700); }] *)
Fixpoint processEach (env : Env) (files0 filesToProcess : list ProgramFile) : M unit :=
  match filesToProcess with
  | [] => ret tt
  | file :: rest =>
      let* _ := processSingleFile env files0 (id file) in
      let* _ := sleep 700 in
      processEach env files0 rest
  end.

(** [files0] and [isProcessing0] are the state of the render whose closure
    is running. *)
Definition processAll (env : Env) (files0 : list ProgramFile) (isProcessing0 : bool)
  : M unit :=
  if isProcessing0 then ret tt
  else
    let* _ := setIsProcessing true in
    let* _ := processEach env files0 (List.filter notCompleted files0) in
    setIsProcessing false.

(** A batch run: [processAll] of the current render. *)
Definition runBatch (env : Env) (w : World) : World :=
  snd (processAll env (files w) (isProcessing w) w).

(** ** The archive library (JSZip 3) *)

Inductive ZipData :=
| ZipText (s : string)
| ZipBlob (b : Blob).

(** An entry of an archive: a folder, or a file with its data. *)
Inductive ZipEntry :=
| ZipDir
| ZipFile (data : ZipData).

(** The archive under construction: the object [files] of JSZip, which
    holds every entry under its full path.  The path of a folder ends in a
    slash.  The handles that [folder] returns share this object and differ
    in their [root], the path put before every name. *)
Record JSZip := { zip_files : gmap string ZipEntry }.

Definition emptyZip : JSZip := {| zip_files := ∅ |}.

(** [path.slice(-1) === "/"] *)
Fixpoint endsWithSlash (path : string) : bool :=
  match path with
  | EmptyString => false
  | String c EmptyString => Ascii.eqb c "/"
  | String _ rest => endsWithSlash rest
  end.

Definition forceTrailingSlash (path : string) : string :=
  if endsWithSlash path then path else path +:+ "/".

Definition parentFolder (path : string) : string :=
  let path :=
    if endsWithSlash path
    then JS.substring path 0 (Z.of_nat (String.length path) - 1)
    else path in
  let lastSlash := JS.lastIndexOf "/" path in
  if (0 <? lastSlash)%Z then JS.substring path 0 lastSlash else "".

(** [folderAdd(name, true)]: a folder that is not there yet is added by
    [fileAdd(name, null, { dir: true, createFolders: true })], which first
    adds the parent folder in the same way.  The parent has a shorter name;
    [fuel] bounds the depth of the recursion. *)
Fixpoint folderAdd_from (fuel : nat) (name : string) (files : gmap string ZipEntry)
  : gmap string ZipEntry :=
  let name := forceTrailingSlash name in
  match files !! name with
  | Some _ => files
  | None =>
      let files :=
        match parentFolder name, fuel with
        | EmptyString, _ => files
        | parent, S fuel' => folderAdd_from fuel' parent files
        | _, O => files
        end in
      <[name := ZipDir]> files
  end.

Definition folderAdd (name : string) (files : gmap string ZipEntry)
  : gmap string ZipEntry :=
  folderAdd_from (String.length name) name files.

(** [fileAdd(name, data)] with the default options: the parent folders are
    created, and the file takes the place of whatever had its path. *)
Definition fileAdd (name : string) (data : ZipData) (files : gmap string ZipEntry)
  : gmap string ZipEntry :=
  let files :=
    match parentFolder name with
    | EmptyString => files
    | parent => folderAdd parent files
    end in
  <[name := ZipFile data]> files.

(** [zip.folder(folderName)] on the archive itself: the root of the handle
    returned, and the archive.  For the empty name the handle is the
    archive itself. *)
Definition zip_folder (folderName : string) (zip : JSZip) : string * JSZip :=
  match folderName with
  | EmptyString => (EmptyString, zip)
  | String _ _ =>
      (forceTrailingSlash folderName,
       {| zip_files := folderAdd folderName (zip_files zip) |})
  end.

(** [folder.file(fileName, data)] on a handle of root [root]. *)
Definition folder_file (root fileName : string) (data : ZipData) (zip : JSZip) : JSZip :=
  {| zip_files := fileAdd (root +:+ fileName) data (zip_files zip) |}.

(** ** Archive builder ([generateSubmissionZip]) *)

(** The body of [files.forEach((file, index) => ...)]; the handle that
    [folder] returns is never null. *)
Definition addToZip (cfg : NamingConfig) (zip : JSZip) (index : nat) (file : ProgramFile)
  : JSZip :=
  let folderName := formatName cfg (folderPattern cfg) file index in
  let screenshotName := formatName cfg (screenshotPattern cfg) file index in
  let (folder, zip1) := zip_folder folderName zip in
  let zip2 := folder_file folder (name file) (ZipText (content file)) zip1 in
  match imageBlob file with
  | Some blob => folder_file folder (screenshotName +:+ ".png") (ZipBlob blob) zip2
  | None => zip2
  end.

Fixpoint forEach_from (cfg : NamingConfig) (index : nat) (l : list ProgramFile)
  (zip : JSZip) : JSZip :=
  match l with
  | [] => zip
  | file :: rest => forEach_from cfg (S index) rest (addToZip cfg zip index file)
  end.

Definition generateSubmissionZip (cfg : NamingConfig) (l : list ProgramFile) : JSZip :=
  forEach_from cfg 0 l emptyZip.

(** ** The archive claims, in the words of the specification *)

(** The number of slashes in a path. *)
Fixpoint slashes (path : string) : nat :=
  match path with
  | EmptyString => O
  | String c rest => if Ascii.eqb c "/" then S (slashes rest) else slashes rest
  end.

(** A folder at the top of the archive: a folder whose path has one slash,
    the one that ends it. *)
Definition isTopLevelFolder (e : string * ZipEntry) : bool :=
  match snd e with
  | ZipDir => Nat.eqb (slashes (fst e)) 1
  | ZipFile _ => false
  end.

Definition topLevelFolders (zip : JSZip) : list (string * ZipEntry) :=
  List.filter isTopLevelFolder (map_to_list (zip_files zip)).

(** A file below the folder of path [root]. *)
Definition isFileIn (root : string) (e : string * ZipEntry) : bool :=
  match snd e with
  | ZipDir => false
  | ZipFile _ => JS.startsWith root (fst e)
  end.

Definition filesIn (root : string) (zip : JSZip) : list (string * ZipEntry) :=
  List.filter (isFileIn root) (map_to_list (zip_files zip)).

(** The entries the specification gives to the item [file] at position
    [index]: its folder, its source under its own name and, when it carries
    an image, the image under the screenshot name. *)
Definition entriesOf (cfg : NamingConfig) (index : nat) (file : ProgramFile)
  : list (string * ZipEntry) :=
  let root := formatName cfg (folderPattern cfg) file index +:+ "/" in
  (root, ZipDir)
  :: (root +:+ name file, ZipFile (ZipText (content file)))
  :: match imageBlob file with
     | Some blob =>
         [(root +:+ formatName cfg (screenshotPattern cfg) file index +:+ ".png",
           ZipFile (ZipBlob blob))]
     | None => []
     end.

(** The entries of a whole list, the first item being at position [index]. *)
Fixpoint layout (cfg : NamingConfig) (index : nat) (l : list ProgramFile)
  : list (string * ZipEntry) :=
  match l with
  | [] => []
  | file :: rest => entriesOf cfg index file ++ layout cfg (S index) rest
  end.

(** The same entries in the order in which the last write comes first. *)
Fixpoint written (cfg : NamingConfig) (index : nat) (l : list ProgramFile)
  : list (string * ZipEntry) :=
  match l with
  | [] => []
  | file :: rest => written cfg (S index) rest ++ reverse (entriesOf cfg index file)
  end.

(** What the names of an item must be like for the layout of the
    specification: the folder name is not empty and has no slash, the file
    name is not empty and has no slash, the screenshot name has no slash,
    and the screenshot file is not called as the source file. *)
Definition plainNames (cfg : NamingConfig) (index : nat) (file : ProgramFile) : Prop :=
  formatName cfg (folderPattern cfg) file index <> "" /\
  JS.includes "/" (formatName cfg (folderPattern cfg) file index) = false /\
  name file <> "" /\
  JS.includes "/" (name file) = false /\
  JS.includes "/" (formatName cfg (screenshotPattern cfg) file index) = false /\
  formatName cfg (screenshotPattern cfg) file index +:+ ".png" <> name file.

(** The items of [l], the first being at position [index], have such
    names, and folder names that differ from one another. *)
Definition plainFrom (cfg : NamingConfig) (index : nat) (l : list ProgramFile) : Prop :=
  forall i f, l !! i = Some f -> plainNames cfg (index + i) f.

Definition distinctFrom (cfg : NamingConfig) (index : nat) (l : list ProgramFile) : Prop :=
  forall i j f g, l !! i = Some f -> l !! j = Some g ->
    formatName cfg (folderPattern cfg) f (index + i)
    = formatName cfg (folderPattern cfg) g (index + j) -> i = j.

(** The root of the handle [zip.folder(folderName)]. *)
Definition rootOf (folderName : string) : string :=
  match folderName with
  | EmptyString => EmptyString
  | String _ _ => forceTrailingSlash folderName
  end.

(** ** The naming claims, in the words of the specification *)

(** [s] without its first character when that character is a separator. *)
Definition stripSeparator (sep : ascii -> bool) (s : string) : string :=
  match s with
  | EmptyString => EmptyString
  | String c s' => if sep c then s' else s
  end.

(** "Every occurrence of [[index]] is replaced by [r], together with at most
    one separator that follows it at once": [IndexReplaced sep r t t'] reads
    [t] from the left, keeps the text before the first occurrence, puts [r]
    for the occurrence and for the separator after it, and goes on behind
    them. *)
Inductive IndexReplaced (sep : ascii -> bool) (r : string) : string -> string -> Prop :=
| IR_none (t : string) :
    JS.includes "[index]" t = false ->
    IndexReplaced sep r t t
| IR_occurrence (a b b' : string) :
    JS.includes "[index]" a = false ->
    IndexReplaced sep r (stripSeparator sep b) b' ->
    IndexReplaced sep r (a +:+ "[index]" +:+ b) (a +:+ r +:+ b').

(** No character is a separator: the occurrence alone is replaced. *)
Definition noSeparator (c : ascii) : bool := false.

(** The separators the specification names: underscore, hyphen, space. *)
Definition namedSeparator (c : ascii) : bool :=
  Ascii.eqb c "_" || Ascii.eqb c "-" || Ascii.eqb c " ".

(** ** The retry claims, in the words of the specification *)

(** The suspension before retry attempt [attempt] (counted from 1, at least
    2): 1500 ms times 2 to the power [attempt - 2]. *)
Definition backoffBefore (attempt : nat) : Z := (1500 * 2 ^ (Z.of_nat attempt - 2))%Z.

(** [n] retries, the first of them being attempt number [attempt]: before
    each one the suspension, then the call. *)
Fixpoint retries (rq : Request) (attempt n : nat) : list Event :=
  match n with
  | O => []
  | S n' =>
      EvSleep (backoffBefore attempt) :: EvGenerateContent rq attempt
      :: retries rq (S attempt) n'
  end.

(** The calls of a run of [k] attempts that starts with attempt number
    [attempt]. *)
Definition callsFrom (rq : Request) (attempt k : nat) : list Event :=
  match k with
  | O => []
  | S n => EvGenerateContent rq attempt :: retries rq (S attempt) n
  end.

(** The parts of the world that only the orchestrator changes. *)
Definition sameState (w w' : World) : Prop :=
  files w' = files w /\ isProcessing w' = isProcessing w /\ captures w' = captures w.

(** What [processSingleFile] makes of an item whose id it was given, when
    the generated output is [out] and the snapshot service is at its call
    number [captureNo]. *)
Definition processed (env : Env) (out : string) (captureNo : nat) (f : ProgramFile)
  : ProgramFile :=
  let f1 := applyPatch (PatchOutput out COMPLETED) (applyPatch (PatchStatus RUNNING) f) in
  if terminalRefs env (id f) then
    match toPng env captureNo (id f) with
    | Some blob => applyPatch (PatchImage blob) f1
    | None => applyPatch (PatchStatus ERROR) f1
    end
  else f1.

(** The ids marked RUNNING in a log, in order. *)
Fixpoint startedIds (evs : list Event) : list string :=
  match evs with
  | [] => []
  | EvSetFiles fileId (PatchStatus RUNNING) :: evs' => fileId :: startedIds evs'
  | _ :: evs' => startedIds evs'
  end.

(** The snapshot calls in a log, in order. *)
Fixpoint captureCalls (evs : list Event) : list string :=
  match evs with
  | [] => []
  | EvToPng fileId :: evs' => fileId :: captureCalls evs'
  | _ :: evs' => captureCalls evs'
  end.

(** The remote calls in a log, in order. *)
Fixpoint remoteCalls (evs : list Event) : list Request :=
  match evs with
  | [] => []
  | EvGenerateContent rq _ :: evs' => rq :: remoteCalls evs'
  | _ :: evs' => remoteCalls evs'
  end.

(** What the retry loop makes of the answer that ends it. *)
Definition verdict (rq : Request) (res : RemoteResult) : string + ApiError :=
  match res with
  | Response text => inl (JS.or_default text (placeholderOutput (req_isHtml rq)))
  | Throws err => inr err
  end.

(** The calls [processSingleFile] makes to capture the item [fileId], when
    the snapshot service is at its call number [captureNo]. *)
Definition captureEvents (env : Env) (fileId : string) (captureNo : nat) : list Event :=
  if terminalRefs env fileId then
    [EvToPng fileId;
     EvSetFiles fileId
       match toPng env captureNo fileId with
       | Some blob => PatchImage blob
       | None => PatchStatus ERROR
       end]
  else [].

(** All the calls [processSingleFile] makes for the item [fileId], when the
    output [out] comes after [k] attempts. *)
Definition itemEvents (env : Env) (fileId : string) (rq : Request) (k : nat)
  (out : string) (captureNo : nat) : list Event :=
  EvSetFiles fileId (PatchStatus RUNNING)
  :: callsFrom rq 1 k
  ++ [EvSetFiles fileId (PatchOutput out COMPLETED); EvSleep 800]
  ++ captureEvents env fileId captureNo.

Definition processedIfId (env : Env) (fileId out : string) (captureNo : nat)
  (f : ProgramFile) : ProgramFile :=
  if String.eqb (id f) fileId then processed env out captureNo f else f.

(** What a batch run that processes the ids [ids] makes of an item [f]:
    [f'] is [f] processed when its id is among them, and [f] itself
    otherwise. *)
Definition outcome (env : Env) (ids : list string) (f f' : ProgramFile) : Prop :=
  (In (id f) ids -> exists out n, f' = processed env out n f) /\
  (~ In (id f) ids -> f' = f).

(** The class of the optional character of a regular expression. *)
Definition sepOf (re : JS.RegExp) : ascii -> bool :=
  match JS.re_optional re with
  | Some cls => cls
  | None => noSeparator
  end.

(** The world after one call of the remote service. *)
Definition afterCall (rq : Request) (attempt : nat) (w : World) : World :=
  log (EvGenerateContent rq attempt)
    {| files := files w; isProcessing := isProcessing w; clients := clients w;
       requests := S (requests w); captures := captures w; trace := trace w |}.

(** ** Test data *)

Definition sourceFile (fileName : string) : ProgramFile :=
  {| id := "f1"; name := fileName; content := "print(1)"; language := "py";
     status := PENDING; output := None; imageBlob := None |}.

Definition naming (start : Z) (numbering : bool) : NamingConfig :=
  {| folderPattern := "[index]_[name]"; screenshotPattern := "[name]_output";
     startIndex := start; isNumberingEnabled := numbering |}.

Definition tab : string := String "009" EmptyString.

Definition noFields (text : string) : ApiError :=
  {| err_status := JsUndefined; err_code := JsUndefined;
     err_response_status := JsUndefined; err_error_code := JsUndefined;
     err_error_status := JsUndefined; err_string := text |}.

(** The error of the SDK for an exceeded quota. *)
Definition quotaError : ApiError :=
  {| err_status := JsNumber 429; err_code := JsUndefined;
     err_response_status := JsUndefined; err_error_code := JsUndefined;
     err_error_status := JsUndefined;
     err_string := "ApiError: got status: 429 Too Many Requests. RESOURCE_EXHAUSTED" |}.

(** An HTTP layer that reports the exceeded rate in its message only. *)
Definition plain429 : ApiError := noFields "Error: 429 Too Many Requests".

Definition networkError : ApiError := noFields "TypeError: Failed to fetch".

Definition blobOf (fileId : string) : Blob := {| blob_bytes := "png:" +:+ fileId |}.

(** A remote service that throws [err] on its first [n] calls and answers
    [text] thereafter; every element is registered; the capture of the ids
    in [broken] throws. *)
Definition service (n : nat) (err : ApiError) (text : string) (broken : list string) : Env :=
  {| newClient := fun _ => None;
     generateContent := fun k _ => if (k <? n)%nat then Throws err else Response (Some text);
     terminalRefs := fun _ => true;
     toPng := fun _ fileId =>
       if existsb (String.eqb fileId) broken then None else Some (blobOf fileId) |}.

Definition item (fileId fileName : string) (st : FileStatus) : ProgramFile :=
  {| id := fileId; name := fileName; content := "print(1)"; language := "py";
     status := st; output := None; imageBlob := None |}.

Definition session (l : list ProgramFile) : World :=
  {| files := l; isProcessing := false; clients := 0; requests := 0; captures := 0;
     trace := [] |}.

(** A remote service whose quota is exceeded at the first call and whose
    network fails from the second call on. *)
Definition flaky : Env :=
  {| newClient := fun _ => None;
     generateContent := fun k _ => if (k <? 1)%nat then Throws quotaError
                                   else Throws networkError;
     terminalRefs := fun _ => true;
     toPng := fun _ _ => None |}.

(** The error of the SDK when no key is configured. *)
Definition missingKey : ApiError :=
  noFields "Error: An API Key must be set when running in a browser".

(** A session without a key: no client can be built. *)
Definition keyless (env : Env) : Env :=
  {| newClient := fun _ => Some missingKey;
     generateContent := generateContent env;
     terminalRefs := terminalRefs env;
     toPng := toPng env |}.

(** A session in which no element is rendered, whatever the services do. *)
Definition headless (env : Env) : Env :=
  {| newClient := newClient env;
     generateContent := generateContent env;
     terminalRefs := fun _ => false;
     toPng := toPng env |}.

(** An item that an earlier run has finished. *)
Definition finished (fileId fileName : string) : ProgramFile :=
  {| id := fileId; name := fileName; content := "print(1)"; language := "py";
     status := COMPLETED; output := Some "1"; imageBlob := Some (blobOf fileId) |}.

Definition mixedBatch : World :=
  session [finished "a" "a.py"; item "b" "b.py" PENDING; finished "c" "c.py";
           item "d" "d.py" ERROR].

Definition fiveItems : World :=
  session [item "a" "a.py" PENDING; item "b" "b.py" PENDING; item "c" "c.py" PENDING;
           item "d" "d.py" PENDING; item "e" "e.py" PENDING].

(** The defaults of [generateSubmissionZip]. *)
Definition zipDefaults : NamingConfig :=
  {| folderPattern := "[name]"; screenshotPattern := "[name]_output";
     startIndex := 1; isNumberingEnabled := true |}.

(** Folders that are to lie in a common folder. *)
Definition nestedNaming : NamingConfig :=
  {| folderPattern := "labs/[index]_[name]"; screenshotPattern := "[name]_output";
     startIndex := 1; isNumberingEnabled := true |}.

(** Two files called main.py, as a folder upload with two sub-folders
    gives them; the first one has been captured. *)
Definition twoMains : list ProgramFile :=
  [finished "a" "main.py"; item "b" "main.py" PENDING].

Definition twoItems : list ProgramFile :=
  [finished "a" "a.py"; item "b" "b.py" PENDING].

(** ** Upload and removal ([handleFileUpload], [removeFile]) *)

(** [c.toLowerCase()] on one code unit below 256: the letters A-Z and the
    capital letters of Latin-1 (U+00C0 to U+00DE, the multiplication sign
    U+00D7 apart) move up by 32. *)
Definition lowerChar (c : ascii) : ascii :=
  let n := nat_of_ascii c in
  if ((65 <=? n) && (n <=? 90) || (192 <=? n) && (n <=? 222) && negb (n =? 215))%nat
  then ascii_of_nat (n + 32)
  else c.

(** [s.toLowerCase()] *)
Fixpoint toLowerCase (s : string) : string :=
  match s with
  | EmptyString => EmptyString
  | String c s' => String (lowerChar c) (toLowerCase s')
  end.

(** [!f.name.startsWith('.') && !f.name.includes('DS_Store')] *)
Definition accepted (fileName : string) : bool :=
  negb (JS.startsWith "." fileName) && negb (JS.includes "DS_Store" fileName).

(** [file.name.split('.').pop()?.toLowerCase() || 'text'] *)
Definition languageOf (fileName : string) : string :=
  JS.or_default (option_map toLowerCase (JS.pop (JS.split "." fileName))) "text".

(** The item [handleFileUpload] makes for an accepted file; [fileId] is what
    [Math.random().toString(36).substring(7)] gave. *)
Definition newFile (fileId fileName : string) : ProgramFile :=
  {| id := fileId; name := fileName; content := ""; language := languageOf fileName;
     status := PENDING; output := None; imageBlob := None |}.

(** [validFiles.map(file => ...)]; [randomId k] is the id drawn for the
    [k]-th accepted file. *)
Fixpoint newFiles (randomId : nat -> string) (k : nat) (validNames : list string)
  : list ProgramFile :=
  match validNames with
  | [] => []
  | fileName :: rest => newFile (randomId k) fileName :: newFiles randomId (S k) rest
  end.

(** The state after [setFiles(prev => [...prev, ...newFiles])]. *)
Definition handleFileUpload (randomId : nat -> string) (uploaded : list string)
  (prev : list ProgramFile) : list ProgramFile :=
  prev ++ newFiles randomId 0 (List.filter accepted uploaded).

Definition withContent (text : string) (f : ProgramFile) : ProgramFile :=
  {| id := id f; name := name f; content := text; language := language f;
     status := status f; output := output f; imageBlob := imageBlob f |}.

(** The state update of [reader.onload] for the file [fileName]: the first
    item of that name whose content is still empty receives the text read. *)
Fixpoint onload (fileName text : string) (prev : list ProgramFile) : list ProgramFile :=
  match prev with
  | [] => []
  | f :: rest =>
      if String.eqb (name f) fileName && String.eqb (content f) ""
      then withContent text f :: rest
      else f :: onload fileName text rest
  end.

(** The state after [removeFile(id)]: [files.filter(f => f.id !== id)], on
    the [files] of the render whose closure is running. *)
Definition removeFile (files0 : list ProgramFile) (fileId : string) : list ProgramFile :=
  List.filter (fun f => negb (String.eqb (id f) fileId)) files0.

(** ** Vocabulary of the further properties *)

(** The three placeholders that stand for a part of the file name. *)
Inductive Placeholder := PName | PExt | PFull.

Definition token (p : Placeholder) : string :=
  match p with
  | PName => "[name]"
  | PExt => "[ext]"
  | PFull => "[full]"
  end.

Definition valueOf (p : Placeholder) (file : ProgramFile) : string :=
  match p with
  | PName => nameWithoutExt (name file)
  | PExt => ext (name file)
  | PFull => name file
  end.

(** The time a log spends suspended, in milliseconds. *)
Fixpoint totalSleep (evs : list Event) : Z :=
  match evs with
  | [] => 0%Z
  | EvSleep ms :: evs' => (ms + totalSleep evs')%Z
  | _ :: evs' => totalSleep evs'
  end.

(** What every item of a session satisfies: an item that is COMPLETED or in
    ERROR has an output, and only a COMPLETED item carries an image. *)
Definition consistent (f : ProgramFile) : Prop :=
  (status f = COMPLETED \/ status f = ERROR -> output f <> None) /\
  (imageBlob f <> None -> status f = COMPLETED).

(** Two items that differ at most in status, output and image. *)
Definition sameSource (f f' : ProgramFile) : Prop :=
  id f' = id f /\ name f' = name f /\ content f' = content f /\ language f' = language f.

(** An upload of three files, one of them hidden. *)
Definition uploadedNames : list string := ["Main.java"; ".DS_Store"; "INDEX.HTML"].

Definition drawnIds (k : nat) : string :=
  match k with
  | O => "k3x9a"
  | 1%nat => "p07qz"
  | _ => "zz1"
  end.

(** An item as [handleFileUpload] makes it. *)
Definition fresh (f : ProgramFile) : Prop :=
  status f = PENDING /\ content f = "" /\ output f = None /\ imageBlob f = None /\
  accepted (name f) = true /\ language f = languageOf (name f).

(** ** The course of a batch run, item by item *)

(** What a batch run keeps of every item: its id, its name, its language
    and, when it has content, its content.  The run itself never writes the
    content; an item whose content is still empty shares its object with
    [reader.onload], which fills in the text of the file when the read
    completes, so nothing is said of the content of such an item. *)
Definition sameItem (f f' : ProgramFile) : Prop :=
  id f' = id f /\ name f' = name f /\ language f' = language f /\
  (content f <> "" -> content f' = content f).

(** What a batch run does with an unfinished item [f]: [evs] is the part of
    the log that belongs to the item and [f'] is the item after the run.
    The item is marked RUNNING; at most 4 calls go to the remote service,
    with the language tag of the item and, when the item has content, that
    content; the output [out] is attached and the item marked COMPLETED;
    after 800 ms, and only when an element is registered, the capture is
    called, which attaches the image or marks the item as ERROR; 700 ms
    later the next item starts.  The item is kept as [sameItem] says,
    carries [out] as its output, and has the status and the image the
    capture left. *)
Definition itemRun (env : Env) (f : ProgramFile) (evs : list Event) (f' : ProgramFile)
  : Prop :=
  exists (rq : Request) (k : nat) (out : string) (n : nat),
    (k <= 4)%nat /\
    req_language rq = language f /\
    req_isHtml rq = String.eqb (language f) "html" /\
    (content f <> "" -> req_content rq = content f) /\
    evs = itemEvents env (id f) rq k out n ++ [EvSleep 700] /\
    sameItem f f' /\
    output f' = Some out /\
    status f'
    = (if terminalRefs env (id f) then
         match toPng env n (id f) with
         | Some _ => COMPLETED
         | None => ERROR
         end
       else COMPLETED) /\
    imageBlob f'
    = (if terminalRefs env (id f) then
         match toPng env n (id f) with
         | Some blob => Some blob
         | None => imageBlob f
         end
       else imageBlob f).

(** What a batch run does with an item of the list: an item that is not
    COMPLETED is run; a COMPLETED item is passed over: it has no part in the
    log and keeps its status, its output and its image. *)
Definition batchRun (env : Env) (f : ProgramFile) (evs : list Event) (f' : ProgramFile)
  : Prop :=
  if notCompleted f then itemRun env f evs f'
  else evs = [] /\ sameItem f f' /\
       status f' = status f /\ output f' = output f /\ imageBlob f' = imageBlob f.

(** The result of the run of one item: the number of calls to the remote
    service, the output and the number of the capture call. *)
Definition Result : Type := nat * string * nat.

(** The result of the item [fileId] among the results [rs] of the files
    [todo]. *)
Fixpoint resultOf (fileId : string) (todo : list ProgramFile) (rs : list Result)
  : option Result :=
  match todo, rs with
  | g :: todo', r :: rs' =>
      if String.eqb (id g) fileId then Some r else resultOf fileId todo' rs'
  | _, _ => None
  end.

Definition finish (env : Env) (todo : list ProgramFile) (rs : list Result)
  (f : ProgramFile) : ProgramFile :=
  match resultOf (id f) todo rs with
  | Some (_, out, n) => processed env out n f
  | None => f
  end.

Definition logOf (env : Env) (g : ProgramFile) (r : Result) : list Event :=
  let '(k, out, n) := r in
  itemEvents env (id g) (requestOf g) k out n ++ [EvSleep 700].

Definition runOf (env : Env) (todo : list ProgramFile) (rs : list Result)
  (f : ProgramFile) : list Event :=
  if notCompleted f then
    match resultOf (id f) todo rs with
    | Some r => logOf env f r
    | None => []
    end
  else [].

(** * Facts about strings *)

#[local] Arguments String.append !_ _ / : simpl nomatch.

Section StringFacts.

Lemma append_nil_r (s : string) : s +:+ "" = s.
Proof. induction s as [|c s IH]; simpl; [reflexivity | now rewrite IH]. Qed.

Lemma append_assoc (a b c : string) : (a +:+ b) +:+ c = a +:+ (b +:+ c).
Proof. induction a as [|x a IH]; simpl; [reflexivity | now rewrite IH]. Qed.

Lemma length_append (a b : string) :
  String.length (a +:+ b) = (String.length a + String.length b)%nat.
Proof. induction a as [|x a IH]; simpl; [reflexivity | now rewrite IH]. Qed.

Lemma startsWith_app (n r : string) : JS.startsWith n (n +:+ r) = true.
Proof.
  induction n as [|c n IH]; simpl; [reflexivity |].
  now rewrite Ascii.eqb_refl, IH.
Qed.

Lemma startsWith_inv (n s : string) :
  JS.startsWith n s = true -> exists r, s = n +:+ r.
Proof.
  revert s; induction n as [|c n IH]; intros s H.
  - now exists s.
  - destruct s as [|d s]; simpl in H; [discriminate |].
    apply andb_prop in H as [Hc Hn].
    apply Ascii.eqb_eq in Hc; subst d.
    destruct (IH _ Hn) as [r ->]. now exists r.
Qed.

Lemma startsWith_app_r (n s r : string) :
  JS.startsWith n s = true -> JS.startsWith n (s +:+ r) = true.
Proof.
  intros H. destruct (startsWith_inv _ _ H) as [x ->].
  rewrite append_assoc. apply startsWith_app.
Qed.

Lemma includes_cons (n : string) (c : ascii) (s : string) :
  JS.includes n (String c s) = JS.startsWith n (String c s) || JS.includes n s.
Proof. reflexivity. Qed.

Lemma includes_startsWith (n s : string) :
  JS.includes n s = false -> JS.startsWith n s = false.
Proof.
  destruct s; simpl; intros H; apply orb_false_elim in H; tauto.
Qed.

(** The text before the first occurrence of [n] does not hold [n]. *)
Lemma includes_first (n t : string) :
  n <> "" -> JS.includes n t = true ->
  exists a b, t = a +:+ n +:+ b /\ JS.includes n a = false.
Proof.
  intros Hn. induction t as [|c t IH]; intros H.
  - destruct n; [congruence | discriminate].
  - rewrite includes_cons in H.
    destruct (JS.startsWith n (String c t)) eqn:Hs.
    + destruct (startsWith_inv _ _ Hs) as [r Hr].
      exists "", r. split; [exact Hr |]. destruct n; [congruence | reflexivity].
    + simpl in H. destruct (IH H) as (a & b & -> & Ha).
      exists (String c a), b. split; [reflexivity |].
      rewrite includes_cons, Ha, orb_false_r.
      destruct (JS.startsWith n (String c a)) eqn:Hs'; [| reflexivity].
      apply (startsWith_app_r _ _ (n +:+ b)) in Hs'.
      simpl in Hs', Hs. congruence.
Qed.

End StringFacts.

(** * Facts about the scan of [replace] *)

Section ReplaceFacts.

Variable re : JS.RegExp.

Lemma matchAt_None (s : string) :
  JS.startsWith (JS.re_literal re) s = false -> JS.matchAt re s = None.
Proof. unfold JS.matchAt. now intros ->. Qed.

(** Where the literal of [re] does not occur, [replace] changes nothing. *)
Lemma replace_from_absent (r before s : string) :
  JS.includes (JS.re_literal re) s = false ->
  JS.replace_from re r before s 0 = s.
Proof.
  revert before; induction s as [|c s IH]; intros before H; [reflexivity |].
  rewrite includes_cons in H. apply orb_false_elim in H as [Hs Hi].
  cbn [JS.replace_from]. rewrite (matchAt_None _ Hs).
  now rewrite IH.
Qed.

(** The characters of a match are dropped. *)
Lemma replace_from_skip (r before x s : string) :
  JS.replace_from re r before (x +:+ s) (String.length x)
  = JS.replace_from re r (before +:+ x) s 0.
Proof.
  revert before; induction x as [|c x IH]; intros before.
  - simpl. now rewrite append_nil_r.
  - simpl. rewrite IH. now rewrite append_assoc.
Qed.

(** A text in which no match starts is copied. *)
Lemma replace_from_copy (r before a rest : string) :
  (forall a1 a2, a = a1 +:+ a2 -> a2 <> "" ->
                 JS.startsWith (JS.re_literal re) (a2 +:+ rest) = false) ->
  JS.replace_from re r before (a +:+ rest) 0
  = a +:+ JS.replace_from re r (before +:+ a) rest 0.
Proof.
  revert before; induction a as [|c a IH]; intros before H.
  - simpl. now rewrite append_nil_r.
  - change (String c a +:+ rest) with (String c (a +:+ rest)).
    cbn [JS.replace_from].
    rewrite matchAt_None by (apply (H "" (String c a)); [reflexivity | discriminate]).
    rewrite IH.
    + simpl. now rewrite append_assoc.
    + intros a1 a2 -> Ha2. apply (H (String c a1) a2); [reflexivity | exact Ha2].
Qed.

(** A replacement text without dollar sign is inserted as it is. *)
Lemma getSubstitution_plain (matched before after r : string) :
  JS.includes "$" r = false -> JS.getSubstitution matched before after r = r.
Proof.
  induction r as [|c r IH]; intros H; [reflexivity |].
  rewrite includes_cons in H. apply orb_false_elim in H as [Hc Hr].
  cbn [JS.startsWith] in Hc. rewrite andb_true_r in Hc.
  cbn [JS.getSubstitution].
  rewrite Ascii.eqb_sym, Hc. now rewrite IH.
Qed.

End ReplaceFacts.

(** * The replacement of [[index]] *)

Section IndexFacts.

Lemma includes_suffix (n a1 a2 : string) :
  JS.includes n (a1 +:+ a2) = false -> JS.includes n a2 = false.
Proof.
  induction a1 as [|c a1 IH]; intros H; [exact H |].
  change (String c a1 +:+ a2) with (String c (a1 +:+ a2)) in H.
  rewrite includes_cons in H. apply orb_false_elim in H as [_ H]. auto.
Qed.

(** A literal whose first character does not come back in it cannot match
    astride the end of a text that is followed by the literal itself. *)
Lemma startsWith_tail_inside (h : ascii) (tl a x : string) :
  JS.includes (String h "") tl = false ->
  JS.startsWith tl (a +:+ String h x) = true ->
  JS.startsWith tl a = true.
Proof.
  revert a; induction tl as [|t tl IH]; intros a Hh H; [reflexivity |].
  rewrite includes_cons in Hh. apply orb_false_elim in Hh as [Ht Hh].
  cbn [JS.startsWith] in Ht. rewrite andb_true_r in Ht.
  destruct a as [|c a]; simpl in H.
  - rewrite Ascii.eqb_sym, Ht in H. discriminate.
  - apply andb_prop in H as [Hc H]. simpl. rewrite Hc. simpl. now apply IH.
Qed.

Lemma startsWith_no_straddle (h : ascii) (tl a b : string) :
  JS.includes (String h "") tl = false ->
  a <> "" ->
  JS.startsWith (String h tl) a = false ->
  JS.startsWith (String h tl) (a +:+ String h tl +:+ b) = false.
Proof.
  intros Hh Ha Hs. destruct a as [|c a]; [congruence |].
  destruct (JS.startsWith (String h tl) (String c a +:+ String h tl +:+ b)) eqn:E;
    [| reflexivity].
  simpl in E. apply andb_prop in E as [Hc E].
  apply startsWith_tail_inside in E; [| exact Hh].
  simpl in Hs. rewrite Hc, E in Hs. discriminate.
Qed.

Lemma get_app_length (a b : string) :
  String.get (String.length a) (a +:+ b)
  = match b with EmptyString => None | String c _ => Some c end.
Proof. induction a as [|x a IH]; simpl; [now destruct b | exact IH]. Qed.

Variable re : JS.RegExp.

(** At an occurrence of the literal, the match and one separator behind it
    give way to the substitution. *)
Lemma replace_from_match (r before : string) (h : ascii) (tl b : string) :
  JS.re_literal re = String h tl ->
  exists matched after before',
    JS.replace_from re r before (String h tl +:+ b) 0
    = JS.getSubstitution matched before after r
      +:+ JS.replace_from re r before' (stripSeparator (sepOf re) b) 0.
Proof.
  intros Hlit.
  change (String h tl +:+ b) with (String h (tl +:+ b)).
  cbn [JS.replace_from]. unfold JS.matchAt. rewrite Hlit.
  change (String h (tl +:+ b)) with (String h tl +:+ b).
  rewrite startsWith_app, get_app_length.
  unfold sepOf. cbn [String.length].
  destruct (JS.re_optional re) as [cls|];
    [destruct b as [|c b]; [| cbn [stripSeparator]; destruct (cls c)] |].
  - do 3 eexists. rewrite replace_from_skip. reflexivity.
  - do 3 eexists. f_equal.
    replace (tl +:+ String c b) with ((tl +:+ String c "") +:+ b)
      by (rewrite append_assoc; reflexivity).
    replace (S (String.length tl)) with (String.length (tl +:+ String c ""))
      by (rewrite length_append; simpl; lia).
    apply replace_from_skip.
  - do 3 eexists. rewrite replace_from_skip. reflexivity.
  - replace (stripSeparator noSeparator b) with b by (now destruct b).
    do 3 eexists. rewrite replace_from_skip. reflexivity.
Qed.

Hypothesis re_index_literal : JS.re_literal re = "[index]".

(** The scan of [replace] does to [[index]] what [IndexReplaced] says. *)
Lemma replace_from_IndexReplaced (r : string) :
  JS.includes "$" r = false ->
  forall (n : nat) (t before : string),
    (String.length t <= n)%nat ->
    IndexReplaced (sepOf re) r t (JS.replace_from re r before t 0).
Proof.
  intros Hr n. induction n as [|n IH]; intros t before Hlen.
  - destruct t; [| simpl in Hlen; lia]. now apply IR_none.
  - destruct (JS.includes "[index]" t) eqn:Hi.
    + apply includes_first in Hi as (a & b & -> & Ha); [| discriminate].
      rewrite replace_from_copy.
      * destruct (replace_from_match r (before +:+ a) "[" "index]" b re_index_literal)
          as (matched & after & before' & ->).
        rewrite getSubstitution_plain by exact Hr.
        apply IR_occurrence; [exact Ha |].
        apply IH. rewrite !length_append in Hlen. simpl in Hlen.
        destruct b as [|c b]; simpl; [lia |].
        destruct ((sepOf re) c); simpl in *; lia.
      * intros a1 a2 -> Ha2. rewrite re_index_literal.
        apply startsWith_no_straddle; [reflexivity | exact Ha2 |].
        apply includes_startsWith. now apply includes_suffix in Ha.
    + rewrite replace_from_absent by (rewrite re_index_literal; exact Hi).
      now apply IR_none.
Qed.

End IndexFacts.

(** * Numbers *)

Section NumberFacts.

Lemma roundToDouble_small (z : Z) : (Z.abs z < 2 ^ 53)%Z -> JS.roundToDouble z = z.
Proof.
  intros H. unfold JS.roundToDouble.
  assert (Hl : (Z.log2 (Z.abs z) < 53)%Z).
  { destruct (Z.eq_dec (Z.abs z) 0%Z) as [-> | Hz]; [reflexivity |].
    apply Z.log2_lt_pow2; lia. }
  destruct (Z.log2 (Z.abs z) - 52 <=? 0)%Z eqn:E; [reflexivity |].
  apply Z.leb_gt in E. lia.
Qed.

Lemma roundToDouble_large (a : Z) : (2 ^ 53 <= a)%Z -> (2 ^ 53 <= JS.roundToDouble a)%Z.
Proof.
  intros H. unfold JS.roundToDouble.
  assert (Ha : (0 < a)%Z) by lia.
  rewrite (Z.abs_eq a) by lia. rewrite (Z.sgn_pos a) by exact Ha.
  assert (Hl : (53 <= Z.log2 a)%Z) by (apply Z.log2_le_pow2; lia).
  destruct (Z.log2 a - 52 <=? 0)%Z eqn:E; [apply Z.leb_le in E; lia |].
  set (s := (Z.log2 a - 52)%Z).
  assert (Hs : (1 <= s)%Z) by (subst s; lia).
  assert (Hq : (2 ^ 52 <= a / 2 ^ s)%Z).
  { apply Z.div_le_lower_bound; [apply Z.pow_pos_nonneg; lia |].
    rewrite <- Z.pow_add_r by lia.
    replace (s + 52)%Z with (Z.log2 a) by (subst s; lia).
    apply Z.log2_spec. exact Ha. }
  assert (Hp : (2 <= 2 ^ s)%Z).
  { change 2%Z with (2 ^ 1)%Z at 1. apply Z.pow_le_mono_r; lia. }
  destruct ((2 ^ (s - 1) <? a mod 2 ^ s)%Z || ((a mod 2 ^ s =? 2 ^ (s - 1))%Z && Z.odd (a / 2 ^ s)));
    nia.
Qed.

Lemma shortest_safe (e : nat) (a : Z) :
  (0 < a < 2 ^ 53)%Z -> JS.shortest e a = a.
Proof.
  intros Ha. induction e as [|e IH]; cbn [JS.shortest].
  - rewrite Z.pow_0_r, Z.div_1_r, Z.mul_1_r.
    assert (Hlo : ((0 <? a)%Z && (JS.roundToDouble a =? a)%Z) = true).
    { rewrite roundToDouble_small by lia. rewrite Z.eqb_refl. 
      destruct (0 <? a)%Z eqn:E; [reflexivity | apply Z.ltb_ge in E; lia]. }
    rewrite Hlo. cbn [andb].
    destruct (JS.roundToDouble (a + 1) =? a)%Z; [| reflexivity].
    replace (a - a)%Z with 0%Z by lia. replace (a + 1 - a)%Z with 1%Z by lia. reflexivity.
  - set (p := (10 ^ Z.of_nat (S e))%Z).
    assert (Hp : (0 < p)%Z) by (apply Z.pow_pos_nonneg; lia).
    assert (Hlo : (a / p * p <= a)%Z) by (pose proof (Z.mul_div_le a p Hp); lia).
    assert (Hhi : (a < a / p * p + p)%Z).
    { pose proof (Z.mod_pos_bound a p Hp). pose proof (Z.div_mod a p). lia. }
    assert (Hdiv : (0 <= a / p)%Z) by (apply Z.div_pos; lia).
    assert (HokHi : (JS.roundToDouble (a / p * p + p) =? a)%Z = false).
    { apply Z.eqb_neq. destruct (Z_lt_le_dec (a / p * p + p) (2 ^ 53)) as [Hs | Hl].
      - rewrite roundToDouble_small by lia. lia.
      - pose proof (roundToDouble_large _ Hl). lia. }
    rewrite HokHi, andb_false_r.
    destruct ((0 <? a / p * p)%Z && (JS.roundToDouble (a / p * p) =? a)%Z) eqn:HokLo.
    + apply andb_prop in HokLo as [_ Heq]. apply Z.eqb_eq in Heq.
      rewrite roundToDouble_small in Heq by nia. exact Heq.
    + exact IH.
Qed.

Lemma render_safe (a : Z) : (0 < a < 2 ^ 53)%Z -> JS.render a = JS.decimal a.
Proof.
  intros Ha. unfold JS.render. rewrite shortest_safe by exact Ha.
  destruct (a <? 10 ^ 21)%Z eqn:E; [reflexivity |]. apply Z.ltb_ge in E. lia.
Qed.

(** Within the safe integers [toString] gives the decimal notation. *)
Lemma toString_safe (z : Z) : JS.isSafeInteger z -> JS.toString z = JS.decimal z.
Proof.
  unfold JS.isSafeInteger. intros H. destruct z as [|p|p]; cbn [JS.toString].
  - reflexivity.
  - apply render_safe. lia.
  - rewrite render_safe by lia. reflexivity.
Qed.

(** Within the safe integers [+] is exact. *)
Lemma add_safe (a b : Z) : JS.isSafeInteger (a + b) -> JS.add a b = (a + b)%Z.
Proof. unfold JS.isSafeInteger, JS.add. intros H. apply roundToDouble_small. lia. Qed.

End NumberFacts.

Lemma decimal_plain (n : Z) : JS.includes "$" (JS.decimal n) = false.
Proof.
  unfold JS.decimal.
  assert (Hu : forall d, JS.includes "$" (NilEmpty.string_of_uint d) = false).
  { induction d; [reflexivity | ..]; exact IHd. }
  assert (Hu0 : forall d, JS.includes "$" (NilZero.string_of_uint d) = false).
  { intros d. destruct d; [reflexivity | ..]; apply Hu. }
  destruct (Z.to_int n) as [d|d]; [apply Hu0 | apply (Hu0 d)].
Qed.

(** The text put for [[index]] when the number of the item is a safe
    integer. *)
Lemma toString_add_safe (start : Z) (index : nat) :
  JS.isSafeInteger (start + Z.of_nat index) ->
  JS.toString (JS.add start (Z.of_nat index)) = JS.decimal (start + Z.of_nat index).
Proof. intros H. rewrite add_safe by exact H. now apply toString_safe. Qed.

(** * The naming engine *)

Section NamingEngine.

Lemma split_nonempty (sep : ascii) (s : string) : JS.split sep s <> [].
Proof.
  destruct s as [|c s]; simpl; [discriminate |].
  destruct (JS.split sep s); [discriminate |].
  destruct (Ascii.eqb c sep); discriminate.
Qed.

Lemma split_absent (sep : ascii) (s : string) :
  JS.includes (String sep "") s = false -> JS.split sep s = [s].
Proof.
  induction s as [|c s IH]; intros H; [reflexivity |].
  rewrite includes_cons in H. apply orb_false_elim in H as [Hc Hs].
  cbn [JS.startsWith] in Hc. rewrite andb_true_r, Ascii.eqb_sym in Hc.
  simpl. rewrite (IH Hs), Hc. reflexivity.
Qed.

Lemma split_at_separator (sep : ascii) (a b : string) :
  exists seg segs, JS.split sep (a +:+ String sep b) = seg :: segs ++ JS.split sep b.
Proof.
  induction a as [|c a IH].
  - simpl. destruct (JS.split sep b) as [|s0 l] eqn:E.
    + now apply split_nonempty in E.
    + rewrite Ascii.eqb_refl. now exists "", [].
  - destruct IH as (seg & segs & IH). simpl. rewrite IH.
    destruct (Ascii.eqb c sep).
    + now exists "", (seg :: segs).
    + now exists (String c seg), segs.
Qed.

(** A file name without a dot is its own [ext]. *)
Lemma ext_without_dot (fileName : string) :
  JS.includes "." fileName = false -> ext fileName = fileName.
Proof.
  intros H. unfold ext, JS.pop. rewrite (split_absent _ _ H). simpl.
  now destruct fileName.
Qed.

(** With a dot in the file name, [ext] is the text behind the last one. *)
Lemma ext_after_last_dot (a b : string) :
  JS.includes "." b = false -> ext (a +:+ "." +:+ b) = b.
Proof.
  intros H. unfold ext, JS.pop.
  change (a +:+ "." +:+ b) with (a +:+ String "." b).
  destruct (split_at_separator "." a b) as (seg & segs & ->).
  rewrite (split_absent _ _ H).
  rewrite app_comm_cons, last_snoc. simpl. now destruct b.
Qed.

(** Where the expanded pattern holds no [[index]], the last step of
    [formatName] leaves it as it is. *)
Lemma formatName_absent (cfg : NamingConfig) (pattern : string) (file : ProgramFile)
  (index : nat) :
  JS.includes "[index]" (formatted pattern file) = false ->
  formatName cfg pattern file index = formatted pattern file.
Proof.
  intros H. unfold formatName, JS.replace.
  destruct (isNumberingEnabled cfg); now apply replace_from_absent.
Qed.

(** A text too short to hold [[index]] is left as it is. *)
Lemma IndexReplaced_short (sep : ascii -> bool) (r t t' : string) :
  IndexReplaced sep r t t' -> (String.length t < 7)%nat -> t' = t.
Proof.
  intros [t0 _ | a b b' _ _]; [reflexivity |].
  rewrite !length_append. simpl. lia.
Qed.

(** A text that begins with [[index]] loses it, and the separator behind. *)
Lemma IndexReplaced_head (sep : ascii -> bool) (r b t' : string) :
  IndexReplaced sep r ("[index]" +:+ b) t' ->
  exists b', t' = r +:+ b' /\ IndexReplaced sep r (stripSeparator sep b) b'.
Proof.
  intros H. remember ("[index]" +:+ b) as t eqn:E.
  destruct H as [t Ht | a b0 b' Ha Hb].
  - subst t. apply includes_startsWith in Ht.
    now rewrite startsWith_app in Ht.
  - destruct a as [|c a].
    + simpl in E. apply (inj (String.app "[index]")) in E. subst b0.
      exists b'. split; [reflexivity | exact Hb].
    + exfalso.
      assert (Hs : JS.startsWith "[index]" (String c a +:+ "[index]" +:+ b0) = false).
      { apply startsWith_no_straddle; [reflexivity | discriminate |].
        now apply includes_startsWith. }
      rewrite E, startsWith_app in Hs. discriminate.
Qed.

(** The first occurrence of [[index]] splits a text in one way only. *)
Lemma first_occurrence_unique (a a' b b' : string) :
  JS.includes "[index]" a = false ->
  JS.includes "[index]" a' = false ->
  a +:+ "[index]" +:+ b = a' +:+ "[index]" +:+ b' ->
  a = a' /\ b = b'.
Proof.
  revert a'; induction a as [|c a IH]; intros a' Ha Ha' E.
  - destruct a' as [|c' a'].
    + simpl in E. apply (inj (String.app "[index]")) in E. now split.
    + exfalso.
      assert (Hs : JS.startsWith "[index]" (String c' a' +:+ "[index]" +:+ b') = false).
      { apply startsWith_no_straddle; [reflexivity | discriminate |].
        now apply includes_startsWith. }
      rewrite <- E in Hs.
      change ("" +:+ "[index]" +:+ b) with ("[index]" +:+ b) in Hs.
      rewrite startsWith_app in Hs. discriminate.
  - destruct a' as [|c' a'].
    + exfalso.
      assert (Hs : JS.startsWith "[index]" (String c a +:+ "[index]" +:+ b) = false).
      { apply startsWith_no_straddle; [reflexivity | discriminate |].
        now apply includes_startsWith. }
      rewrite E in Hs.
      change ("" +:+ "[index]" +:+ b') with ("[index]" +:+ b') in Hs.
      rewrite startsWith_app in Hs. discriminate.
    + simpl in E. injection E as -> E.
      rewrite includes_cons in Ha, Ha'.
      apply orb_false_elim in Ha as [_ Ha]. apply orb_false_elim in Ha' as [_ Ha'].
      destruct (IH a' Ha Ha' E) as [-> ->]. now split.
Qed.

(** [IndexReplaced] fixes its result. *)
Lemma IndexReplaced_functional (sep : ascii -> bool) (r t t1 t2 : string) :
  IndexReplaced sep r t t1 -> IndexReplaced sep r t t2 -> t1 = t2.
Proof.
  intros H1. revert t2.
  induction H1 as [t Ht | a b b1 Ha Hb IH]; intros t2 H2.
  - remember t as t0 eqn:E0.
    destruct H2 as [t' _ | a' b' b2 Ha' _]; [reflexivity |].
    exfalso. apply includes_suffix in Ht. apply includes_startsWith in Ht.
    now rewrite startsWith_app in Ht.
  - remember (a +:+ "[index]" +:+ b) as t0 eqn:E0.
    destruct H2 as [t' Ht' | a' b' b2 Ha' Hb'].
    + exfalso. subst t'. apply includes_suffix in Ht'.
      apply includes_startsWith in Ht'. now rewrite startsWith_app in Ht'.
    + symmetry in E0. destruct (first_occurrence_unique _ _ _ _ Ha Ha' E0) as [-> ->].
      now rewrite (IH _ Hb').
Qed.

End NamingEngine.

(** C6, as stated, fails: with numbering off a tab behind [[index]] is
    deleted with it, though a tab is none of underscore, hyphen and space.
    For the pattern "[index]<tab>[name]" and the file a.py the result is "a",
    where deleting [[index]] and at most one of the three named separators
    leaves "<tab>a". *)
Lemma formatName_deletes_tab :
  namedSeparator "009" = false /\
  formatName (naming 1 false) ("[index]" +:+ tab +:+ "[name]") (sourceFile "a.py") 0 = "a" /\
  ~ IndexReplaced namedSeparator ""
      (formatted ("[index]" +:+ tab +:+ "[name]") (sourceFile "a.py"))
      (formatName (naming 1 false) ("[index]" +:+ tab +:+ "[name]") (sourceFile "a.py") 0).
Proof.
  split; [reflexivity |]. split; [reflexivity |].
  change (formatted ("[index]" +:+ tab +:+ "[name]") (sourceFile "a.py"))
    with ("[index]" +:+ String "009" "a").
  change (formatName (naming 1 false) ("[index]" +:+ tab +:+ "[name]") (sourceFile "a.py") 0)
    with "a".
  intros H. apply IndexReplaced_head in H as (b' & E & H).
  apply IndexReplaced_short in H; [| simpl; lia].
  subst b'. discriminate.
Qed.

(** C6 (amended): [formatName] first expands [[name]], [[ext]] and [[full]];
    in the text so obtained, with numbering on, every occurrence of [[index]]
    is replaced by the decimal notation of [startIndex + index] and nothing
    behind it is touched, as long as that sum is a safe integer (at most
    2^53 - 1 in absolute value); with numbering off, every occurrence is
    deleted together with at most one character behind it that is an
    underscore, a hyphen or a white-space character (space, tab, no-break
    space, ...).  The two examples of the specification hold.  Beyond the
    safe integers the sum is rounded: at the start index 2^53 the item at
    position 1 is numbered 9007199254740992, as the item at position 0. *)
Theorem formatName_index (pattern : string) (file : ProgramFile) (index : nat)
  (folderP screenshotP : string) (start : Z) :
  (JS.isSafeInteger (start + Z.of_nat index) ->
   IndexReplaced noSeparator (JS.decimal (start + Z.of_nat index))
     (formatted pattern file)
     (formatName {| folderPattern := folderP; screenshotPattern := screenshotP;
                    startIndex := start; isNumberingEnabled := true |}
        pattern file index))
  /\ IndexReplaced isSeparator ""
       (formatted pattern file)
       (formatName {| folderPattern := folderP; screenshotPattern := screenshotP;
                      startIndex := start; isNumberingEnabled := false |}
          pattern file index)
  /\ formatName (naming 1 true) "[index]_[name]" (sourceFile "a.py") 0 = "1_a"
  /\ formatName (naming 1 false) "[index]_[name]" (sourceFile "a.py") 0 = "a"
  /\ formatName (naming (2 ^ 53) true) "[index]" (sourceFile "a.py") 1 = "9007199254740992".
Proof.
  split; [| split; [| split; [| split]]].
  - intros Hsafe. unfold formatName. cbn [isNumberingEnabled startIndex].
    rewrite (toString_add_safe start index Hsafe).
    apply (replace_from_IndexReplaced re_index eq_refl _ (decimal_plain _)
             (String.length (formatted pattern file))).
    lia.
  - apply (replace_from_IndexReplaced re_index_sep eq_refl "" eq_refl
             (String.length (formatted pattern file))).
    lia.
  - vm_compute. reflexivity.
  - vm_compute. reflexivity.
  - vm_compute. reflexivity.
Qed.

(** C6 (amended), for the third file of a batch numbered from 40. *)
Lemma formatName_index_witness :
  JS.isSafeInteger (40 + Z.of_nat 2) /\
  IndexReplaced noSeparator "42"
    (formatted "lab[index]" (sourceFile "a.py"))
    (formatName (naming 40 true) "lab[index]" (sourceFile "a.py") 2).
Proof.
  assert (Hsafe : JS.isSafeInteger (40 + Z.of_nat 2)) by (unfold JS.isSafeInteger; lia).
  split; [exact Hsafe |].
  exact (proj1 (formatName_index "lab[index]" (sourceFile "a.py") 2 "[index]_[name]"
                  "[name]_output" 40) Hsafe).
Defined.

(** C7 (defect of the code): for a file name without a dot, [[ext]] is
    replaced by the whole file name, not by the empty text. *)
Theorem formatName_ext_without_dot :
  JS.includes "." "noext" = false /\
  ext "noext" = "noext" /\
  formatName (naming 1 true) "[ext]" (sourceFile "noext") 0 = "noext" /\
  formatName (naming 1 true) "[name].[ext]" (sourceFile "Makefile") 0 = "Makefile.Makefile".
Proof. repeat split. Qed.

(** C8, as stated, fails: the pattern "[[name]]" holds no [[index]], yet for
    the file index.html its expansion is "[index]", which the last step
    replaces by the number of the item. *)
Lemma formatName_index_from_file_name :
  JS.includes "[index]" "[[name]]" = false /\
  formatName (naming 1 true) "[[name]]" (sourceFile "index.html") 0 = "1" /\
  formatName (naming 1 true) "[[name]]" (sourceFile "index.html") 1 = "2" /\
  formatName (naming 1 true) "[[name]]" (sourceFile "index.html") 0
  <> formatName (naming 1 true) "[[name]]" (sourceFile "index.html") 1.
Proof. repeat split. discriminate. Qed.

(** C8 (amended): when the pattern with [[name]], [[ext]] and [[full]]
    expanded holds no [[index]], the result of [formatName] is the same for
    all values of the index, of the start index and of the numbering flag. *)
Theorem formatName_without_index (pattern : string) (file : ProgramFile)
  (cfg cfg' : NamingConfig) (index index' : nat) :
  JS.includes "[index]" (formatted pattern file) = false ->
  formatName cfg pattern file index = formatName cfg' pattern file index'.
Proof.
  intros H. now rewrite !formatName_absent.
Qed.

(** C8 (amended), at the default screenshot pattern. *)
Lemma formatName_without_index_witness :
  JS.includes "[index]" (formatted "[name]_output" (sourceFile "a.py")) = false /\
  formatName (naming 1 true) "[name]_output" (sourceFile "a.py") 0
  = formatName (naming 7 false) "[name]_output" (sourceFile "a.py") 3.
Proof.
  split; [reflexivity |].
  apply (formatName_without_index "[name]_output" (sourceFile "a.py")
           (naming 1 true) (naming 7 false) 0 3).
  reflexivity.
Defined.

(** * The retry policy *)

Section RetryPolicy.

Variable env : Env.
Variable rq : Request.

Lemma backoffBefore_S (attempt : nat) : backoffBefore (S attempt) = delayMs attempt.
Proof. unfold backoffBefore, delayMs. do 2 f_equal. lia. Qed.

Lemma attempts_S (remaining attempt : nat) (w : World) :
  attempts env rq (S remaining) attempt w
  = match generateContent env (requests w) rq with
    | Response text =>
        (inl (JS.or_default text (placeholderOutput (req_isHtml rq))), afterCall rq attempt w)
    | Throws err =>
        if negb (isRateLimited err) || Nat.eqb attempt maxAttempts
        then (inr err, afterCall rq attempt w)
        else attempts env rq remaining (S attempt)
               (log (EvSleep (delayMs attempt)) (afterCall rq attempt w))
    end.
Proof.
  cbn [attempts]. unfold bind, callGenerateContent, sleep, ret, afterCall.
  destruct (generateContent env (requests w) rq) as [text | err]; [reflexivity |].
  destruct (negb (isRateLimited err) || Nat.eqb attempt maxAttempts); reflexivity.
Qed.

(** In every run the loop makes between one and [remaining] calls, with
    the suspensions of the schedule between them, and touches nothing
    else. *)
Lemma attempts_shape (remaining : nat) :
  forall (attempt : nat) (w : World),
    (1 <= remaining)%nat -> (attempt + remaining = 5)%nat ->
    exists k, (1 <= k <= remaining)%nat /\
      trace (snd (attempts env rq remaining attempt w)) = trace w ++ callsFrom rq attempt k /\
      requests (snd (attempts env rq remaining attempt w)) = (requests w + k)%nat /\
      sameState w (snd (attempts env rq remaining attempt w)) /\
      clients (snd (attempts env rq remaining attempt w)) = clients w.
Proof.
  induction remaining as [|r IH]; intros attempt w Hr Hsum; [lia |].
  rewrite attempts_S.
  destruct (generateContent env (requests w) rq) as [text | err].
  - exists 1%nat. cbn. repeat split; lia.
  - destruct (negb (isRateLimited err) || Nat.eqb attempt maxAttempts) eqn:Hstop.
    + exists 1%nat. cbn. repeat split; lia.
    + apply orb_false_elim in Hstop as [_ Hlast].
      apply Nat.eqb_neq in Hlast. unfold maxAttempts in Hlast.
      destruct (IH (S attempt) (log (EvSleep (delayMs attempt)) (afterCall rq attempt w)))
        as (k & Hk & Ht & Hq & (Hf & Hp & Hc) & Hn); [lia | lia |].
      exists (S k). rewrite Ht, Hq, Hn. unfold sameState. rewrite Hf, Hp, Hc. cbn.
      repeat split; try lia.
      destruct k as [|n]; [lia |]. cbn [callsFrom retries].
      rewrite backoffBefore_S, <- !app_assoc. reflexivity.
Qed.

(** When the first [k - 1] answers are rate-limited failures and answer
    [k] is a response, an error of another kind, or the answer to the last
    attempt, the loop ends after [k] calls. *)
Lemma attempts_run (k : nat) :
  forall (remaining attempt : nat) (w : World) (res : RemoteResult),
    (1 <= k <= remaining)%nat -> (attempt + remaining = 5)%nat ->
    (forall j, (j < k - 1)%nat ->
       exists err, generateContent env (requests w + j) rq = Throws err
                   /\ isRateLimited err = true) ->
    generateContent env (requests w + (k - 1)) rq = res ->
    match res with
    | Response _ => True
    | Throws err => isRateLimited err = false \/ (attempt + (k - 1) = 4)%nat
    end ->
    fst (attempts env rq remaining attempt w) = verdict rq res /\
    trace (snd (attempts env rq remaining attempt w)) = trace w ++ callsFrom rq attempt k.
Proof.
  induction k as [|k IH]; intros remaining attempt w res Hk Hsum Hfail Hres Hend; [lia |].
  destruct remaining as [|r]; [lia |].
  rewrite attempts_S.
  destruct k as [|k'].
  - cbn in Hres. rewrite Nat.add_0_r in Hres. rewrite Hres.
    destruct res as [text | err]; [split; reflexivity |].
    assert (Hstop : negb (isRateLimited err) || Nat.eqb attempt maxAttempts = true).
    { destruct Hend as [-> | Hlast]; [reflexivity |].
      replace attempt with 4%nat by lia. apply orb_true_r. }
    rewrite Hstop. split; reflexivity.
  - destruct (Hfail 0%nat) as (err & Herr & Hrl); [lia |].
    rewrite Nat.add_0_r in Herr. rewrite Herr, Hrl.
    assert (Hlast : Nat.eqb attempt maxAttempts = false)
      by (apply Nat.eqb_neq; unfold maxAttempts; lia).
    rewrite Hlast. cbn [negb orb].
    destruct (IH r (S attempt) (log (EvSleep (delayMs attempt)) (afterCall rq attempt w)) res)
      as [Hv Ht].
    + lia.
    + lia.
    + intros j Hj. cbn [requests log afterCall].
      destruct (Hfail (S j)) as (e & He & Hr); [lia |].
      exists e. split; [| exact Hr]. rewrite <- He. f_equal. lia.
    + cbn [requests log afterCall]. rewrite <- Hres. f_equal. lia.
    + destruct res; [exact I |]. destruct Hend as [H | H]; [now left | right; lia].
    + rewrite Hv, Ht. cbn. split; [reflexivity |].
      rewrite backoffBefore_S, <- !app_assoc. reflexivity.
Qed.

(** An error that is not rate-limited ends the loop at once. *)
Lemma attempts_other_failure (w : World) (err : ApiError) :
  generateContent env (requests w) rq = Throws err ->
  isRateLimited err = false ->
  attempts env rq maxAttempts 1 w = (inr err, afterCall rq 1 w).
Proof.
  intros Herr Hrl. unfold maxAttempts. rewrite attempts_S, Herr, Hrl. reflexivity.
Qed.

End RetryPolicy.

(** * Output generation *)

Section GenerateOutput.

Variable env : Env.

Lemma generateOutput_unfold (file : ProgramFile) (w : World) :
  generateOutput env file w
  = match newClient env (clients w) with
    | Some error => (diagnosticOf error, afterNewClient w)
    | None =>
        (match fst (attempts env (requestOf file) maxAttempts 1 (afterNewClient w)) with
         | inl text => text
         | inr error => diagnosticOf error
         end,
         snd (attempts env (requestOf file) maxAttempts 1 (afterNewClient w)))
    end.
Proof.
  unfold generateOutput, bind, callNewClient.
  destruct (newClient env (clients w)) as [error|]; [reflexivity |].
  destruct (attempts env (requestOf file) maxAttempts 1 (afterNewClient w))
    as [[text | error] w']; reflexivity.
Qed.

(** Every run of [generateOutput] makes at most four calls, and at least
    one when the client is built, with the suspensions of the schedule
    between them, and returns. *)
Lemma generateOutput_shape (file : ProgramFile) (w : World) :
  exists k, (k <= 4)%nat /\
    (newClient env (clients w) = None -> (1 <= k)%nat) /\
    trace (snd (generateOutput env file w)) = trace w ++ callsFrom (requestOf file) 1 k /\
    requests (snd (generateOutput env file w)) = (requests w + k)%nat /\
    sameState w (snd (generateOutput env file w)) /\
    clients (snd (generateOutput env file w)) = S (clients w).
Proof.
  rewrite generateOutput_unfold.
  destruct (newClient env (clients w)) as [error|].
  - exists 0%nat. cbn. rewrite app_nil_r. repeat split; try lia. discriminate.
  - cbn [snd].
    destruct (attempts_shape env (requestOf file) maxAttempts 1 (afterNewClient w))
      as (k & Hk & Ht & Hq & Hs & Hn); [unfold maxAttempts; lia | reflexivity |].
    exists k. unfold maxAttempts in Hk.
    split; [lia |]. split; [lia |]. split; [exact Ht |]. split; [exact Hq |].
    split; [exact Hs | exact Hn].
Qed.

(** Without a client no call is made: the outer handler turns what the
    construction threw into a diagnostic. *)
Lemma generateOutput_no_client (file : ProgramFile) (w : World) (error : ApiError) :
  newClient env (clients w) = Some error ->
  generateOutput env file w = (diagnosticOf error, afterNewClient w).
Proof. intros H. now rewrite generateOutput_unfold, H. Qed.

Lemma generateOutput_run (file : ProgramFile) (w : World) (k : nat) (res : RemoteResult) :
  newClient env (clients w) = None ->
  (1 <= k <= 4)%nat ->
  (forall j, (j < k - 1)%nat ->
     exists err, generateContent env (requests w + j) (requestOf file) = Throws err
                 /\ isRateLimited err = true) ->
  generateContent env (requests w + (k - 1)) (requestOf file) = res ->
  match res with
  | Response _ => True
  | Throws err => isRateLimited err = false \/ k = 4%nat
  end ->
  fst (generateOutput env file w)
    = match res with
      | Response text =>
          JS.or_default text (placeholderOutput (req_isHtml (requestOf file)))
      | Throws err => diagnosticOf err
      end /\
  trace (snd (generateOutput env file w)) = trace w ++ callsFrom (requestOf file) 1 k.
Proof.
  intros Hclient Hk Hfail Hres Hend.
  destruct (attempts_run env (requestOf file) k maxAttempts 1 (afterNewClient w) res)
    as [Hv Ht].
  - exact Hk.
  - reflexivity.
  - exact Hfail.
  - exact Hres.
  - destruct res; [exact I |]. destruct Hend as [H | ->]; [now left | now right].
  - rewrite generateOutput_unfold, Hclient. cbn [fst snd]. rewrite Hv, Ht.
    destruct res; split; reflexivity.
Qed.

End GenerateOutput.

(** C1, as stated, fails: a response whose text is empty is a success, yet
    what [generateOutput] returns is the placeholder, not the response
    text. *)
Lemma generateOutput_empty_response :
  generateContent (service 0 quotaError "" []) 0 (requestOf (item "f1" "a.py" PENDING))
  = Response (Some "") /\
  fst (generateOutput (service 0 quotaError "" []) (item "f1" "a.py" PENDING)
         (session [item "f1" "a.py" PENDING]))
  = "No output generated." /\
  fst (generateOutput (service 0 quotaError "" []) (item "f1" "a.py" PENDING)
         (session [item "f1" "a.py" PENDING]))
  <> "".
Proof. repeat split. discriminate. Qed.

(** C1 (amended): [generateOutput] makes at most 4 attempts; when the
    client is built, the first [k - 1] attempts fail with a rate-limited
    error and attempt [k] succeeds, exactly [k] calls are made, the
    suspension before attempt [j] (from 2 on) is 1500 * 2^(j-2) ms (1500,
    3000, 6000), and the value returned is the response text when that text
    is not empty, else the fixed placeholder; no attempt follows the
    successful one.  In every run the calls and suspensions follow this
    schedule, and at least one call is made when the client is built. *)
Theorem generateOutput_retry_policy (env : Env) (file : ProgramFile) (w : World)
  (k : nat) (text : option string) :
  newClient env (clients w) = None ->
  (1 <= k <= 4)%nat ->
  (forall j, (j < k - 1)%nat ->
     exists err, generateContent env (requests w + j) (requestOf file) = Throws err
                 /\ isRateLimited err = true) ->
  generateContent env (requests w + (k - 1)) (requestOf file) = Response text ->
  fst (generateOutput env file w)
    = JS.or_default text (placeholderOutput (req_isHtml (requestOf file))) /\
  trace (snd (generateOutput env file w)) = trace w ++ callsFrom (requestOf file) 1 k /\
  (forall rq,
     callsFrom rq 1 4
     = [EvGenerateContent rq 1; EvSleep 1500; EvGenerateContent rq 2; EvSleep 3000;
        EvGenerateContent rq 3; EvSleep 6000; EvGenerateContent rq 4]) /\
  (forall env' file' w',
     exists k', (k' <= 4)%nat /\
       (newClient env' (clients w') = None -> (1 <= k')%nat) /\
       trace (snd (generateOutput env' file' w'))
       = trace w' ++ callsFrom (requestOf file') 1 k' /\
       requests (snd (generateOutput env' file' w')) = (requests w' + k')%nat).
Proof.
  intros Hclient Hk Hfail Hok.
  destruct (generateOutput_run env file w k (Response text) Hclient Hk Hfail Hok I)
    as [Hv Ht].
  repeat split; [exact Hv | exact Ht |].
  intros env' file' w'.
  destruct (generateOutput_shape env' file' w') as (k' & Hk' & H1 & Ht' & Hq' & _).
  now exists k'.
Qed.

(** C1 (amended), for a remote service that fails with status 429 three
    times and then answers "hello". *)
Lemma generateOutput_retry_policy_witness :
  fst (generateOutput (service 3 quotaError "hello" []) (item "f1" "a.py" PENDING)
         (session [item "f1" "a.py" PENDING]))
  = "hello" /\
  trace (snd (generateOutput (service 3 quotaError "hello" []) (item "f1" "a.py" PENDING)
                (session [item "f1" "a.py" PENDING])))
  = callsFrom (requestOf (item "f1" "a.py" PENDING)) 1 4.
Proof.
  destruct (generateOutput_retry_policy (service 3 quotaError "hello" [])
              (item "f1" "a.py" PENDING) (session [item "f1" "a.py" PENDING])
              4 (Some "hello")) as (Hv & Ht & _).
  - reflexivity.
  - lia.
  - intros j Hj. exists quotaError. split; [| reflexivity].
    destruct j as [|[|[|j]]]; try reflexivity. simpl in Hj. lia.
  - reflexivity.
  - split; [exact Hv | exact Ht].
Defined.

(** C2 (defect of the code): an error that carries the mark of an exceeded
    rate only as the text "429" in its message is rate-limited for the retry
    loop, which goes through all 4 attempts; once they are exhausted the
    outer handler, which does not look for that text, answers with the
    generic diagnostic instead of the rate-limit diagnostic. *)
Theorem generateOutput_textual_429 :
  getErrorStatus plain429 = None /\
  isRateLimited plain429 = true /\
  trace (snd (generateOutput (service 4 plain429 "hello" []) (item "f1" "a.py" PENDING)
                (session [item "f1" "a.py" PENDING])))
  = callsFrom (requestOf (item "f1" "a.py" PENDING)) 1 4 /\
  fst (generateOutput (service 4 plain429 "hello" []) (item "f1" "a.py" PENDING)
         (session [item "f1" "a.py" PENDING]))
  = genericDiagnostic /\
  genericDiagnostic <> rateLimitDiagnostic.
Proof. repeat split. discriminate. Qed.

(** * The batch orchestrator *)

Section Orchestrator.

Variable env : Env.

Lemma id_applyPatch (p : Patch) (f : ProgramFile) : id (applyPatch p f) = id f.
Proof. now destruct p. Qed.

Lemma id_processed (out : string) (n : nat) (f : ProgramFile) :
  id (processed env out n f) = id f.
Proof.
  unfold processed. destruct (terminalRefs env (id f)); [| reflexivity].
  destruct (toPng env n (id f)); reflexivity.
Qed.

Lemma status_processed (out : string) (n : nat) (f : ProgramFile) :
  status (processed env out n f)
  = if terminalRefs env (id f) then
      match toPng env n (id f) with
      | Some _ => COMPLETED
      | None => ERROR
      end
    else COMPLETED.
Proof.
  unfold processed. destruct (terminalRefs env (id f)); [| reflexivity].
  destruct (toPng env n (id f)); reflexivity.
Qed.

Lemma output_processed (out : string) (n : nat) (f : ProgramFile) :
  output (processed env out n f) = Some out.
Proof.
  unfold processed. destruct (terminalRefs env (id f)); [| reflexivity].
  destruct (toPng env n (id f)); reflexivity.
Qed.

Lemma imageBlob_processed (out : string) (n : nat) (f : ProgramFile) :
  imageBlob (processed env out n f)
  = if terminalRefs env (id f) then
      match toPng env n (id f) with
      | Some blob => Some blob
      | None => imageBlob f
      end
    else imageBlob f.
Proof.
  unfold processed. destruct (terminalRefs env (id f)); [| reflexivity].
  destruct (toPng env n (id f)); reflexivity.
Qed.

(** The three or two state updates of [processSingleFile], taken at once. *)
Lemma patches_processed (fileId out : string) (n : nat) (f : ProgramFile) :
  processedIfId env fileId out n f
  = (if terminalRefs env fileId then
       patchIfId fileId
         match toPng env n fileId with
         | Some blob => PatchImage blob
         | None => PatchStatus ERROR
         end
     else fun g => g)
      (patchIfId fileId (PatchOutput out COMPLETED)
         (patchIfId fileId (PatchStatus RUNNING) f)).
Proof.
  unfold processedIfId, patchIfId, processed.
  destruct (String.eqb (id f) fileId) eqn:E.
  - apply String.eqb_eq in E. subst fileId.
    cbn [applyPatch id]. rewrite !String.eqb_refl.
    destruct (terminalRefs env (id f)); [| reflexivity].
    destruct (toPng env n (id f)); cbn [applyPatch id]; now rewrite String.eqb_refl.
  - destruct (terminalRefs env fileId); now rewrite ?E.
Qed.

(** The world [processSingleFile] leaves behind. *)
Lemma processSingleFile_spec (files0 : list ProgramFile) (fileId : string)
  (file : ProgramFile) (w : World) :
  List.find (fun f => String.eqb (id f) fileId) files0 = Some file ->
  exists k, (k <= 4)%nat /\
    (newClient env (clients w) = None -> (1 <= k)%nat) /\
    trace (snd (generateOutput env file (snd (setFiles fileId (PatchStatus RUNNING) w))))
    = trace (snd (setFiles fileId (PatchStatus RUNNING) w))
      ++ callsFrom (requestOf file) 1 k /\
    snd (processSingleFile env files0 fileId w)
    = {| files :=
           map (processedIfId env fileId
                  (fst (generateOutput env file
                          (snd (setFiles fileId (PatchStatus RUNNING) w))))
                  (captures w))
             (files w);
         isProcessing := isProcessing w;
         clients := S (clients w);
         requests := (requests w + k)%nat;
         captures := if terminalRefs env fileId then S (captures w) else captures w;
         trace :=
           trace w ++
           itemEvents env fileId (requestOf file) k
             (fst (generateOutput env file
                     (snd (setFiles fileId (PatchStatus RUNNING) w))))
             (captures w) |}.
Proof.
  intros Hfind. unfold processSingleFile. unfold bind at 1.
  remember (setFiles fileId (PatchStatus RUNNING) w) as sr eqn:Esr.
  destruct sr as [[] wr]. rewrite Hfind. unfold bind at 1.
  destruct (generateOutput_shape env file wr)
    as (k & Hk & H1 & Ht & Hq & (Hf & Hp & Hc) & Hn).
  assert (Ewr : wr = snd (setFiles fileId (PatchStatus RUNNING) w)) by now rewrite <- Esr.
  exists k. split; [exact Hk |].
  split; [rewrite Ewr in H1; exact H1 |]. split; [exact Ht |]. cbn [snd].
  destruct (generateOutput env file wr) as [out wg]. cbn [fst snd] in *.
  destruct wg as [fg pg ng rg cg tg].
  cbn [files isProcessing clients requests captures trace] in *.
  subst fg pg ng rg cg tg.
  rewrite Ewr. cbn [setFiles snd log files isProcessing clients requests captures trace].
  unfold bind, sleep, callToPng, setFiles, ret, log, itemEvents, captureEvents.
  cbn [fst snd files isProcessing clients requests captures trace].
  rewrite (map_ext _ _ (patches_processed fileId out (captures w))).
  destruct (terminalRefs env fileId); cbn beta iota;
    cbn [fst snd files isProcessing clients requests captures trace].
  - destruct (toPng env (captures w) fileId);
      cbn [snd files isProcessing clients requests captures trace];
      f_equal; rewrite ?map_map; try reflexivity;
      rewrite <- !app_assoc; reflexivity.
  - f_equal; rewrite ?map_map; try reflexivity.
    rewrite <- !app_assoc. reflexivity.
Qed.

(** *** The loop over the files to process *)

Lemma processEach_cons (files0 : list ProgramFile) (g : ProgramFile)
  (rest : list ProgramFile) (w : World) :
  snd (processEach env files0 (g :: rest) w)
  = snd (processEach env files0 rest
           (log (EvSleep 700) (snd (processSingleFile env files0 (id g) w)))).
Proof.
  cbn [processEach]. unfold bind, sleep.
  destruct (processSingleFile env files0 (id g) w) as [[] w1]. reflexivity.
Qed.

Lemma startedIds_app (l1 l2 : list Event) :
  startedIds (l1 ++ l2) = startedIds l1 ++ startedIds l2.
Proof.
  induction l1 as [|e l1 IH]; [reflexivity |].
  destruct e as [fileId [[] | |] | | | |]; simpl; now rewrite IH.
Qed.

Lemma captureCalls_app (l1 l2 : list Event) :
  captureCalls (l1 ++ l2) = captureCalls l1 ++ captureCalls l2.
Proof.
  induction l1 as [|e l1 IH]; [reflexivity |].
  destruct e; simpl; now rewrite IH.
Qed.

Lemma remoteCalls_app (l1 l2 : list Event) :
  remoteCalls (l1 ++ l2) = remoteCalls l1 ++ remoteCalls l2.
Proof.
  induction l1 as [|e l1 IH]; [reflexivity |].
  destruct e; simpl; now rewrite IH.
Qed.

(** The log of one item: one start, and a capture call exactly when an
    element is registered. *)
Lemma itemEvents_summary (fileId : string) (rq : Request) (k : nat) (out : string)
  (n : nat) :
  (k <= 4)%nat ->
  startedIds (itemEvents env fileId rq k out n) = [fileId] /\
  captureCalls (itemEvents env fileId rq k out n)
  = (if terminalRefs env fileId then [fileId] else []).
Proof.
  intros Hk. unfold itemEvents, captureEvents.
  destruct k as [|[|[|[|[|k]]]]]; try lia;
    destruct (terminalRefs env fileId); try destruct (toPng env n fileId);
    repeat split.
Qed.

(** The log of the loop. *)
Lemma processEach_trace (files0 : list ProgramFile) (todo : list ProgramFile) :
  forall w : World,
    (forall g, In g todo ->
               List.find (fun f => String.eqb (id f) (id g)) files0 = Some g) ->
    exists evs,
      trace (snd (processEach env files0 todo w)) = trace w ++ evs /\
      startedIds evs = map id todo /\
      captureCalls evs = List.filter (terminalRefs env) (map id todo).
Proof.
  induction todo as [|g rest IH]; intros w Hfind.
  - exists []. cbn. rewrite app_nil_r. repeat split.
  - rewrite processEach_cons.
    destruct (processSingleFile_spec files0 (id g) g w) as (k & Hk & _ & _ & Hw).
    { apply Hfind. now left. }
    rewrite Hw. clear Hw.
    match goal with |- context [processEach env files0 rest ?w2] =>
      destruct (IH w2) as (evs & Ht & Hs & Hc)
    end.
    { intros g' Hg'. apply Hfind. now right. }
    rewrite Ht. cbn [trace log].
    match goal with |- context [itemEvents env (id g) ?rq k ?out ?n] =>
      destruct (itemEvents_summary (id g) rq k out n Hk) as (Is & Ic);
      exists (itemEvents env (id g) rq k out n ++ [EvSleep 700] ++ evs)
    end.
    rewrite !startedIds_app, !captureCalls_app, Is, Ic, Hs, Hc.
    rewrite <- !app_assoc. cbn [map List.filter].
    repeat split. now destruct (terminalRefs env (id g)).
Qed.

Lemma outcome_nil (f : ProgramFile) : outcome env [] f f.
Proof. split; [intros [] | reflexivity]. Qed.

(** The items after the loop. *)
Lemma processEach_files (files0 : list ProgramFile) (todo : list ProgramFile) :
  forall w : World,
    List.NoDup (map id todo) ->
    (forall g, In g todo ->
               List.find (fun f => String.eqb (id f) (id g)) files0 = Some g) ->
    isProcessing (snd (processEach env files0 todo w)) = isProcessing w /\
    Forall2 (outcome env (map id todo)) (files w) (files (snd (processEach env files0 todo w))).
Proof.
  induction todo as [|g rest IH]; intros w Hnd Hfind.
  - cbn. split; [reflexivity |]. apply Forall2_same_length_lookup_2; [reflexivity |].
    intros i f f' Hf Hf'. replace f' with f by congruence. apply outcome_nil.
  - rewrite processEach_cons.
    destruct (processSingleFile_spec files0 (id g) g w) as (k & Hk & _ & _ & Hw).
    { apply Hfind. now left. }
    rewrite Hw. clear Hw.
    cbn [map] in Hnd. apply List.NoDup_cons_iff in Hnd as [Hg Hnd].
    match goal with |- context [processEach env files0 rest ?w2] =>
      destruct (IH w2 Hnd) as (Hp & Hfs)
    end.
    { intros g' Hg'. apply Hfind. now right. }
    split; [exact Hp |].
    cbn [files log] in Hfs.
    match type of Hfs with Forall2 _ (map ?h ?l) _ => change (map h l) with (h <$> l) in Hfs at 1 end.
    rewrite Forall2_fmap_l in Hfs.
    eapply Forall2_impl; [exact Hfs |]. intros f f' [Hin Hout]. cbn [compose] in *.
    unfold processedIfId in *.
    destruct (String.eqb (id f) (id g)) eqn:E.
    + apply String.eqb_eq in E. split; [| intros Hn; exfalso; apply Hn; now left].
      intros _. rewrite id_processed, E in Hout. rewrite (Hout Hg). eauto.
    + apply String.eqb_neq in E. split.
      * intros [Heq | Hrest]; [congruence | now apply Hin].
      * intros Hn. apply Hout. intros Hrest. apply Hn. now right.
Qed.

(** *** A batch run *)

Lemma find_by_id (l : list ProgramFile) (g : ProgramFile) :
  List.NoDup (map id l) -> In g l ->
  List.find (fun f => String.eqb (id f) (id g)) l = Some g.
Proof.
  induction l as [|a l IH]; intros Hnd Hin; [destruct Hin |].
  cbn [map] in Hnd. apply List.NoDup_cons_iff in Hnd as [Ha Hnd].
  cbn [List.find]. destruct Hin as [-> | Hin].
  - now rewrite String.eqb_refl.
  - destruct (String.eqb (id a) (id g)) eqn:E; [| now apply IH].
    apply String.eqb_eq in E. exfalso. apply Ha. rewrite E. now apply in_map.
Qed.

Lemma same_id (l : list ProgramFile) (f g : ProgramFile) :
  List.NoDup (map id l) -> In f l -> In g l -> id f = id g -> f = g.
Proof.
  intros Hnd Hf Hg E.
  pose proof (find_by_id l f Hnd Hf) as H1.
  pose proof (find_by_id l g Hnd Hg) as H2.
  rewrite E in H1. congruence.
Qed.

Lemma NoDup_filter_ids (p : ProgramFile -> bool) (l : list ProgramFile) :
  List.NoDup (map id l) -> List.NoDup (map id (List.filter p l)).
Proof.
  induction l as [|a l IH]; intros Hnd; [constructor |].
  cbn [map] in Hnd. apply List.NoDup_cons_iff in Hnd as [Ha Hnd].
  cbn [List.filter]. destruct (p a); [| now apply IH].
  cbn [map]. constructor; [| now apply IH].
  intros Hin. apply Ha. apply in_map_iff in Hin as (x & Hx & Hin).
  apply List.filter_In in Hin as [Hin _]. rewrite <- Hx. now apply in_map.
Qed.

(** Among items with distinct ids, the ids of the files to process are
    those of the items that are not COMPLETED. *)
Lemma pending_id (l : list ProgramFile) (f : ProgramFile) :
  List.NoDup (map id l) -> In f l ->
  In (id f) (map id (List.filter notCompleted l)) <-> notCompleted f = true.
Proof.
  intros Hnd Hf. split.
  - intros Hin. apply in_map_iff in Hin as (g & Hg & Hin).
    apply List.filter_In in Hin as [Hin Hp].
    now rewrite <- (same_id l g f Hnd Hin Hf Hg).
  - intros Hp. apply in_map. apply List.filter_In. now split.
Qed.

Lemma runBatch_unfold (w : World) :
  isProcessing w = false ->
  runBatch env w
  = snd (setIsProcessing false
           (snd (processEach env (files w) (List.filter notCompleted (files w))
                   (snd (setIsProcessing true w))))).
Proof.
  intros Hp. unfold runBatch, processAll. rewrite Hp. unfold bind.
  destruct (setIsProcessing true w) as [[] w1]. cbn [snd].
  destruct (processEach env (files w) (List.filter notCompleted (files w)) w1) as [[] w2].
  reflexivity.
Qed.

(** What a batch run makes of each item. *)
Lemma runBatch_item (w : World) (i : nat) (f : ProgramFile) :
  isProcessing w = false ->
  List.NoDup (map id (files w)) ->
  files w !! i = Some f ->
  exists f', files (runBatch env w) !! i = Some f' /\
    (notCompleted f = true -> exists out n, f' = processed env out n f) /\
    (notCompleted f = false -> f' = f).
Proof.
  intros Hp Hnd Hf. rewrite (runBatch_unfold w Hp). cbn [setIsProcessing snd log files].
  match goal with |- context [processEach env (files w) ?todo ?w1] =>
    destruct (processEach_files (files w) todo w1) as [_ Hfs]
  end.
  - now apply NoDup_filter_ids.
  - intros g Hg. apply find_by_id; [exact Hnd |].
    now apply List.filter_In in Hg as [Hg _].
  - cbn [files] in Hfs.
    destruct (Forall2_lookup_l _ _ _ _ _ Hfs Hf) as (f' & Hf' & Hin & Hout).
    exists f'. split; [exact Hf' |].
    assert (Hmem : In f (files w)).
    { apply list_elem_of_In. apply list_elem_of_lookup. now exists i. }
    split.
    + intros Hpend. apply Hin. now apply pending_id.
    + intros Hdone. apply Hout. intros Hid.
      apply pending_id in Hid; [congruence | exact Hnd | exact Hmem].
Qed.

Lemma filter_notCompleted_nil (l : list ProgramFile) :
  List.Forall (fun f => status f = COMPLETED) l -> List.filter notCompleted l = [].
Proof.
  induction 1 as [|f l Hf _ IH]; [reflexivity |].
  cbn [List.filter]. unfold notCompleted at 1. now rewrite Hf.
Qed.

Lemma lookup_processSingleFile (files0 : list ProgramFile) (fileId : string)
  (file : ProgramFile) (w : World) (i : nat) (f : ProgramFile) :
  List.find (fun g => String.eqb (id g) fileId) files0 = Some file ->
  files w !! i = Some f ->
  exists k, (k <= 4)%nat /\
    trace (snd (generateOutput env file (snd (setFiles fileId (PatchStatus RUNNING) w))))
    = trace (snd (setFiles fileId (PatchStatus RUNNING) w))
      ++ callsFrom (requestOf file) 1 k /\
    files (snd (processSingleFile env files0 fileId w)) !! i
    = Some (processedIfId env fileId
              (fst (generateOutput env file (snd (setFiles fileId (PatchStatus RUNNING) w))))
              (captures w) f) /\
    trace (snd (processSingleFile env files0 fileId w))
    = trace w ++
      itemEvents env fileId (requestOf file) k
        (fst (generateOutput env file (snd (setFiles fileId (PatchStatus RUNNING) w))))
        (captures w) /\
    captures (snd (processSingleFile env files0 fileId w))
    = (if terminalRefs env fileId then S (captures w) else captures w).
Proof.
  intros Hfind Hf.
  destruct (processSingleFile_spec files0 fileId file w Hfind)
    as (k & Hk & _ & Hcalls & ->).
  exists k. split; [exact Hk |]. split; [exact Hcalls |]. cbn [files trace captures].
  repeat split.
  match goal with |- map ?h ?l !! _ = _ => change (map h l) with (h <$> l) end.
  now rewrite list_lookup_fmap, Hf.
Qed.

(** *** The course of a batch run, item by item *)

Lemma sameItem_processed (out : string) (n : nat) (f : ProgramFile) :
  sameItem f (processed env out n f).
Proof.
  unfold processed. destruct (terminalRefs env (id f)); [| repeat split].
  destruct (toPng env n (id f)); repeat split.
Qed.

Lemma resultOf_None (fileId : string) (todo : list ProgramFile) (rs : list Result) :
  ~ In fileId (map id todo) -> resultOf fileId todo rs = None.
Proof.
  revert rs; induction todo as [|g todo IH]; intros rs H; [reflexivity |].
  destruct rs as [|r rs]; [reflexivity |]. cbn [resultOf].
  destruct (String.eqb (id g) fileId) eqn:E.
  - apply String.eqb_eq in E. exfalso. apply H. now left.
  - apply IH. intros Hin. apply H. now right.
Qed.

Lemma resultOf_In (f : ProgramFile) (todo : list ProgramFile) (rs : list Result) :
  In f todo -> length rs = length todo ->
  List.Forall (fun r : Result => (fst (fst r) <= 4)%nat) rs ->
  exists k out n, resultOf (id f) todo rs = Some (k, out, n) /\ (k <= 4)%nat.
Proof.
  revert rs; induction todo as [|g todo IH]; intros rs Hin Hlen Hall; [destruct Hin |].
  destruct rs as [|[[k out] n] rs]; [discriminate |].
  inversion Hall as [|? ? Hk Hrest]; subst. cbn [resultOf].
  destruct (String.eqb (id g) (id f)) eqn:E.
  - exists k, out, n. split; [reflexivity | exact Hk].
  - destruct Hin as [-> | Hin]; [now rewrite String.eqb_refl in E |].
    apply IH; [exact Hin | now injection Hlen | exact Hrest].
Qed.

(** The loop over the files to process, with the result of every file. *)
Lemma processEach_runs (files0 : list ProgramFile) (todo : list ProgramFile) :
  forall w : World,
    List.NoDup (map id todo) ->
    (forall g, In g todo ->
               List.find (fun f => String.eqb (id f) (id g)) files0 = Some g) ->
    exists rs : list Result,
      length rs = length todo /\
      List.Forall (fun r : Result => (fst (fst r) <= 4)%nat) rs /\
      trace (snd (processEach env files0 todo w))
      = trace w ++ concat (zip_with (logOf env) todo rs) /\
      files (snd (processEach env files0 todo w)) = map (finish env todo rs) (files w).
Proof.
  induction todo as [|g rest IH]; intros w Hnd Hfind.
  - exists []. cbn. rewrite app_nil_r. repeat split; [constructor |].
    symmetry. rewrite <- (map_id (files w)) at 2. now apply map_ext.
  - rewrite processEach_cons.
    destruct (processSingleFile_spec files0 (id g) g w) as (k & Hk & _ & _ & Hw).
    { apply Hfind. now left. }
    rewrite Hw. clear Hw.
    cbn [map] in Hnd. apply List.NoDup_cons_iff in Hnd as [Hg Hnd].
    match goal with |- context [processEach env files0 rest ?w2] =>
      destruct (IH w2 Hnd) as (rs & Hlen & Hall & Ht & Hfs)
    end.
    { intros g' Hg'. apply Hfind. now right. }
    match goal with |- context [itemEvents env (id g) _ k ?out ?n] =>
      exists ((k, out, n) :: rs)
    end.
    split; [cbn [length]; now rewrite Hlen |].
    split; [constructor; [exact Hk | exact Hall] |].
    rewrite Ht, Hfs. cbn [trace files log zip_with concat logOf].
    split; [now rewrite <- !app_assoc |].
    rewrite map_map. apply map_ext. intros f.
    unfold finish, processedIfId. cbn [resultOf].
    rewrite (String.eqb_sym (id g) (id f)).
    destruct (String.eqb (id f) (id g)) eqn:E; [| reflexivity].
    apply String.eqb_eq in E. rewrite id_processed, E.
    now rewrite (resultOf_None (id g) rest rs Hg).
Qed.

Lemma Forall3_map_same {A B C : Type} (P : A -> B -> C -> Prop) (g1 : A -> B)
  (g2 : A -> C) (l : list A) :
  (forall x, In x l -> P x (g1 x) (g2 x)) -> Forall3 P l (map g1 l) (map g2 l).
Proof.
  induction l as [|a l IH]; intros H; cbn [map]; constructor.
  - apply H. now left.
  - apply IH. intros x Hx. apply H. now right.
Qed.

(** The logs of the items of the list, the COMPLETED ones having none, make
    up the log of the files to process. *)
Lemma concat_runOf (l : list ProgramFile) :
  forall rs : list Result,
    List.NoDup (map id l) ->
    length rs = length (List.filter notCompleted l) ->
    concat (map (runOf env (List.filter notCompleted l) rs) l)
    = concat (zip_with (logOf env) (List.filter notCompleted l) rs).
Proof.
  induction l as [|a l IH]; intros rs Hnd Hlen; [reflexivity |].
  cbn [map] in Hnd. apply List.NoDup_cons_iff in Hnd as [Ha Hnd].
  cbn [List.filter map concat] in *. destruct (notCompleted a) eqn:Ea.
  - destruct rs as [|r rs]; [discriminate |]. cbn [length] in Hlen.
    cbn [zip_with concat]. f_equal.
    + unfold runOf. rewrite Ea. cbn [resultOf]. now rewrite String.eqb_refl.
    + rewrite <- (IH rs Hnd) by lia. f_equal. apply map_ext_in. intros f Hf.
      unfold runOf. cbn [resultOf].
      destruct (String.eqb (id a) (id f)) eqn:E; [| reflexivity].
      apply String.eqb_eq in E. exfalso. apply Ha. rewrite E. now apply in_map.
  - rewrite <- (IH rs Hnd Hlen). unfold runOf at 1. now rewrite Ea.
Qed.

(** A batch run, item by item. *)
Lemma runBatch_runs (w : World) :
  isProcessing w = false ->
  List.NoDup (map id (files w)) ->
  exists runs : list (list Event),
    trace (runBatch env w)
    = trace w ++ [EvSetIsProcessing true] ++ concat runs ++ [EvSetIsProcessing false] /\
    Forall3 (batchRun env) (files w) runs (files (runBatch env w)).
Proof.
  intros Hp Hnd. rewrite (runBatch_unfold w Hp).
  cbn [setIsProcessing snd log trace files].
  match goal with |- context [processEach env (files w) ?todo ?w1] =>
    destruct (processEach_runs (files w) todo w1) as (rs & Hlen & Hall & Ht & Hfs)
  end.
  - now apply NoDup_filter_ids.
  - intros g Hg. apply find_by_id; [exact Hnd |].
    now apply List.filter_In in Hg as [Hg _].
  - exists (map (runOf env (List.filter notCompleted (files w)) rs) (files w)).
    rewrite Ht, Hfs. cbn [trace files log]. split.
    + rewrite (concat_runOf (files w) rs Hnd Hlen). now rewrite <- !app_assoc.
    + apply Forall3_map_same. intros f Hf. unfold batchRun, runOf, finish.
      destruct (notCompleted f) eqn:Ef.
      * destruct (resultOf_In f (List.filter notCompleted (files w)) rs)
          as (k & out & n & -> & Hk);
          [apply List.filter_In; now split | exact Hlen | exact Hall |].
        exists (requestOf f), k, out, n.
        split; [exact Hk |]. split; [reflexivity |]. split; [reflexivity |].
        split; [reflexivity |]. split; [reflexivity |].
        split; [apply sameItem_processed |].
        split; [apply output_processed |].
        split; [apply status_processed | apply imageBlob_processed].
      * rewrite resultOf_None; [repeat split |].
        intros Hin. apply pending_id in Hin; [congruence | exact Hnd | exact Hf].
Qed.

(** The log of one item lies within the log of all. *)
Lemma concat_lookup {A : Type} (ls : list (list A)) (i : nat) (l : list A) :
  ls !! i = Some l -> exists pre post, concat ls = pre ++ l ++ post.
Proof.
  intros H. rewrite <- (take_drop_middle ls i l H).
  exists (concat (take i ls)), (concat (drop (S i) ls)).
  now rewrite concat_app.
Qed.

End Orchestrator.


Lemma getErrorStatus_field (err : ApiError) (n : Z) :
  getErrorStatus err = Some n ->
  err_status err = JsNumber n \/ err_code err = JsNumber n \/
  err_response_status err = JsNumber n \/ err_error_code err = JsNumber n \/
  err_error_status err = JsNumber n.
Proof.
  unfold getErrorStatus, nullish.
  destruct (err_status err); try discriminate;
    [| | intros [= ->]; tauto];
    (destruct (err_code err); try discriminate;
     [| | intros [= ->]; tauto];
     (destruct (err_response_status err); try discriminate;
      [| | intros [= ->]; tauto];
      (destruct (err_error_code err); try discriminate;
       [| | intros [= ->]; tauto];
       (destruct (err_error_status err); try discriminate; intros [= ->]; tauto)))).
Qed.

(** C3, as stated, fails: an error that is not rate-limited is not always
    propagated after exactly 1 attempt with 0 delays.  When the quota is
    exceeded at the first call and the network fails at the second, the
    network failure is propagated after 2 attempts and one delay of 1500 ms. *)
Lemma generateOutput_late_failure :
  isRateLimited networkError = false /\
  generateContent flaky 1 (requestOf (item "f1" "a.py" PENDING)) = Throws networkError /\
  trace (snd (generateOutput flaky (item "f1" "a.py" PENDING)
                (session [item "f1" "a.py" PENDING])))
  = [EvGenerateContent (requestOf (item "f1" "a.py" PENDING)) 1; EvSleep 1500;
     EvGenerateContent (requestOf (item "f1" "a.py" PENDING)) 2] /\
  fst (generateOutput flaky (item "f1" "a.py" PENDING) (session [item "f1" "a.py" PENDING]))
  = genericDiagnostic.
Proof. repeat split. Qed.

(** C3 (amended): an error of the remote call that carries no numeric 429
    in any of the five status fields and neither "429" nor
    "RESOURCE_EXHAUSTED" in its text is not rate-limited, and the attempt it
    answers is the last one: when it answers attempt [k], after [k - 1]
    rate-limited failures, [generateOutput] has made these [k] calls with the
    [k - 1] suspensions between them and makes no call and no suspension
    after it (one call and no suspension when it answers the first
    attempt); it returns the generic diagnostic, and [processSingleFile]
    marks the item COMPLETED with that text as its output.  (The capture
    that follows runs as for any other output; the item ends COMPLETED
    unless that capture throws.) *)
Theorem processSingleFile_other_failure (env : Env) (files0 : list ProgramFile)
  (fileId : string) (file : ProgramFile) (w : World) (k : nat) (err : ApiError)
  (i : nat) (f : ProgramFile) :
  List.find (fun g => String.eqb (id g) fileId) files0 = Some file ->
  files w !! i = Some f ->
  id f = fileId ->
  newClient env (clients w) = None ->
  (1 <= k <= 4)%nat ->
  (forall j, (j < k - 1)%nat ->
     exists e, generateContent env (requests w + j) (requestOf file) = Throws e
               /\ isRateLimited e = true) ->
  generateContent env (requests w + (k - 1)) (requestOf file) = Throws err ->
  err_status err <> JsNumber 429 ->
  err_code err <> JsNumber 429 ->
  err_response_status err <> JsNumber 429 ->
  err_error_code err <> JsNumber 429 ->
  err_error_status err <> JsNumber 429 ->
  JS.includes "429" (err_string err) = false ->
  JS.includes "RESOURCE_EXHAUSTED" (err_string err) = false ->
  isRateLimited err = false /\
  fst (generateOutput env file w) = genericDiagnostic /\
  trace (snd (generateOutput env file w)) = trace w ++ callsFrom (requestOf file) 1 k /\
  requests (snd (generateOutput env file w)) = (requests w + k)%nat /\
  (forall rq, callsFrom rq 1 1 = [EvGenerateContent rq 1]) /\
  exists f',
    files (snd (processSingleFile env files0 fileId w)) !! i = Some f' /\
    output f' = Some genericDiagnostic /\
    status f'
    = (if terminalRefs env fileId then
         match toPng env (captures w) fileId with
         | Some _ => COMPLETED
         | None => ERROR
         end
       else COMPLETED) /\
    trace (snd (processSingleFile env files0 fileId w))
    = trace w ++
      [EvSetFiles fileId (PatchStatus RUNNING)] ++ callsFrom (requestOf file) 1 k ++
      [EvSetFiles fileId (PatchOutput genericDiagnostic COMPLETED); EvSleep 800]
      ++ captureEvents env fileId (captures w).
Proof.
  intros Hfind Hf Hid Hclient Hk Hfail Hthrow H1 H2 H3 H4 H5 Ht429 Htre.
  assert (Hst : status_is_429 (getErrorStatus err) = false).
  { destruct (getErrorStatus err) as [n|] eqn:E; [| reflexivity].
    cbn [status_is_429]. apply Z.eqb_neq. intros ->.
    apply getErrorStatus_field in E. intuition congruence. }
  assert (Hrl : isRateLimited err = false).
  { unfold isRateLimited. now rewrite Hst, Ht429, Htre. }
  assert (Hdiag : diagnosticOf err = genericDiagnostic).
  { unfold diagnosticOf. now rewrite Hst, Htre. }
  assert (Hgen : forall w0, requests w0 = requests w -> clients w0 = clients w ->
            fst (generateOutput env file w0) = genericDiagnostic /\
            trace (snd (generateOutput env file w0))
            = trace w0 ++ callsFrom (requestOf file) 1 k).
  { intros w0 Hr0 Hc0. rewrite <- Hdiag.
    apply (generateOutput_run env file w0 k (Throws err)).
    - now rewrite Hc0.
    - exact Hk.
    - intros j Hj. rewrite Hr0. now apply Hfail.
    - now rewrite Hr0.
    - now left. }
  split; [exact Hrl |].
  destruct (Hgen w eq_refl eq_refl) as [Hv Ht].
  split; [exact Hv |]. split; [exact Ht |].
  split.
  { destruct (generateOutput_shape env file w) as (k' & _ & _ & Ht' & Hq' & _).
    rewrite Ht in Ht'. apply app_inv_head in Ht'.
    apply (f_equal (fun evs => length (remoteCalls evs))) in Ht'.
    assert (Hcount : forall n a, length (remoteCalls (retries (requestOf file) a n)) = n).
    { induction n as [|n IHn]; intros a; [reflexivity |]. cbn. now rewrite IHn. }
    rewrite Hq'. f_equal.
    destruct k as [|n]; [lia |]. destruct k' as [|n']; cbn in Ht'; rewrite !Hcount in Ht';
      lia. }
  split; [reflexivity |].
  destruct (lookup_processSingleFile env files0 fileId file w i f Hfind Hf)
    as (k' & Hk' & Hcalls & Hlook & Htrace & _).
  destruct (Hgen (snd (setFiles fileId (PatchStatus RUNNING) w)) eq_refl eq_refl)
    as [Hv' Ht'].
  rewrite Hv' in Hlook, Htrace. rewrite Ht' in Hcalls. apply app_inv_head in Hcalls.
  eexists. split; [exact Hlook |].
  unfold processedIfId. rewrite Hid, String.eqb_refl.
  rewrite output_processed, status_processed, Hid.
  repeat split. rewrite Htrace. unfold itemEvents. now rewrite <- Hcalls.
Qed.

(** C3 (amended), for a network failure on the second call, after one
    exceeded quota. *)
Lemma processSingleFile_other_failure_witness :
  isRateLimited networkError = false /\
  fst (generateOutput flaky (item "f1" "a.py" PENDING) (session [item "f1" "a.py" PENDING]))
  = genericDiagnostic /\
  trace (snd (generateOutput flaky (item "f1" "a.py" PENDING)
                (session [item "f1" "a.py" PENDING])))
  = trace (session [item "f1" "a.py" PENDING])
    ++ callsFrom (requestOf (item "f1" "a.py" PENDING)) 1 2.
Proof.
  destruct (processSingleFile_other_failure flaky
              [item "f1" "a.py" PENDING] "f1" (item "f1" "a.py" PENDING)
              (session [item "f1" "a.py" PENDING]) 2 networkError 0
              (item "f1" "a.py" PENDING))
    as (Hrl & Hout & Htrace & _); try reflexivity; try discriminate.
  - lia.
  - intros j Hj. exists quotaError. split; [| reflexivity].
    destruct j as [|j]; [reflexivity | simpl in Hj; lia].
  - split; [exact Hrl |]. split; [exact Hout | exact Htrace].
Defined.

(** C4: a batch run that starts (no other run in progress, items with
    distinct ids) goes through the items in the order of the list, one
    after the other: its log is the log of the first item, then that of the
    second, and so on, between the raising and the lowering of the
    processing flag.  An item that is not COMPLETED is processed as
    [itemRun] says: it is marked RUNNING, its output is generated and
    attached, and it is captured when an element is registered.  An item
    that is COMPLETED has no part in the log (it is neither sent nor
    captured again) and is left as it is.  The ids marked RUNNING and the
    ids captured are those of the unfinished items, in order.  When every
    item is COMPLETED the run makes no remote call and no capture and
    leaves all items unchanged. *)
Theorem runBatch_processes_pending (env : Env) (w : World) :
  isProcessing w = false ->
  List.NoDup (map id (files w)) ->
  (exists runs : list (list Event),
     trace (runBatch env w)
     = trace w ++ [EvSetIsProcessing true] ++ concat runs ++ [EvSetIsProcessing false] /\
     Forall3 (batchRun env) (files w) runs (files (runBatch env w)) /\
     startedIds (concat runs) = map id (List.filter notCompleted (files w)) /\
     captureCalls (concat runs)
     = List.filter (terminalRefs env) (map id (List.filter notCompleted (files w)))) /\
  (List.Forall (fun f => status f = COMPLETED) (files w) ->
   trace (runBatch env w) = trace w ++ [EvSetIsProcessing true; EvSetIsProcessing false] /\
   requests (runBatch env w) = requests w /\
   captures (runBatch env w) = captures w /\
   files (runBatch env w) = files w).
Proof.
  intros Hp Hnd. split; [| intros H; repeat split].
  - destruct (runBatch_runs env w Hp Hnd) as (runs & Ht & Hruns).
    exists runs. split; [exact Ht |]. split; [exact Hruns |].
    rewrite (runBatch_unfold env w Hp) in Ht. cbn [setIsProcessing snd log trace] in Ht.
    match type of Ht with context [processEach env (files w) ?todo ?w1] =>
      destruct (processEach_trace env (files w) todo w1) as (evs & Hevs & Hs & Hc)
    end.
    + intros g Hg. apply find_by_id; [exact Hnd |].
      now apply List.filter_In in Hg as [Hg _].
    + rewrite Hevs in Ht. cbn [trace log] in Ht.
      rewrite <- !app_assoc in Ht. apply app_inv_head in Ht.
      cbn [app] in Ht. injection Ht as Ht. apply app_inv_tail in Ht.
      subst evs. split; [exact Hs | exact Hc].
  - rewrite (runBatch_unfold env w Hp), (filter_notCompleted_nil _ H). cbn.
    now rewrite <- app_assoc.
  - rewrite (runBatch_unfold env w Hp), (filter_notCompleted_nil _ H). reflexivity.
  - rewrite (runBatch_unfold env w Hp), (filter_notCompleted_nil _ H). reflexivity.
  - rewrite (runBatch_unfold env w Hp), (filter_notCompleted_nil _ H). reflexivity.
Qed.

(** C4, for a batch of two finished and two unfinished items. *)
Lemma runBatch_processes_pending_witness :
  isProcessing mixedBatch = false /\
  List.NoDup (map id (files mixedBatch)) /\
  (exists runs : list (list Event),
     trace (runBatch (service 0 quotaError "hello" []) mixedBatch)
     = trace mixedBatch ++ [EvSetIsProcessing true] ++ concat runs
       ++ [EvSetIsProcessing false] /\
     Forall3 (batchRun (service 0 quotaError "hello" [])) (files mixedBatch) runs
       (files (runBatch (service 0 quotaError "hello" []) mixedBatch)) /\
     startedIds (concat runs) = ["b"; "d"] /\
     captureCalls (concat runs) = ["b"; "d"]).
Proof.
  assert (Hnd : List.NoDup (map id (files mixedBatch))).
  { cbn. repeat (constructor; [cbn; intuition discriminate |]). constructor. }
  split; [reflexivity |]. split; [exact Hnd |].
  exact (proj1 (runBatch_processes_pending (service 0 quotaError "hello" []) mixedBatch
                  eq_refl Hnd)).
Defined.

(** C5: in a batch run over items with distinct ids, an unfinished item
    whose element is registered and whose capture throws ends in status
    ERROR with the output that was attached to it before the capture, and
    with its image field untouched (so without an image when it had none):
    in the log, the output [out] is attached to the item, the capture is
    called 800 ms later, and the one update that follows sets the status to
    ERROR and nothing else.  The loop goes on, 700 ms later: every other
    unfinished item whose element is registered and whose capture succeeds
    ends COMPLETED with the output that was attached to it and the captured
    image. *)
Theorem runBatch_capture_failure (env : Env) (w : World) (i : nat) (f : ProgramFile) :
  isProcessing w = false ->
  List.NoDup (map id (files w)) ->
  files w !! i = Some f ->
  status f <> COMPLETED ->
  terminalRefs env (id f) = true ->
  (forall n, toPng env n (id f) = None) ->
  (exists f' out pre post,
     files (runBatch env w) !! i = Some f' /\
     trace (runBatch env w)
     = pre ++ [EvSetFiles (id f) (PatchOutput out COMPLETED); EvSleep 800;
               EvToPng (id f); EvSetFiles (id f) (PatchStatus ERROR); EvSleep 700]
           ++ post /\
     status f' = ERROR /\ output f' = Some out /\ imageBlob f' = imageBlob f /\
     sameItem f f') /\
  (forall j g,
     files w !! j = Some g ->
     status g <> COMPLETED ->
     terminalRefs env (id g) = true ->
     (forall n, toPng env n (id g) <> None) ->
     exists g' out blob pre post,
       files (runBatch env w) !! j = Some g' /\
       trace (runBatch env w)
       = pre ++ [EvSetFiles (id g) (PatchOutput out COMPLETED); EvSleep 800;
                 EvToPng (id g); EvSetFiles (id g) (PatchImage blob); EvSleep 700]
             ++ post /\
       status g' = COMPLETED /\ output g' = Some out /\ imageBlob g' = Some blob /\
       sameItem g g').
Proof.
  intros Hp Hnd Hf Hst Href Hthrow.
  assert (Hpend : forall g, status g <> COMPLETED -> notCompleted g = true).
  { intros g Hg. unfold notCompleted. now destruct (status g). }
  destruct (runBatch_runs env w Hp Hnd) as (runs & Ht & Hruns).
  assert (Hitem : forall j g, files w !! j = Some g -> status g <> COMPLETED ->
            terminalRefs env (id g) = true ->
            exists g' out n pre post,
              files (runBatch env w) !! j = Some g' /\
              trace (runBatch env w)
              = pre ++ ([EvSetFiles (id g) (PatchOutput out COMPLETED); EvSleep 800;
                         EvToPng (id g);
                         EvSetFiles (id g)
                           match toPng env n (id g) with
                           | Some blob => PatchImage blob
                           | None => PatchStatus ERROR
                           end; EvSleep 700]) ++ post /\
              sameItem g g' /\ output g' = Some out /\
              status g' = match toPng env n (id g) with
                          | Some _ => COMPLETED
                          | None => ERROR
                          end /\
              imageBlob g' = match toPng env n (id g) with
                             | Some blob => Some blob
                             | None => imageBlob g
                             end).
  { intros j g Hg Hgst Hgref.
    destruct (Forall3_lookup_l _ _ _ _ _ _ Hruns Hg) as (evs & g' & Hevs & Hg' & Hrun).
    unfold batchRun in Hrun. rewrite (Hpend g Hgst) in Hrun.
    destruct Hrun as (rq & k & out & n & _ & _ & _ & _ & -> & Hsame & Hout & Hstatus & Himg).
    rewrite Hgref in Hstatus, Himg.
    destruct (concat_lookup runs j _ Hevs) as (pre & post & Hcat).
    exists g', out, n,
      (trace w ++ [EvSetIsProcessing true] ++ pre
       ++ EvSetFiles (id g) (PatchStatus RUNNING) :: callsFrom rq 1 k),
      (post ++ [EvSetIsProcessing false]).
    split; [exact Hg' |]. split.
    - rewrite Ht, Hcat. unfold itemEvents, captureEvents. rewrite Hgref.
      cbn [app]. rewrite <- !app_assoc. cbn [app]. rewrite <- !app_assoc. reflexivity.
    - split; [exact Hsame |]. split; [exact Hout |]. split; [exact Hstatus | exact Himg]. }
  split.
  - destruct (Hitem i f Hf Hst Href)
      as (f' & out & n & pre & post & Hf' & Htr & Hsame & Hout & Hstatus & Himg).
    rewrite Hthrow in Htr, Hstatus, Himg.
    exists f', out, pre, post.
    split; [exact Hf' |]. split; [exact Htr |]. split; [exact Hstatus |].
    split; [exact Hout |]. split; [exact Himg | exact Hsame].
  - intros j g Hg Hgst Hgref Hgok.
    destruct (Hitem j g Hg Hgst Hgref)
      as (g' & out & n & pre & post & Hg' & Htr & Hsame & Hout & Hstatus & Himg).
    destruct (toPng env n (id g)) as [blob|] eqn:Hcap; [| now apply Hgok in Hcap].
    exists g', out, blob, pre, post.
    split; [exact Hg' |]. split; [exact Htr |]. split; [exact Hstatus |].
    split; [exact Hout |]. split; [exact Himg | exact Hsame].
Qed.

(** C5, for five items of which the third cannot be captured. *)
Lemma runBatch_capture_failure_witness :
  (exists f' out pre post,
     files (runBatch (service 0 quotaError "hello" ["c"]) fiveItems) !! 2%nat = Some f' /\
     trace (runBatch (service 0 quotaError "hello" ["c"]) fiveItems)
     = pre ++ [EvSetFiles "c" (PatchOutput out COMPLETED); EvSleep 800;
               EvToPng "c"; EvSetFiles "c" (PatchStatus ERROR); EvSleep 700]
           ++ post /\
     status f' = ERROR /\ output f' = Some out /\ imageBlob f' = None /\
     sameItem (item "c" "c.py" PENDING) f') /\
  (exists g' out blob pre post,
     files (runBatch (service 0 quotaError "hello" ["c"]) fiveItems) !! 3%nat = Some g' /\
     trace (runBatch (service 0 quotaError "hello" ["c"]) fiveItems)
     = pre ++ [EvSetFiles "d" (PatchOutput out COMPLETED); EvSleep 800;
               EvToPng "d"; EvSetFiles "d" (PatchImage blob); EvSleep 700]
           ++ post /\
     status g' = COMPLETED /\ output g' = Some out /\ imageBlob g' = Some blob /\
     sameItem (item "d" "d.py" PENDING) g').
Proof.
  assert (Hnd : List.NoDup (map id (files fiveItems))).
  { cbn. repeat (constructor; [cbn; intuition discriminate |]). constructor. }
  destruct (runBatch_capture_failure (service 0 quotaError "hello" ["c"]) fiveItems 2
              (item "c" "c.py" PENDING) eq_refl Hnd eq_refl)
    as [Hthird Hothers].
  - discriminate.
  - reflexivity.
  - intros n. reflexivity.
  - split; [exact Hthird |].
    apply (Hothers 3%nat (item "d" "d.py" PENDING)).
    + reflexivity.
    + discriminate.
    + reflexivity.
    + intros n. discriminate.
Defined.

(** C10: when no element is registered for the id of the item,
    [processSingleFile] makes no capture call, and the item is left
    COMPLETED with the generated output attached and its image field
    untouched (so without an image when it had none).  Whatever the
    services do, the item ends in status ERROR only when an element is
    registered and the capture throws. *)
Theorem processSingleFile_without_element (env : Env) (files0 : list ProgramFile)
  (fileId : string) (file : ProgramFile) (w : World) (i : nat) (f : ProgramFile) :
  List.find (fun g => String.eqb (id g) fileId) files0 = Some file ->
  files w !! i = Some f ->
  id f = fileId ->
  terminalRefs env fileId = false ->
  (exists f' out evs,
     files (snd (processSingleFile env files0 fileId w)) !! i = Some f' /\
     trace (snd (processSingleFile env files0 fileId w)) = trace w ++ evs /\
     captureCalls evs = [] /\
     captures (snd (processSingleFile env files0 fileId w)) = captures w /\
     status f' = COMPLETED /\ output f' = Some out /\ imageBlob f' = imageBlob f) /\
  (forall env' f'',
     files (snd (processSingleFile env' files0 fileId w)) !! i = Some f'' ->
     status f'' = ERROR ->
     terminalRefs env' fileId = true /\ toPng env' (captures w) fileId = None).
Proof.
  intros Hfind Hf Hid Href. split.
  - destruct (lookup_processSingleFile env files0 fileId file w i f Hfind Hf)
      as (k & Hk & _ & Hlook & Htrace & Hcap).
    destruct (itemEvents_summary env fileId (requestOf file) k
                (fst (generateOutput env file (snd (setFiles fileId (PatchStatus RUNNING) w))))
                (captures w) Hk) as (_ & Hnone).
    rewrite Href in Hcap, Hnone.
    eexists _, _, _. split; [exact Hlook |]. split; [exact Htrace |].
    split; [exact Hnone |]. split; [exact Hcap |].
    unfold processedIfId. rewrite Hid, String.eqb_refl.
    rewrite status_processed, output_processed, imageBlob_processed, Hid, Href.
    repeat split.
  - intros env' f'' Hlook Herr.
    destruct (lookup_processSingleFile env' files0 fileId file w i f Hfind Hf)
      as (k & _ & _ & Hlook' & _).
    rewrite Hlook' in Hlook. injection Hlook as <-.
    unfold processedIfId in Herr. rewrite Hid, String.eqb_refl in Herr.
    rewrite status_processed, Hid in Herr.
    destruct (terminalRefs env' fileId); [| discriminate].
    destruct (toPng env' (captures w) fileId); [discriminate | now split].
Qed.

(** C10, for a session in which no element is rendered. *)
Lemma processSingleFile_without_element_witness :
  terminalRefs (headless (service 0 quotaError "hello" [])) "b" = false /\
  exists f' out evs,
    files (snd (processSingleFile (headless (service 0 quotaError "hello" []))
                  (files mixedBatch) "b" mixedBatch)) !! 1%nat = Some f' /\
    trace (snd (processSingleFile (headless (service 0 quotaError "hello" []))
                  (files mixedBatch) "b" mixedBatch)) = trace mixedBatch ++ evs /\
    captureCalls evs = [] /\
    captures (snd (processSingleFile (headless (service 0 quotaError "hello" []))
                     (files mixedBatch) "b" mixedBatch)) = captures mixedBatch /\
    status f' = COMPLETED /\ output f' = Some out /\ imageBlob f' = None.
Proof.
  split; [reflexivity |].
  exact (proj1 (processSingleFile_without_element
                  (headless (service 0 quotaError "hello" [])) (files mixedBatch) "b"
                  (item "b" "b.py" PENDING) mixedBatch 1 (item "b" "b.py" PENDING)
                  eq_refl eq_refl eq_refl eq_refl)).
Defined.

(** * Further properties of the naming engine *)

Section NameParts.

Lemma lastIndexOf_absent (c : ascii) (s : string) :
  JS.includes (String c "") s = false -> JS.lastIndexOf c s = (-1)%Z.
Proof.
  induction s as [|a s IH]; intros H; [reflexivity |].
  rewrite includes_cons in H. apply orb_false_elim in H as [Ha Hs].
  cbn [JS.startsWith] in Ha. rewrite andb_true_r, Ascii.eqb_sym in Ha.
  cbn [JS.lastIndexOf]. rewrite (IH Hs), Ha. reflexivity.
Qed.

Lemma lastIndexOf_last (c : ascii) (a b : string) :
  JS.includes (String c "") b = false ->
  JS.lastIndexOf c (a +:+ String c b) = Z.of_nat (String.length a).
Proof.
  intros Hb. induction a as [|x a IH].
  - cbn [String.append JS.lastIndexOf]. rewrite (lastIndexOf_absent _ _ Hb).
    now rewrite Ascii.eqb_refl.
  - change (String x a +:+ String c b) with (String x (a +:+ String c b)).
    cbn [JS.lastIndexOf]. rewrite IH.
    destruct (0 <=? Z.of_nat (String.length a))%Z eqn:E.
    + cbn [String.length]. lia.
    + apply Z.leb_gt in E. lia.
Qed.

Lemma substring_prefix (a r : string) :
  String.substring 0 (String.length a) (a +:+ r) = a.
Proof.
  induction a as [|x a IH]; simpl; [now destruct r | now rewrite IH].
Qed.

Lemma substring_to_negative (s : string) (n : Z) :
  (n <= 0)%Z -> JS.substring s 0 n = "".
Proof.
  intros Hn. unfold JS.substring.
  replace (Z.max n 0) with 0%Z by lia.
  replace (Z.min (Z.max 0 0) (Z.of_nat (String.length s))) with 0%Z by lia.
  replace (Z.min 0 0) with 0%Z by lia. replace (Z.max 0 0) with 0%Z by lia.
  cbn. now destruct s.
Qed.

Lemma substring_head (a r : string) :
  JS.substring (a +:+ r) 0 (Z.of_nat (String.length a)) = a.
Proof.
  unfold JS.substring. rewrite length_append.
  replace (Z.min (Z.max 0 0) (Z.of_nat (String.length a + String.length r))) with 0%Z by lia.
  replace (Z.min (Z.max (Z.of_nat (String.length a)) 0)
             (Z.of_nat (String.length a + String.length r)))
    with (Z.of_nat (String.length a)) by lia.
  replace (Z.min 0 (Z.of_nat (String.length a))) with 0%Z by lia.
  replace (Z.max 0 (Z.of_nat (String.length a))) with (Z.of_nat (String.length a)) by lia.
  rewrite Z.sub_0_r, Nat2Z.id. cbn [Z.to_nat]. apply substring_prefix.
Qed.

End NameParts.

(** X1: a file name [a.b] whose part [a] before the last dot is not empty
    splits into [nameWithoutExt] = [a] and [ext] = [b], and the two parts
    joined by a dot give the file name back. *)
Theorem name_ext_round_trip (a b : string) :
  a <> "" ->
  JS.includes "." b = false ->
  nameWithoutExt (a +:+ "." +:+ b) = a /\
  ext (a +:+ "." +:+ b) = b /\
  nameWithoutExt (a +:+ "." +:+ b) +:+ "." +:+ ext (a +:+ "." +:+ b) = a +:+ "." +:+ b.
Proof.
  intros Ha Hb.
  assert (Hn : nameWithoutExt (a +:+ "." +:+ b) = a).
  { unfold nameWithoutExt. change (a +:+ "." +:+ b) with (a +:+ String "." b).
    rewrite (lastIndexOf_last _ _ _ Hb), substring_head. now destruct a. }
  rewrite Hn, (ext_after_last_dot a b Hb). repeat split.
Qed.

(** X1, for Main.java. *)
Lemma name_ext_round_trip_witness :
  nameWithoutExt "Main.java" = "Main" /\ ext "Main.java" = "java".
Proof.
  destruct (name_ext_round_trip "Main" "java") as (Hn & He & _).
  - discriminate.
  - reflexivity.
  - split; [exact Hn | exact He].
Defined.

(** X2: a file name without a dot, and a file name whose only dot is its
    first character, are their own [nameWithoutExt]: the text before the
    dot is empty there and gives way to the whole name. *)
Theorem nameWithoutExt_whole (b : string) :
  JS.includes "." b = false ->
  nameWithoutExt b = b /\ nameWithoutExt ("." +:+ b) = "." +:+ b.
Proof.
  intros Hb. unfold nameWithoutExt. split.
  - rewrite (lastIndexOf_absent _ _ Hb), substring_to_negative by lia.
    now destruct b.
  - change ("." +:+ b) with ("" +:+ String "." b).
    rewrite (lastIndexOf_last _ _ _ Hb). cbn [String.length Z.of_nat].
    now rewrite substring_to_negative by lia.
Qed.

(** X2, for Makefile and .bashrc. *)
Lemma nameWithoutExt_whole_witness :
  nameWithoutExt "Makefile" = "Makefile" /\ nameWithoutExt ".bashrc" = ".bashrc".
Proof.
  split.
  - exact (proj1 (nameWithoutExt_whole "Makefile" eq_refl)).
  - exact (proj2 (nameWithoutExt_whole "bashrc" eq_refl)).
Defined.

Section Brackets.

(** A text that has no [c] does not start with a literal that starts with
    [c], nor hold one. *)
Lemma includes_head (h : ascii) (tl s : string) :
  JS.includes (String h "") s = false -> JS.includes (String h tl) s = false.
Proof.
  induction s as [|c s IH]; intros H; [reflexivity |].
  rewrite includes_cons in H. apply orb_false_elim in H as [Hc Hs].
  cbn [JS.startsWith] in Hc. rewrite andb_true_r in Hc.
  rewrite includes_cons, (IH Hs), orb_false_r.
  cbn [JS.startsWith]. now rewrite Hc.
Qed.

Lemma includes_char_app (c : ascii) (a b : string) :
  JS.includes (String c "") (a +:+ b)
  = JS.includes (String c "") a || JS.includes (String c "") b.
Proof.
  induction a as [|x a IH].
  - simpl. now destruct b.
  - change (String x a +:+ b) with (String x (a +:+ b)).
    rewrite !includes_cons, IH. cbn [JS.startsWith].
    rewrite !andb_true_r. now rewrite orb_assoc.
Qed.

Lemma stripSeparator_none (s : string) : stripSeparator noSeparator s = s.
Proof. now destruct s. Qed.

(** The one placeholder of a text without other brackets is replaced by
    the value, which is inserted as it is when it has no dollar sign. *)
Lemma replace_single (re : JS.RegExp) (tl r pre post : string) :
  JS.re_literal re = String "[" tl ->
  JS.re_optional re = None ->
  JS.includes "$" r = false ->
  JS.includes "[" pre = false ->
  JS.includes "[" post = false ->
  JS.replace re r (pre +:+ String "[" tl +:+ post) = pre +:+ r +:+ post.
Proof.
  intros Hlit Hopt Hr Hpre Hpost. unfold JS.replace.
  rewrite replace_from_copy.
  - destruct (replace_from_match re r ("" +:+ pre) "[" tl post Hlit)
      as (matched & after & before' & ->).
    rewrite getSubstitution_plain by exact Hr.
    unfold sepOf. rewrite Hopt, stripSeparator_none.
    rewrite replace_from_absent; [reflexivity |].
    rewrite Hlit. now apply includes_head.
  - intros a1 a2 -> Ha2. rewrite Hlit.
    rewrite includes_char_app in Hpre. apply orb_false_elim in Hpre as [_ Hpre].
    destruct a2 as [|c a2]; [congruence |].
    rewrite includes_cons in Hpre. apply orb_false_elim in Hpre as [Hc _].
    cbn [JS.startsWith] in Hc. rewrite andb_true_r in Hc.
    change (String c a2 +:+ String "[" tl +:+ post)
      with (String c (a2 +:+ String "[" tl +:+ post)).
    cbn [JS.startsWith]. now rewrite Hc.
Qed.

(** A text whose only bracket opens another placeholder is left alone. *)
Lemma replace_other (re : JS.RegExp) (tl' tl r pre post : string) :
  JS.re_literal re = String "[" tl' ->
  JS.includes "[" pre = false ->
  JS.includes "[" tl = false ->
  JS.includes "[" post = false ->
  JS.startsWith (String "[" tl') (String "[" tl +:+ post) = false ->
  JS.replace re r (pre +:+ String "[" tl +:+ post) = pre +:+ String "[" tl +:+ post.
Proof.
  intros Hlit Hpre Htl Hpost Hs. unfold JS.replace.
  apply replace_from_absent. rewrite Hlit.
  induction pre as [|c pre IH].
  - change ("" +:+ String "[" tl +:+ post) with (String "[" (tl +:+ post)).
    rewrite includes_cons.
    change (String "[" (tl +:+ post)) with (String "[" tl +:+ post). rewrite Hs.
    apply includes_head. rewrite includes_char_app. now rewrite Htl, Hpost.
  - rewrite includes_cons in Hpre. apply orb_false_elim in Hpre as [Hc Hpre].
    cbn [JS.startsWith] in Hc. rewrite andb_true_r in Hc.
    change (String c pre +:+ String "[" tl +:+ post)
      with (String c (pre +:+ String "[" tl +:+ post)).
    rewrite includes_cons, (IH Hpre), orb_false_r.
    cbn [JS.startsWith]. now rewrite Hc.
Qed.

Lemma replace_plain (re : JS.RegExp) (tl r s : string) :
  JS.re_literal re = String "[" tl ->
  JS.includes "[" s = false ->
  JS.replace re r s = s.
Proof.
  intros Hlit Hs. unfold JS.replace. apply replace_from_absent.
  rewrite Hlit. now apply includes_head.
Qed.

Lemma formatName_of_formatted (cfg : NamingConfig) (pattern : string) (file : ProgramFile)
  (index : nat) :
  JS.includes "[" (formatted pattern file) = false ->
  formatName cfg pattern file index = formatted pattern file.
Proof.
  intros H. apply formatName_absent. now apply includes_head.
Qed.

End Brackets.

(** X3: a pattern without an opening bracket holds no placeholder and is
    returned as it is, for every file, index and naming setting. *)
Theorem formatName_plain (cfg : NamingConfig) (pattern : string) (file : ProgramFile)
  (index : nat) :
  JS.includes "[" pattern = false ->
  formatName cfg pattern file index = pattern.
Proof.
  intros H.
  assert (Hf : formatted pattern file = pattern).
  { unfold formatted.
    rewrite (replace_plain re_name "name]" _ pattern eq_refl H).
    rewrite (replace_plain re_ext "ext]" _ pattern eq_refl H).
    now rewrite (replace_plain re_full "full]" _ pattern eq_refl H). }
  rewrite formatName_of_formatted; rewrite Hf; [reflexivity | exact H].
Qed.

(** X3, for the pattern "submission". *)
Lemma formatName_plain_witness :
  formatName (naming 1 true) "submission" (sourceFile "a.py") 0 = "submission".
Proof. apply formatName_plain. reflexivity. Defined.

(** X4: in a pattern with one placeholder among [[name]], [[ext]] and
    [[full]] and no other opening bracket, the placeholder is replaced by
    its value (the name without extension, the extension, the whole file
    name) and the text around it is kept, provided the value holds neither
    an opening bracket nor a dollar sign. *)
Theorem formatName_single_placeholder (cfg : NamingConfig) (p : Placeholder)
  (pre post : string) (file : ProgramFile) (index : nat) :
  JS.includes "[" pre = false ->
  JS.includes "[" post = false ->
  JS.includes "[" (valueOf p file) = false ->
  JS.includes "$" (valueOf p file) = false ->
  formatName cfg (pre +:+ token p +:+ post) file index = pre +:+ valueOf p file +:+ post.
Proof.
  intros Hpre Hpost Hv Hd.
  assert (Hout : JS.includes "[" (pre +:+ valueOf p file +:+ post) = false).
  { rewrite !includes_char_app. now rewrite Hpre, Hv, Hpost. }
  assert (Hf : formatted (pre +:+ token p +:+ post) file = pre +:+ valueOf p file +:+ post).
  { unfold formatted. destruct p; cbn [token valueOf] in *.
    - change "[name]" with (String "[" "name]").
      rewrite (replace_single re_name "name]" _ pre post eq_refl eq_refl Hd Hpre Hpost).
      rewrite (replace_plain re_ext "ext]" _ _ eq_refl Hout).
      now rewrite (replace_plain re_full "full]" _ _ eq_refl Hout).
    - change "[ext]" with (String "[" "ext]").
      rewrite (replace_other re_name "name]" "ext]" _ pre post eq_refl Hpre eq_refl Hpost eq_refl).
      rewrite (replace_single re_ext "ext]" _ pre post eq_refl eq_refl Hd Hpre Hpost).
      now rewrite (replace_plain re_full "full]" _ _ eq_refl Hout).
    - change "[full]" with (String "[" "full]").
      rewrite (replace_other re_name "name]" "full]" _ pre post eq_refl Hpre eq_refl Hpost eq_refl).
      rewrite (replace_other re_ext "ext]" "full]" _ pre post eq_refl Hpre eq_refl Hpost eq_refl).
      now rewrite (replace_single re_full "full]" _ pre post eq_refl eq_refl Hd Hpre Hpost). }
  rewrite formatName_of_formatted; rewrite Hf; [reflexivity | exact Hout].
Qed.

(** X4, for the screenshot pattern the application starts with. *)
Lemma formatName_single_placeholder_witness :
  formatName (naming 1 true) "[name]_output" (sourceFile "Main.java") 3 = "Main_output".
Proof.
  apply (formatName_single_placeholder (naming 1 true) PName "" "_output"
           (sourceFile "Main.java") 3); reflexivity.
Defined.

Section IndexPrefix.

Lemma decimal_no_underscore (n : Z) : JS.includes "_" (JS.decimal n) = false.
Proof.
  unfold JS.decimal.
  assert (Hu : forall d, JS.includes "_" (NilEmpty.string_of_uint d) = false).
  { induction d; [reflexivity | ..]; exact IHd. }
  assert (Hu0 : forall d, JS.includes "_" (NilZero.string_of_uint d) = false).
  { intros d. destruct d; [reflexivity | ..]; apply Hu. }
  destruct (Z.to_int n) as [d|d]; [apply Hu0 | apply (Hu0 d)].
Qed.

(** The decimal notation tells integers apart. *)
Lemma decimal_inj (n m : Z) : JS.decimal n = JS.decimal m -> n = m.
Proof.
  unfold JS.decimal. intros E.
  assert (Hnn : forall z, Z.to_int z <> Decimal.Pos Decimal.Nil
                          /\ Z.to_int z <> Decimal.Neg Decimal.Nil).
  { intros [|p|p]; cbn; split; try discriminate;
      intros [= H]; now apply DecimalPos.Unsigned.to_uint_nonnil in H. }
  apply DecimalZ.to_int_inj.
  destruct (Hnn n) as [Hn1 Hn2], (Hnn m) as [Hm1 Hm2].
  pose proof (NilZero.isi _ Hn1 Hn2) as In.
  pose proof (NilZero.isi _ Hm1 Hm2) as Im.
  rewrite E in In. congruence.
Qed.

(** The text before the first [c] is fixed by the whole text. *)
Lemma before_first_char (c : ascii) (a a' b b' : string) :
  JS.includes (String c "") a = false ->
  JS.includes (String c "") a' = false ->
  a +:+ String c b = a' +:+ String c b' ->
  a = a'.
Proof.
  revert a'; induction a as [|x a IH]; intros a' Ha Ha' E.
  - destruct a' as [|x' a']; [reflexivity |].
    simpl in E. injection E as <- _.
    rewrite includes_cons in Ha'. cbn [JS.startsWith] in Ha'.
    now rewrite Ascii.eqb_refl in Ha'.
  - rewrite includes_cons in Ha. apply orb_false_elim in Ha as [Hx Ha].
    destruct a' as [|x' a'].
    + simpl in E. injection E as -> _.
      cbn [JS.startsWith] in Hx. now rewrite Ascii.eqb_refl in Hx.
    + simpl in E. injection E as -> E.
      rewrite includes_cons in Ha'. apply orb_false_elim in Ha' as [_ Ha'].
      now rewrite (IH a' Ha Ha' E).
Qed.

(** No match of a placeholder other than [[index]] starts inside the text
    "[index]_". *)
Lemma no_start_in_index_prefix (x : ascii) (tl rest a1 a2 : string) :
  Ascii.eqb x "i" = false ->
  "[index]_" = a1 +:+ a2 ->
  a2 <> "" ->
  JS.startsWith (String "[" (String x tl)) (a2 +:+ rest) = false.
Proof.
  intros Hx E Ha2.
  do 8 (destruct a1 as [|? a1];
        [cbn [String.append] in E; subst a2; cbn [String.append JS.startsWith];
         rewrite ?Hx; reflexivity
        | cbn [String.append] in E; injection E as <- E]).
  destruct a1; [| discriminate]. cbn [String.append] in E. now subst a2.
Qed.

Lemma replace_keeps_index_prefix (re : JS.RegExp) (x : ascii) (tl r q : string) :
  JS.re_literal re = String "[" (String x tl) ->
  Ascii.eqb x "i" = false ->
  exists y, JS.replace re r ("[index]_" +:+ q) = "[index]_" +:+ y.
Proof.
  intros Hlit Hx. unfold JS.replace. rewrite replace_from_copy.
  - eexists. reflexivity.
  - intros a1 a2 E Ha2. rewrite Hlit. now apply (no_start_in_index_prefix x tl q a1 a2).
Qed.

Lemma formatted_index_prefix (q : string) (file : ProgramFile) :
  exists y, formatted ("[index]_" +:+ q) file = "[index]_" +:+ y.
Proof.
  unfold formatted.
  destruct (replace_keeps_index_prefix re_name "n" "ame]" (nameWithoutExt (name file)) q
              eq_refl eq_refl) as [y1 ->].
  destruct (replace_keeps_index_prefix re_ext "e" "xt]" (ext (name file)) y1
              eq_refl eq_refl) as [y2 ->].
  apply (replace_keeps_index_prefix re_full "f" "ull]" (name file) y2 eq_refl eq_refl).
Qed.

(** With numbering on, a name made from a pattern that begins with
    "[index]_" begins with the number of the item and an underscore. *)
Lemma formatName_index_prefix (cfg : NamingConfig) (q : string) (file : ProgramFile)
  (index : nat) :
  isNumberingEnabled cfg = true ->
  JS.isSafeInteger (startIndex cfg + Z.of_nat index) ->
  exists z,
    formatName cfg ("[index]_" +:+ q) file index
    = JS.decimal (startIndex cfg + Z.of_nat index) +:+ String "_" z.
Proof.
  intros Hn Hsafe. unfold formatName. rewrite Hn, (toString_add_safe _ _ Hsafe).
  destruct (formatted_index_prefix q file) as [y ->].
  unfold JS.replace.
  change ("[index]_" +:+ y) with (String "[" "index]" +:+ String "_" y).
  destruct (replace_from_match re_index (JS.decimal (startIndex cfg + Z.of_nat index))
              "" "[" "index]" (String "_" y) eq_refl)
    as (matched & after & before' & ->).
  rewrite getSubstitution_plain by apply decimal_plain.
  change (sepOf re_index) with noSeparator. rewrite stripSeparator_none.
  cbn [JS.replace_from].
  change (JS.matchAt re_index (String "_" y)) with (@None nat).
  eexists. reflexivity.
Qed.

Lemma index_prefix_names_differ (cfg : NamingConfig) (q : string)
  (f g : ProgramFile) (i j : nat) :
  isNumberingEnabled cfg = true ->
  JS.isSafeInteger (startIndex cfg + Z.of_nat i) ->
  JS.isSafeInteger (startIndex cfg + Z.of_nat j) ->
  i <> j ->
  formatName cfg ("[index]_" +:+ q) f i <> formatName cfg ("[index]_" +:+ q) g j.
Proof.
  intros Hn Hi Hj Hne E.
  destruct (formatName_index_prefix cfg q f i Hn Hi) as [z1 H1].
  destruct (formatName_index_prefix cfg q g j Hn Hj) as [z2 H2].
  rewrite H1, H2 in E.
  apply before_first_char in E; try apply decimal_no_underscore.
  apply decimal_inj in E. lia.
Qed.

End IndexPrefix.

(** X5: with numbering on and a pattern that begins with "[index]_" (as the
    folder pattern the application starts with does), items at different
    positions get different names, whatever the files are called, as long
    as the numbers of the two items are safe integers.  Beyond them the
    numbers are rounded and names meet: at the start index 2^53 the items
    at positions 0 and 1 get the same name. *)
Theorem formatName_index_prefix_injective (cfg : NamingConfig) (q : string)
  (f g : ProgramFile) (i j : nat) :
  isNumberingEnabled cfg = true ->
  JS.isSafeInteger (startIndex cfg + Z.of_nat i) ->
  JS.isSafeInteger (startIndex cfg + Z.of_nat j) ->
  i <> j ->
  formatName cfg ("[index]_" +:+ q) f i <> formatName cfg ("[index]_" +:+ q) g j /\
  formatName (naming (2 ^ 53) true) "[index]_[name]" (sourceFile "main.py") 0
  = formatName (naming (2 ^ 53) true) "[index]_[name]" (sourceFile "main.py") 1.
Proof.
  intros Hn Hi Hj Hne. split; [now apply index_prefix_names_differ |].
  vm_compute. reflexivity.
Qed.

(** X5, for two files of the same name at positions 0 and 1. *)
Lemma formatName_index_prefix_injective_witness :
  formatName (naming 1 true) "[index]_[name]" (sourceFile "main.py") 0
  <> formatName (naming 1 true) "[index]_[name]" (sourceFile "main.py") 1.
Proof.
  refine (proj1 (formatName_index_prefix_injective (naming 1 true) "[name]"
                   (sourceFile "main.py") (sourceFile "main.py") 0 1 eq_refl _ _ _));
    [unfold JS.isSafeInteger; cbn; lia | unfold JS.isSafeInteger; cbn; lia | discriminate].
Defined.

(** * Further properties of the retry policy *)

Section RetryFacts.

Variable env : Env.

(** What the outer handler reports as rate-limited, the loop retries. *)
Lemma diagnosticOf_other (err : ApiError) :
  isRateLimited err = false -> diagnosticOf err = genericDiagnostic.
Proof.
  unfold isRateLimited, diagnosticOf. intros H.
  apply orb_false_elim in H as [H Hre]. apply orb_false_elim in H as [Hst _].
  now rewrite Hst, Hre.
Qed.

(** Every run of the loop is of the kind [attempts_run] describes. *)
Lemma attempts_course (rq : Request) (remaining : nat) :
  forall (attempt : nat) (w : World),
    (1 <= remaining)%nat -> (attempt + remaining = 5)%nat ->
    exists k,
      (1 <= k <= remaining)%nat /\
      (forall j, (j < k - 1)%nat ->
         exists err, generateContent env (requests w + j) rq = Throws err
                     /\ isRateLimited err = true) /\
      match generateContent env (requests w + (k - 1)) rq with
      | Response _ => True
      | Throws err => isRateLimited err = false \/ (attempt + (k - 1) = 4)%nat
      end.
Proof.
  induction remaining as [|r IH]; intros attempt w Hr Hsum; [lia |].
  destruct (generateContent env (requests w) rq) as [text | err] eqn:E.
  - exists 1%nat. split; [lia |]. split; [intros j Hj; lia |].
    cbn. now rewrite Nat.add_0_r, E.
  - destruct (isRateLimited err) eqn:Hrl.
    + destruct (Nat.eq_dec attempt 4) as [-> | Hne].
      * exists 1%nat. split; [lia |]. split; [intros j Hj; lia |].
        cbn. rewrite Nat.add_0_r, E. now right.
      * destruct (IH (S attempt) (log (EvSleep (delayMs attempt)) (afterCall rq attempt w)))
          as (k & Hk & Hfail & Hend); [lia | lia |].
        cbn [requests log afterCall] in Hfail, Hend.
        exists (S k). split; [lia |]. split.
        -- intros [|j] Hj.
           ++ exists err. now rewrite Nat.add_0_r.
           ++ destruct (Hfail j) as (e & He & Hr'); [lia |].
              exists e. split; [| exact Hr']. rewrite <- He. f_equal. lia.
        -- replace (requests w + (S k - 1))%nat with (S (requests w) + (k - 1))%nat by lia.
           destruct (generateContent env (S (requests w) + (k - 1)) rq);
             [exact I |].
           destruct Hend as [H | H]; [now left | right; lia].
    + exists 1%nat. split; [lia |]. split; [intros j Hj; lia |].
      cbn. rewrite Nat.add_0_r, E. now left.
Qed.

End RetryFacts.

(** The course of a run for which the client is built. *)
Lemma course_of_run (env : Env) (file : ProgramFile) (w : World) :
  newClient env (clients w) = None ->
  exists k,
    (1 <= k <= 4)%nat /\
    (forall j, (j < k - 1)%nat ->
       exists err, generateContent env (requests w + j) (requestOf file) = Throws err
                   /\ isRateLimited err = true) /\
    match generateContent env (requests w + (k - 1)) (requestOf file) with
    | Response text =>
        fst (generateOutput env file w)
        = JS.or_default text (placeholderOutput (req_isHtml (requestOf file)))
    | Throws err =>
        (isRateLimited err = false \/ k = 4%nat) /\
        fst (generateOutput env file w) = diagnosticOf err
    end /\
    trace (snd (generateOutput env file w)) = trace w ++ callsFrom (requestOf file) 1 k /\
    requests (snd (generateOutput env file w)) = (requests w + k)%nat.
Proof.
  intros Hclient.
  destruct (attempts_course env (requestOf file) 4 1 w) as (k & Hk & Hfail & Hend);
    [lia | lia |].
  exists k. split; [exact Hk |]. split; [exact Hfail |].
  assert (Hend' : match generateContent env (requests w + (k - 1)) (requestOf file) with
                  | Response _ => True
                  | Throws err => isRateLimited err = false \/ k = 4%nat
                  end).
  { destruct (generateContent env (requests w + (k - 1)) (requestOf file));
      [exact I |]. destruct Hend as [H | H]; [now left | right; lia]. }
  destruct (generateOutput_run env file w k _ Hclient Hk Hfail eq_refl Hend') as [Hv Ht].
  destruct (generateOutput_shape env file w) as (k' & Hk' & _ & Ht' & Hq' & _).
  assert (k' = k).
  { rewrite Ht in Ht'. apply app_inv_head in Ht'.
    apply (f_equal (@length Event)) in Ht'.
    assert (Hlen : forall n a, length (retries (requestOf file) a n) = (2 * n)%nat).
    { induction n as [|n IHn]; intros a; [reflexivity |]. cbn. rewrite IHn. lia. }
    destruct k as [|n]; [lia |]. destruct k' as [|n']; [cbn in Ht'; lia |].
    cbn in Ht'. rewrite !Hlen in Ht'. lia. }
  subst k'. split; [| split; [exact Ht | exact Hq']].
  destruct (generateContent env (requests w + (k - 1)) (requestOf file));
    [exact Hv | split; [exact Hend' | exact Hv]].
Qed.

(** X6: every run of [generateOutput] has one of two courses.  When the
    construction of the client throws, no call is made and the result is
    the diagnostic for what was thrown.  Otherwise, for some [k] between 1
    and 4, the first [k - 1] answers of the remote service are rate-limited
    errors, each followed by its suspension; answer [k] ends the run: a
    response gives its text (or the placeholder when the text is empty), an
    error gives a diagnostic, and an error ends the run only when it is not
    rate-limited or [k] is 4.  Exactly [k] calls are made. *)
Theorem generateOutput_course (env : Env) (file : ProgramFile) (w : World) :
  match newClient env (clients w) with
  | Some error =>
      fst (generateOutput env file w) = diagnosticOf error /\
      trace (snd (generateOutput env file w)) = trace w /\
      requests (snd (generateOutput env file w)) = requests w
  | None =>
      exists k,
        (1 <= k <= 4)%nat /\
        (forall j, (j < k - 1)%nat ->
           exists err, generateContent env (requests w + j) (requestOf file) = Throws err
                       /\ isRateLimited err = true) /\
        match generateContent env (requests w + (k - 1)) (requestOf file) with
        | Response text =>
            fst (generateOutput env file w)
            = JS.or_default text (placeholderOutput (req_isHtml (requestOf file)))
        | Throws err =>
            (isRateLimited err = false \/ k = 4%nat) /\
            fst (generateOutput env file w) = diagnosticOf err
        end /\
        trace (snd (generateOutput env file w))
        = trace w ++ callsFrom (requestOf file) 1 k /\
        requests (snd (generateOutput env file w)) = (requests w + k)%nat
  end.
Proof.
  destruct (newClient env (clients w)) as [error|] eqn:Hclient.
  - rewrite (generateOutput_no_client env file w error Hclient). repeat split.
  - exact (course_of_run env file w Hclient).
Qed.

(** X7: [generateOutput] makes at most 4 remote calls, and at least one
    when the client is built, makes no capture, and is suspended for at most
    10500 ms in all (1500 + 3000 + 6000), whatever the remote service
    answers. *)
Theorem generateOutput_bounds (env : Env) (file : ProgramFile) (w : World) :
  exists evs,
    trace (snd (generateOutput env file w)) = trace w ++ evs /\
    (length (remoteCalls evs) <= 4)%nat /\
    (newClient env (clients w) = None -> (1 <= length (remoteCalls evs))%nat) /\
    (0 <= totalSleep evs <= 10500)%Z /\
    captureCalls evs = [].
Proof.
  destruct (generateOutput_shape env file w) as (k & Hk & H1 & Ht & _).
  exists (callsFrom (requestOf file) 1 k). split; [exact Ht |].
  destruct k as [|[|[|[|[|k]]]]]; try lia;
    (split; [simpl; lia |]);
    (split; [intros Hc; specialize (H1 Hc); simpl; lia |]);
    (split; [| reflexivity]); simpl;
    change (backoffBefore 2) with 1500%Z; change (backoffBefore 3) with 3000%Z;
    change (backoffBefore 4) with 6000%Z; lia.
Qed.

(** X8: when [generateOutput] has made a call and stops before its fourth
    call on an error, its result is the generic diagnostic: the rate-limit
    diagnostic is never given for an error of the remote service before all
    4 attempts are used up. *)
Theorem generateOutput_early_error (env : Env) (file : ProgramFile) (w : World)
  (err : ApiError) :
  (requests w < requests (snd (generateOutput env file w)) < requests w + 4)%nat ->
  generateContent env (requests (snd (generateOutput env file w)) - 1) (requestOf file)
  = Throws err ->
  isRateLimited err = false /\
  fst (generateOutput env file w) = genericDiagnostic.
Proof.
  intros Hlt Hlast.
  destruct (newClient env (clients w)) as [error|] eqn:Hclient.
  - rewrite (generateOutput_no_client env file w error Hclient) in Hlt.
    cbn [snd afterNewClient requests] in Hlt. lia.
  - destruct (course_of_run env file w Hclient) as (k & Hk & _ & Hend & _ & Hq).
    rewrite Hq in Hlt, Hlast.
    replace (requests w + k - 1)%nat with (requests w + (k - 1))%nat in Hlast by lia.
    rewrite Hlast in Hend. destruct Hend as [[Hrl | Hk4] Hv]; [| lia].
    split; [exact Hrl |]. rewrite Hv. now apply diagnosticOf_other.
Qed.

(** X8, for a network failure on the second call, after one exceeded
    quota. *)
Lemma generateOutput_early_error_witness :
  fst (generateOutput flaky (item "f1" "a.py" PENDING) (session [item "f1" "a.py" PENDING]))
  = genericDiagnostic.
Proof.
  refine (proj2 (generateOutput_early_error flaky (item "f1" "a.py" PENDING)
                   (session [item "f1" "a.py" PENDING]) networkError _ _)).
  - vm_compute. lia.
  - reflexivity.
Defined.

(** X9: when the client is built, all 4 attempts fail with rate-limited
    errors and the last error carries the numeric status 429 or the text
    RESOURCE_EXHAUSTED, [generateOutput] makes its 4 calls with the
    suspensions 1500, 3000 and 6000 ms between them and returns the
    rate-limit diagnostic. *)
Theorem generateOutput_exhausted (env : Env) (file : ProgramFile) (w : World)
  (err : ApiError) :
  newClient env (clients w) = None ->
  (forall j, (j < 3)%nat ->
     exists e, generateContent env (requests w + j) (requestOf file) = Throws e
               /\ isRateLimited e = true) ->
  generateContent env (requests w + 3) (requestOf file) = Throws err ->
  getErrorStatus err = Some 429%Z \/ JS.includes "RESOURCE_EXHAUSTED" (err_string err) = true ->
  fst (generateOutput env file w) = rateLimitDiagnostic /\
  trace (snd (generateOutput env file w))
  = trace w ++
    [EvGenerateContent (requestOf file) 1; EvSleep 1500;
     EvGenerateContent (requestOf file) 2; EvSleep 3000;
     EvGenerateContent (requestOf file) 3; EvSleep 6000;
     EvGenerateContent (requestOf file) 4].
Proof.
  intros Hclient Hfail Hlast Hmark.
  destruct (generateOutput_run env file w 4 (Throws err)) as [Hv Ht].
  - exact Hclient.
  - lia.
  - exact Hfail.
  - exact Hlast.
  - now right.
  - split; [| exact Ht]. rewrite Hv. unfold diagnosticOf.
    destruct Hmark as [-> | ->]; [reflexivity | now rewrite orb_true_r].
Qed.

(** X9, for a quota that stays exceeded. *)
Lemma generateOutput_exhausted_witness :
  fst (generateOutput (service 4 quotaError "hello" []) (item "f1" "a.py" PENDING)
         (session [item "f1" "a.py" PENDING]))
  = rateLimitDiagnostic.
Proof.
  refine (proj1 (generateOutput_exhausted (service 4 quotaError "hello" [])
                   (item "f1" "a.py" PENDING) (session [item "f1" "a.py" PENDING])
                   quotaError eq_refl _ _ _)).
  - intros j Hj. exists quotaError. split; [| reflexivity].
    destruct j as [|[|[|j]]]; try reflexivity. lia.
  - reflexivity.
  - left. reflexivity.
Defined.

(** X10: [getErrorStatus] looks at the first of the five fields that is
    neither undefined nor null, and at no other: when [status] holds a text
    or an object, a numeric 429 in [code] or in a nested field is not seen,
    and an error without the marks "429" and "RESOURCE_EXHAUSTED" in its
    text is then not retried. *)
Theorem getErrorStatus_first_field (err : ApiError) :
  err_status err <> JsUndefined ->
  err_status err <> JsNull ->
  (forall n, err_status err <> JsNumber n) ->
  JS.includes "429" (err_string err) = false ->
  JS.includes "RESOURCE_EXHAUSTED" (err_string err) = false ->
  getErrorStatus err = None /\
  isRateLimited err = false /\
  diagnosticOf err = genericDiagnostic.
Proof.
  intros Hu Hn Hnum H429 Hre.
  assert (Hst : getErrorStatus err = None).
  { unfold getErrorStatus, nullish.
    destruct (err_status err) as [| | n | s |]; try congruence; try reflexivity;
      now destruct (Hnum n). }
  assert (Hrl : isRateLimited err = false).
  { unfold isRateLimited. now rewrite Hst, H429, Hre. }
  repeat split; [exact Hst | exact Hrl | now apply diagnosticOf_other].
Qed.

(** X10, for an error with the status text UNAVAILABLE and the code 429. *)
Lemma getErrorStatus_first_field_witness :
  isRateLimited
    {| err_status := JsString "UNAVAILABLE"; err_code := JsNumber 429;
       err_response_status := JsUndefined; err_error_code := JsUndefined;
       err_error_status := JsUndefined; err_string := "Error: service unavailable" |}
  = false.
Proof.
  refine (proj1 (proj2 (getErrorStatus_first_field _ _ _ _ _ _)));
    try discriminate; reflexivity.
Defined.

(** * Further properties of the batch orchestrator *)

Section BatchFacts.

Variable env : Env.

Lemma sameSource_refl (f : ProgramFile) : sameSource f f.
Proof. repeat split. Qed.

Lemma sameSource_trans (f g h : ProgramFile) :
  sameSource f g -> sameSource g h -> sameSource f h.
Proof. unfold sameSource. intuition congruence. Qed.

Lemma sameSource_patchIfId (fileId : string) (p : Patch) (f : ProgramFile) :
  sameSource f (patchIfId fileId p f).
Proof.
  unfold patchIfId. destruct (String.eqb (id f) fileId); [| apply sameSource_refl].
  destruct p; repeat split.
Qed.

Lemma sameSource_processedIfId (fileId out : string) (n : nat) (f : ProgramFile) :
  sameSource f (processedIfId env fileId out n f).
Proof.
  rewrite patches_processed.
  eapply sameSource_trans; [apply (sameSource_patchIfId fileId (PatchStatus RUNNING)) |].
  eapply sameSource_trans; [apply (sameSource_patchIfId fileId (PatchOutput out COMPLETED)) |].
  destruct (terminalRefs env fileId); [apply sameSource_patchIfId | apply sameSource_refl].
Qed.

Lemma Forall2_map_same {A : Type} (R : A -> A -> Prop) (h : A -> A) (l : list A) :
  (forall x, R x (h x)) -> Forall2 R l (map h l).
Proof. intros H. induction l; cbn; constructor; auto. Qed.

Lemma Forall2_sameSource_refl (l : list ProgramFile) : Forall2 sameSource l l.
Proof. induction l; constructor; auto using sameSource_refl. Qed.

Lemma Forall2_sameSource_trans (l1 l2 l3 : list ProgramFile) :
  Forall2 sameSource l1 l2 -> Forall2 sameSource l2 l3 -> Forall2 sameSource l1 l3.
Proof.
  intros H12. revert l3. induction H12 as [|x y l1 l2 Hxy _ IH]; intros l3 H23.
  - inversion H23. constructor.
  - inversion H23 as [|y' z l2' l3' Hyz Hrest]; subst.
    constructor; [eapply sameSource_trans; eassumption | now apply IH].
Qed.

(** When the id is not in the files of the render, [processSingleFile] marks
    the items of that id RUNNING and returns. *)
Lemma processSingleFile_missing (files0 : list ProgramFile) (fileId : string) (w : World) :
  List.find (fun f => String.eqb (id f) fileId) files0 = None ->
  processSingleFile env files0 fileId w = setFiles fileId (PatchStatus RUNNING) w.
Proof.
  intros Hfind. unfold processSingleFile, bind. rewrite Hfind. reflexivity.
Qed.

(** What one call of [processSingleFile] costs and keeps. *)
Lemma processSingleFile_cost (files0 : list ProgramFile) (fileId : string) (w : World) :
  Forall2 sameSource (files w) (files (snd (processSingleFile env files0 fileId w))) /\
  isProcessing (snd (processSingleFile env files0 fileId w)) = isProcessing w /\
  exists evs,
    trace (snd (processSingleFile env files0 fileId w)) = trace w ++ evs /\
    (length (remoteCalls evs) <= 4)%nat /\
    (length (captureCalls evs) <= 1)%nat /\
    (0 <= totalSleep evs <= 11300)%Z.
Proof.
  destruct (List.find (fun f => String.eqb (id f) fileId) files0) as [file|] eqn:Hfind.
  - destruct (processSingleFile_spec env files0 fileId file w Hfind)
      as (k & Hk & H1 & _ & ->).
    cbn [files isProcessing trace].
    split; [apply Forall2_map_same; intros x; apply sameSource_processedIfId |].
    split; [reflexivity |].
    eexists. split; [reflexivity |].
    unfold itemEvents, captureEvents.
    destruct k as [|[|[|[|[|k]]]]]; try lia;
      destruct (terminalRefs env fileId);
      try destruct (toPng env (captures w) fileId);
      repeat split; simpl;
      change (backoffBefore 2) with 1500%Z; change (backoffBefore 3) with 3000%Z;
      change (backoffBefore 4) with 6000%Z; lia.
  - rewrite (processSingleFile_missing files0 fileId w Hfind).
    cbn [setFiles snd files isProcessing trace log].
    split; [apply Forall2_map_same; intros x; apply sameSource_patchIfId |].
    split; [reflexivity |].
    eexists. split; [reflexivity |]. cbn. repeat split; lia.
Qed.

Lemma totalSleep_app (l1 l2 : list Event) :
  totalSleep (l1 ++ l2) = (totalSleep l1 + totalSleep l2)%Z.
Proof.
  induction l1 as [|e l1 IH]; [reflexivity |].
  destruct e; simpl; rewrite IH; lia.
Qed.

(** What the loop over the files to process costs and keeps. *)
Lemma processEach_cost (files0 : list ProgramFile) (todo : list ProgramFile) :
  forall w : World,
    Forall2 sameSource (files w) (files (snd (processEach env files0 todo w))) /\
    isProcessing (snd (processEach env files0 todo w)) = isProcessing w /\
    exists evs,
      trace (snd (processEach env files0 todo w)) = trace w ++ evs /\
      (length (remoteCalls evs) <= 4 * length todo)%nat /\
      (length (captureCalls evs) <= length todo)%nat /\
      (0 <= totalSleep evs <= 12000 * Z.of_nat (length todo))%Z.
Proof.
  induction todo as [|g rest IH]; intros w.
  - cbn. split; [apply Forall2_sameSource_refl |]. split; [reflexivity |].
    exists []. rewrite app_nil_r. cbn. repeat split; lia.
  - rewrite processEach_cons.
    destruct (processSingleFile_cost files0 (id g) w)
      as (Hsame & Hproc & evs1 & Ht1 & Hr1 & Hc1 & Hs1).
    destruct (IH (log (EvSleep 700) (snd (processSingleFile env files0 (id g) w))))
      as (Hsame2 & Hproc2 & evs2 & Ht2 & Hr2 & Hc2 & Hs2).
    cbn [files isProcessing trace log] in Hsame2, Hproc2, Ht2.
    split; [eapply Forall2_sameSource_trans; eassumption |].
    split; [congruence |].
    exists (evs1 ++ [EvSleep 700] ++ evs2).
    rewrite Ht2, Ht1, <- !app_assoc.
    rewrite !remoteCalls_app, !captureCalls_app, !totalSleep_app, !length_app.
    cbn [length remoteCalls captureCalls totalSleep app].
    repeat split; lia.
Qed.

(** A batch run as a relation between the items before and after it. *)
Lemma runBatch_items (w : World) :
  isProcessing w = false ->
  List.NoDup (map id (files w)) ->
  Forall2 (fun f f' =>
             (notCompleted f = true -> exists out n, f' = processed env out n f) /\
             (notCompleted f = false -> f' = f))
    (files w) (files (runBatch env w)).
Proof.
  intros Hp Hnd.
  destruct (processEach_cost (files w) (List.filter notCompleted (files w))
              (snd (setIsProcessing true w))) as (Hsame & _).
  apply Forall2_same_length_lookup. split.
  - rewrite (runBatch_unfold env w Hp). cbn [setIsProcessing snd log files] in *.
    now apply Forall2_length in Hsame.
  - intros i f f' Hf Hf'.
    destruct (runBatch_item env w i f Hp Hnd Hf) as (f0 & Hf0 & H1 & H2).
    rewrite Hf0 in Hf'. injection Hf' as <-. now split.
Qed.

Lemma status_applied (out : string) (n : nat) (f : ProgramFile) :
  status (processed env out n f) = COMPLETED \/ status (processed env out n f) = ERROR.
Proof.
  rewrite status_processed. destruct (terminalRefs env (id f)); [| now left].
  destruct (toPng env n (id f)); [now left | now right].
Qed.

Lemma isProcessing_runBatch (w : World) :
  isProcessing w = false -> isProcessing (runBatch env w) = false.
Proof. intros Hp. now rewrite (runBatch_unfold env w Hp). Qed.

End BatchFacts.

(** X11: a batch run never adds, removes or reorders items and never
    changes the id, the name, the content or the language of an item; it
    leaves the processing flag as it found it.  This holds for every
    session, whatever the services answer. *)
Theorem runBatch_keeps_sources (env : Env) (w : World) :
  Forall2 sameSource (files w) (files (runBatch env w)) /\
  length (files (runBatch env w)) = length (files w) /\
  map id (files (runBatch env w)) = map id (files w) /\
  isProcessing (runBatch env w) = isProcessing w.
Proof.
  assert (H : Forall2 sameSource (files w) (files (runBatch env w))
              /\ isProcessing (runBatch env w) = isProcessing w).
  { destruct (isProcessing w) eqn:Hp.
    - unfold runBatch, processAll. rewrite Hp. cbn.
      split; [apply Forall2_sameSource_refl | exact Hp].
    - rewrite (runBatch_unfold env w Hp). cbn [setIsProcessing snd log files isProcessing].
      split; [| reflexivity].
      match goal with |- context [processEach env ?l0 ?todo ?w1] =>
        destruct (processEach_cost env l0 todo w1) as (Hsame & _)
      end.
      exact Hsame. }
  destruct H as [Hsame Hflag].
  split; [exact Hsame |]. split; [symmetry; now apply Forall2_length in Hsame |].
  split; [| exact Hflag].
  clear Hflag. induction Hsame as [|f f' l l' (Hid & _) _ IH]; [reflexivity |].
  cbn. now rewrite Hid, IH.
Qed.

(** X12: a batch run over [n] unfinished items makes at most [4 n] remote
    calls and at most [n] captures, and is suspended for at most [12000 n]
    ms in all (per item: 10500 ms of backoff, 800 ms before the capture and
    700 ms before the next item), whatever the services answer. *)
Theorem runBatch_cost (env : Env) (w : World) :
  exists evs,
    trace (runBatch env w) = trace w ++ evs /\
    (length (remoteCalls evs) <= 4 * length (List.filter notCompleted (files w)))%nat /\
    (length (captureCalls evs) <= length (List.filter notCompleted (files w)))%nat /\
    (0 <= totalSleep evs
     <= 12000 * Z.of_nat (length (List.filter notCompleted (files w))))%Z.
Proof.
  destruct (isProcessing w) eqn:Hp.
  - exists []. unfold runBatch, processAll. rewrite Hp. cbn.
    rewrite app_nil_r. repeat split; lia.
  - rewrite (runBatch_unfold env w Hp). cbn [setIsProcessing snd log trace].
    match goal with |- context [processEach env ?l0 ?todo ?w1] =>
      destruct (processEach_cost env l0 todo w1) as (_ & _ & evs & Ht & Hr & Hc & Hs)
    end.
    exists ([EvSetIsProcessing true] ++ evs ++ [EvSetIsProcessing false]).
    rewrite Ht. cbn [trace log]. rewrite <- !app_assoc.
    rewrite !remoteCalls_app, !captureCalls_app, !totalSleep_app, !length_app.
    cbn [length remoteCalls captureCalls totalSleep app].
    repeat split; lia.
Qed.

(** X13: after a batch run that started (no run in progress, distinct
    ids) every item is COMPLETED or in ERROR, none is left PENDING or
    RUNNING, and the processing flag is down again. *)
Theorem runBatch_settles (env : Env) (w : World) :
  isProcessing w = false ->
  List.NoDup (map id (files w)) ->
  isProcessing (runBatch env w) = false /\
  List.Forall (fun f' => status f' = COMPLETED \/ status f' = ERROR)
    (files (runBatch env w)).
Proof.
  intros Hp Hnd. split; [now apply isProcessing_runBatch |].
  pose proof (runBatch_items env w Hp Hnd) as H.
  apply List.Forall_forall. intros f' Hin.
  apply list_elem_of_In in Hin. apply list_elem_of_lookup in Hin as [i Hi].
  destruct (Forall2_lookup_r _ _ _ _ _ H Hi) as (f & Hf & Hproc & Hsame).
  destruct (notCompleted f) eqn:E.
  - destruct (Hproc eq_refl) as (out & n & ->). apply status_applied.
  - rewrite (Hsame eq_refl). left. unfold notCompleted in E. now destruct (status f).
Qed.

(** X13, for the batch of two finished and two unfinished items. *)
Lemma runBatch_settles_witness :
  List.Forall (fun f' => status f' = COMPLETED \/ status f' = ERROR)
    (files (runBatch (service 0 quotaError "hello" ["d"]) mixedBatch)).
Proof.
  refine (proj2 (runBatch_settles (service 0 quotaError "hello" ["d"]) mixedBatch
                   eq_refl _)).
  cbn. repeat (constructor; [cbn; intuition discriminate |]). constructor.
Defined.

(** X14: a batch run keeps the items consistent: when before the run every
    item that is COMPLETED or in ERROR has an output and only COMPLETED
    items carry an image, the same holds after it.  Items that are not
    COMPLETED therefore never carry an image. *)
Theorem runBatch_consistent (env : Env) (w : World) :
  isProcessing w = false ->
  List.NoDup (map id (files w)) ->
  List.Forall consistent (files w) ->
  List.Forall consistent (files (runBatch env w)).
Proof.
  intros Hp Hnd Hall.
  pose proof (runBatch_items env w Hp Hnd) as H.
  apply List.Forall_forall. intros f' Hin.
  apply list_elem_of_In in Hin. apply list_elem_of_lookup in Hin as [i Hi].
  destruct (Forall2_lookup_r _ _ _ _ _ H Hi) as (f & Hf & Hproc & Hsame).
  assert (Hcf : consistent f).
  { rewrite List.Forall_forall in Hall. apply Hall.
    apply list_elem_of_In. apply list_elem_of_lookup. now exists i. }
  destruct (notCompleted f) eqn:E; [| now rewrite (Hsame eq_refl)].
  destruct (Hproc eq_refl) as (out & n & ->).
  destruct Hcf as [_ Himg]. split.
  - intros _. now rewrite output_processed.
  - rewrite imageBlob_processed, status_processed.
    destruct (terminalRefs env (id f)); [destruct (toPng env n (id f)) |];
      intros Hi'; try reflexivity.
    apply Himg in Hi'. unfold notCompleted in E. rewrite Hi' in E. discriminate.
Qed.

(** X14, for five fresh items of which the third cannot be captured. *)
Lemma runBatch_consistent_witness :
  List.Forall consistent (files (runBatch (service 0 quotaError "hello" ["c"]) fiveItems)).
Proof.
  apply runBatch_consistent.
  - reflexivity.
  - cbn. repeat (constructor; [cbn; intuition discriminate |]). constructor.
  - repeat constructor; cbn; intuition discriminate.
Defined.

(** X15: when no capture throws, a batch run that started leaves every item
    COMPLETED, and a second run, with whatever services, changes no item and
    makes neither a remote call nor a capture. *)
Theorem runBatch_twice (env env' : Env) (w : World) :
  isProcessing w = false ->
  List.NoDup (map id (files w)) ->
  (forall n fileId, terminalRefs env fileId = true -> toPng env n fileId <> None) ->
  List.Forall (fun f' => status f' = COMPLETED) (files (runBatch env w)) /\
  files (runBatch env' (runBatch env w)) = files (runBatch env w) /\
  requests (runBatch env' (runBatch env w)) = requests (runBatch env w) /\
  captures (runBatch env' (runBatch env w)) = captures (runBatch env w).
Proof.
  intros Hp Hnd Hcap.
  assert (Hall : List.Forall (fun f' => status f' = COMPLETED) (files (runBatch env w))).
  { pose proof (runBatch_items env w Hp Hnd) as H.
    apply List.Forall_forall. intros f' Hin.
    apply list_elem_of_In in Hin. apply list_elem_of_lookup in Hin as [i Hi].
    destruct (Forall2_lookup_r _ _ _ _ _ H Hi) as (f & Hf & Hproc & Hsame).
    destruct (notCompleted f) eqn:E.
    - destruct (Hproc eq_refl) as (out & n & ->). rewrite status_processed.
      destruct (terminalRefs env (id f)) eqn:Href; [| reflexivity].
      destruct (toPng env n (id f)) eqn:Ecap; [reflexivity |].
      now apply Hcap in Ecap.
    - rewrite (Hsame eq_refl). unfold notCompleted in E. now destruct (status f). }
  split; [exact Hall |].
  rewrite (runBatch_unfold env' (runBatch env w) (isProcessing_runBatch env w Hp)).
  rewrite (filter_notCompleted_nil _ Hall). repeat split.
Qed.

(** X15, for a batch whose captures all succeed. *)
Lemma runBatch_twice_witness :
  files (runBatch (service 4 quotaError "x" [])
           (runBatch (service 0 quotaError "hello" []) mixedBatch))
  = files (runBatch (service 0 quotaError "hello" []) mixedBatch).
Proof.
  refine (proj1 (proj2 (runBatch_twice (service 0 quotaError "hello" [])
                          (service 4 quotaError "x" []) mixedBatch eq_refl _ _))).
  - cbn. repeat (constructor; [cbn; intuition discriminate |]). constructor.
  - intros n fileId _. discriminate.
Defined.

(** X16: when the item has been removed from the state after the render
    whose closure is running, [processSingleFile] still builds the client
    and, when that succeeds, calls the remote service for the item, but its
    write-backs find no item and leave the state as it is. *)
Theorem processSingleFile_removed (env : Env) (files0 : list ProgramFile)
  (fileId : string) (file : ProgramFile) (w : World) :
  List.find (fun f => String.eqb (id f) fileId) files0 = Some file ->
  files w = removeFile files0 fileId ->
  newClient env (clients w) = None ->
  files (snd (processSingleFile env files0 fileId w)) = removeFile files0 fileId /\
  (requests w < requests (snd (processSingleFile env files0 fileId w)))%nat.
Proof.
  intros Hfind Hw Hclient.
  destruct (processSingleFile_spec env files0 fileId file w Hfind)
    as (k & Hk & H1 & _ & ->).
  specialize (H1 Hclient).
  cbn [files requests]. split; [| lia].
  rewrite Hw. unfold removeFile.
  rewrite <- (map_id (List.filter _ files0)) at 2.
  apply map_ext_in. intros f Hin. apply List.filter_In in Hin as [_ Hne].
  unfold processedIfId. apply negb_true_iff in Hne. now rewrite Hne.
Qed.

(** X16, for the second item of a batch, removed before its turn. *)
Lemma processSingleFile_removed_witness :
  files (snd (processSingleFile (service 0 quotaError "hello" []) (files mixedBatch) "b"
                (session (removeFile (files mixedBatch) "b"))))
  = removeFile (files mixedBatch) "b".
Proof.
  refine (proj1 (processSingleFile_removed (service 0 quotaError "hello" [])
                   (files mixedBatch) "b" (item "b" "b.py" PENDING)
                   (session (removeFile (files mixedBatch) "b")) _ _ _)); reflexivity.
Defined.

(** * Upload *)

Section Upload.

Lemma toLowerCase_nonempty (s : string) : s <> "" -> toLowerCase s <> "".
Proof. destruct s; [congruence | discriminate]. Qed.

Lemma newFiles_names (randomId : nat -> string) (names : list string) :
  forall k, map name (newFiles randomId k names) = names.
Proof. induction names as [|n names IH]; intros k; cbn; [reflexivity | now rewrite IH]. Qed.

Lemma newFiles_fresh (randomId : nat -> string) (names : list string) :
  forall k, List.Forall (fun n => accepted n = true) names ->
            List.Forall fresh (newFiles randomId k names).
Proof.
  induction names as [|n names IH]; intros k H; cbn; [constructor |].
  inversion H as [|? ? Hn Hrest]; subst.
  constructor; [repeat split; exact Hn | now apply IH].
Qed.

Lemma fresh_consistent (f : ProgramFile) : fresh f -> consistent f.
Proof.
  intros (Hs & _ & _ & Hi & _). split.
  - rewrite Hs. intros [H | H]; discriminate.
  - intros H. congruence.
Qed.

End Upload.

(** X17: the language tag of an uploaded file is the lower-case form of the
    text after the last dot of its name; it is "text" when the name ends in
    a dot; for a name without a dot it is the lower-case form of the whole
    name, not "text". *)
Theorem languageOf_extension (a b : string) :
  JS.includes "." b = false ->
  b <> "" ->
  languageOf (a +:+ "." +:+ b) = toLowerCase b /\
  languageOf b = toLowerCase b /\
  languageOf (a +:+ ".") = "text".
Proof.
  intros Hb Hne. unfold languageOf, JS.pop.
  assert (Hlow : JS.or_else (toLowerCase b) "text" = toLowerCase b).
  { destruct b; [congruence | reflexivity]. }
  repeat split.
  - change (a +:+ "." +:+ b) with (a +:+ String "." b).
    destruct (split_at_separator "." a b) as (seg & segs & ->).
    rewrite (split_absent _ _ Hb), app_comm_cons, last_snoc. exact Hlow.
  - rewrite (split_absent _ _ Hb). exact Hlow.
  - change (a +:+ ".") with (a +:+ String "." "").
    destruct (split_at_separator "." a "") as (seg & segs & ->).
    cbn [JS.split]. rewrite app_comm_cons, last_snoc. reflexivity.
Qed.

(** X17, for INDEX.HTML, which is taken for markup, and for Makefile. *)
Lemma languageOf_extension_witness :
  languageOf "INDEX.HTML" = "html" /\ languageOf "Makefile" = "makefile".
Proof.
  split.
  - exact (proj1 (languageOf_extension "INDEX" "HTML" eq_refl ltac:(discriminate))).
  - exact (proj1 (proj2 (languageOf_extension "x" "Makefile" eq_refl ltac:(discriminate)))).
Defined.

(** X18: an upload keeps the items that are there, in their order, and
    appends one item per uploaded file whose name neither starts with a dot
    nor holds "DS_Store", in the order of the upload; each new item is
    PENDING, without content, output and image.  Consistent items stay
    consistent. *)
Theorem handleFileUpload_appends (randomId : nat -> string) (uploaded : list string)
  (prev : list ProgramFile) :
  take (length prev) (handleFileUpload randomId uploaded prev) = prev /\
  map name (drop (length prev) (handleFileUpload randomId uploaded prev))
  = List.filter accepted uploaded /\
  List.Forall fresh (drop (length prev) (handleFileUpload randomId uploaded prev)) /\
  (List.Forall consistent prev ->
   List.Forall consistent (handleFileUpload randomId uploaded prev)).
Proof.
  unfold handleFileUpload.
  assert (Hfresh : List.Forall fresh
                     (newFiles randomId 0 (List.filter accepted uploaded))).
  { apply newFiles_fresh. apply List.Forall_forall. intros n Hn.
    now apply List.filter_In in Hn as [_ Hn]. }
  rewrite take_app_length, drop_app_length, newFiles_names.
  repeat split; [exact Hfresh |].
  intros Hprev. apply List.Forall_app. split; [exact Hprev |].
  eapply List.Forall_impl; [| exact Hfresh]. intros f. apply fresh_consistent.
Qed.

(** X19: the text read from a file goes to the first item that has the name
    of the file and no content yet, and to no other: the items before it
    and after it are left as they are, an item that has content is never
    overwritten, and when no item of that name is empty nothing changes.
    With two items of one name, the text lands in the first empty one,
    whichever file it was read from. *)
Theorem onload_first_empty (fileName text : string) (pre : list ProgramFile) :
  (forall g, In g pre -> name g <> fileName \/ content g <> "") ->
  onload fileName text pre = pre /\
  forall f rest,
    name f = fileName -> content f = "" ->
    onload fileName text (pre ++ f :: rest) = pre ++ withContent text f :: rest.
Proof.
  intros Hpre.
  assert (Hskip : forall g, In g pre ->
            String.eqb (name g) fileName && String.eqb (content g) "" = false).
  { intros g Hg. destruct (Hpre g Hg) as [H | H].
    - apply String.eqb_neq in H. now rewrite H.
    - apply String.eqb_neq in H. rewrite H. apply andb_false_r. }
  clear Hpre. induction pre as [|g pre IH].
  - split; [reflexivity |]. intros f rest Hn Hc. cbn.
    now rewrite Hn, Hc, !String.eqb_refl.
  - destruct IH as [IH1 IH2]; [intros g' Hg'; apply Hskip; now right |].
    cbn. rewrite (Hskip g (or_introl eq_refl)). split; [now rewrite IH1 |].
    intros f rest Hn Hc. now rewrite (IH2 f rest Hn Hc).
Qed.

(** X19, for two files called main.py of which the first is empty: the text
    of the second is put into the item of the first. *)
Lemma onload_first_empty_witness :
  onload "main.py" "print(2)" [newFile "a" "main.py"; newFile "b" "main.py"]
  = [withContent "print(2)" (newFile "a" "main.py"); newFile "b" "main.py"].
Proof.
  refine (proj2 (onload_first_empty "main.py" "print(2)" [] _)
            (newFile "a" "main.py") [newFile "b" "main.py"] eq_refl eq_refl).
  intros g [].
Defined.

(** X18, for an upload of three files of which one is hidden. *)
Lemma handleFileUpload_appends_witness :
  map name (handleFileUpload drawnIds uploadedNames (files mixedBatch))
  = ["a.py"; "b.py"; "c.py"; "d.py"; "Main.java"; "INDEX.HTML"] /\
  List.Forall fresh
    (drop (length (files mixedBatch))
       (handleFileUpload drawnIds uploadedNames (files mixedBatch))).
Proof.
  split; [reflexivity |].
  exact (proj1 (proj2 (proj2 (handleFileUpload_appends drawnIds uploadedNames
                                (files mixedBatch))))).
Defined.


(** * The archive library *)

Section ZipPaths.

Lemma endsWithSlash_app (a x : string) :
  x <> "" -> endsWithSlash (a +:+ x) = endsWithSlash x.
Proof.
  intros Hx. induction a as [|c a IH]; [reflexivity |].
  change (String c a +:+ x) with (String c (a +:+ x)). cbn [endsWithSlash].
  destruct (a +:+ x) eqn:E; [| exact IH].
  destruct a; [cbn in E; congruence | discriminate].
Qed.

Lemma endsWithSlash_plain (x : string) :
  JS.includes "/" x = false -> endsWithSlash x = false.
Proof.
  induction x as [|c x IH]; intros H; [reflexivity |].
  rewrite includes_cons in H. apply orb_false_elim in H as [Hc Hx].
  cbn [JS.startsWith] in Hc. rewrite andb_true_r in Hc.
  cbn [endsWithSlash]. destruct x; [now rewrite Ascii.eqb_sym | now apply IH].
Qed.

Lemma forceTrailingSlash_plain (x : string) :
  JS.includes "/" x = false -> forceTrailingSlash x = x +:+ "/".
Proof. intros H. unfold forceTrailingSlash. now rewrite endsWithSlash_plain. Qed.

(** A folder whose name has no slash has no parent. *)
Lemma parentFolder_top (x : string) :
  JS.includes "/" x = false -> parentFolder (x +:+ "/") = "".
Proof.
  intros H. unfold parentFolder.
  rewrite endsWithSlash_app by discriminate.
  change (endsWithSlash "/") with true. cbn iota.
  replace (Z.of_nat (String.length (x +:+ "/")) - 1)%Z with (Z.of_nat (String.length x))
    by (rewrite length_append; cbn [String.length]; lia).
  rewrite substring_head, (lastIndexOf_absent _ _ H). reflexivity.
Qed.

(** The parent of a path whose last part has no slash is what stands
    before that part. *)
Lemma parentFolder_inside (a x : string) :
  a <> "" -> x <> "" -> JS.includes "/" x = false ->
  parentFolder ((a +:+ "/") +:+ x) = a.
Proof.
  intros Ha Hx H. unfold parentFolder.
  rewrite endsWithSlash_app by exact Hx. rewrite (endsWithSlash_plain _ H).
  rewrite append_assoc. change ("/" +:+ x) with (String "/" x).
  rewrite (lastIndexOf_last _ _ _ H), substring_head.
  destruct a; [congruence | reflexivity].
Qed.

Lemma folderAdd_present (name : string) (files : gmap string ZipEntry) :
  is_Some (files !! forceTrailingSlash name) -> folderAdd name files = files.
Proof.
  intros [e He]. unfold folderAdd.
  destruct (String.length name); cbn [folderAdd_from]; now rewrite He.
Qed.

Lemma folderAdd_top (name : string) (files : gmap string ZipEntry) :
  JS.includes "/" name = false ->
  files !! (name +:+ "/") = None ->
  folderAdd name files = <[name +:+ "/" := ZipDir]> files.
Proof.
  intros H Hnew. unfold folderAdd.
  destruct (String.length name); cbn [folderAdd_from];
    rewrite (forceTrailingSlash_plain _ H), Hnew, (parentFolder_top _ H); reflexivity.
Qed.

(** What is in the archive stays there when a folder is added. *)
Lemma folderAdd_from_keeps (fuel : nat) :
  forall (name : string) (files : gmap string ZipEntry) (path : string) (e : ZipEntry),
    files !! path = Some e -> folderAdd_from fuel name files !! path = Some e.
Proof.
  induction fuel as [|fuel IH]; intros name files path e He; cbn [folderAdd_from];
    destruct (files !! forceTrailingSlash name) eqn:E; try exact He;
    (rewrite lookup_insert_ne; [| intros Heq; rewrite Heq in E; congruence]).
  - now destruct (parentFolder (forceTrailingSlash name)).
  - destruct (parentFolder (forceTrailingSlash name)); [exact He | now apply IH].
Qed.

(** The folder asked for is there afterwards. *)
Lemma folderAdd_from_there (fuel : nat) (name : string) (files : gmap string ZipEntry) :
  is_Some (folderAdd_from fuel name files !! forceTrailingSlash name).
Proof.
  destruct fuel; cbn [folderAdd_from];
    destruct (files !! forceTrailingSlash name) eqn:E;
    rewrite ?E, ?lookup_insert_eq; eauto.
Qed.

Lemma lastIndexOf_bounds (c : ascii) (s : string) :
  (-1 <= JS.lastIndexOf c s < Z.of_nat (String.length s))%Z.
Proof.
  induction s as [|a s IH]; cbn [JS.lastIndexOf String.length]; [lia |].
  destruct (0 <=? JS.lastIndexOf c s)%Z eqn:E; [lia |].
  destruct (Ascii.eqb a c); lia.
Qed.

Lemma length_substring_0 (s : string) (m : nat) :
  (m <= String.length s)%nat -> String.length (String.substring 0 m s) = m.
Proof.
  revert m; induction s as [|a s IH]; intros m Hm.
  - cbn in Hm. destruct m; [reflexivity | lia].
  - destruct m as [|m]; [reflexivity |]. cbn [String.substring String.length].
    rewrite IH; [reflexivity | cbn in Hm; lia].
Qed.

Lemma length_substring (s : string) (n : Z) :
  (0 <= n <= Z.of_nat (String.length s))%Z ->
  String.length (JS.substring s 0 n) = Z.to_nat n.
Proof.
  intros Hn. unfold JS.substring.
  replace (Z.min (Z.max 0 0) (Z.of_nat (String.length s))) with 0%Z by lia.
  replace (Z.min (Z.max n 0) (Z.of_nat (String.length s))) with n by lia.
  replace (Z.min 0 n) with 0%Z by lia. replace (Z.max 0 n) with n by lia.
  rewrite Z.sub_0_r. cbn [Z.to_nat]. apply length_substring_0. lia.
Qed.

Lemma endsWithSlash_force (name : string) : endsWithSlash (forceTrailingSlash name) = true.
Proof.
  unfold forceTrailingSlash. destruct (endsWithSlash name) eqn:E; [exact E |].
  now rewrite endsWithSlash_app by discriminate.
Qed.

Lemma length_force (name : string) :
  (1 <= String.length (forceTrailingSlash name) <= S (String.length name))%nat.
Proof.
  unfold forceTrailingSlash. destruct (endsWithSlash name) eqn:E.
  - destruct name; [discriminate | cbn [String.length]; lia].
  - rewrite length_append. cbn [String.length]. lia.
Qed.

(** The parent of a folder has a shorter name than the folder. *)
Lemma length_parentFolder (name : string) :
  parentFolder (forceTrailingSlash name) <> "" ->
  (String.length (parentFolder (forceTrailingSlash name)) < String.length name)%nat.
Proof.
  unfold parentFolder. rewrite endsWithSlash_force.
  pose proof (length_force name) as Hlen.
  set (path := JS.substring (forceTrailingSlash name) 0
                 (Z.of_nat (String.length (forceTrailingSlash name)) - 1)).
  assert (Hpath : String.length path = (String.length (forceTrailingSlash name) - 1)%nat).
  { subst path. rewrite length_substring by lia. lia. }
  pose proof (lastIndexOf_bounds "/" path) as Hlast.
  destruct (0 <? JS.lastIndexOf "/" path)%Z eqn:E; [| congruence].
  apply Z.ltb_lt in E. intros _. rewrite length_substring by lia. lia.
Qed.

(** More fuel than the length of the name changes nothing. *)
Lemma folderAdd_from_fuel (fuel : nat) :
  forall (fuel' : nat) (name : string) (files : gmap string ZipEntry),
    (String.length name <= fuel)%nat -> (String.length name <= fuel')%nat ->
    folderAdd_from fuel name files = folderAdd_from fuel' name files.
Proof.
  induction fuel as [|fuel IH]; intros fuel' name files H1 H2.
  - destruct fuel' as [|fuel']; [reflexivity |]. cbn [folderAdd_from].
    destruct (files !! forceTrailingSlash name); [reflexivity |].
    pose proof (length_parentFolder name) as Hp.
    destruct (parentFolder (forceTrailingSlash name)); [reflexivity |].
    specialize (Hp ltac:(discriminate)). lia.
  - cbn [folderAdd_from].
    pose proof (length_parentFolder name) as Hp.
    destruct fuel' as [|fuel']; cbn [folderAdd_from];
      destruct (files !! forceTrailingSlash name); try reflexivity;
      destruct (parentFolder (forceTrailingSlash name)) as [|c p] eqn:E; try reflexivity;
      specialize (Hp ltac:(discriminate)); [lia |].
    f_equal. apply IH; lia.
Qed.

End ZipPaths.

(** * The archive builder *)

Section Archive.

Variable cfg : NamingConfig.

Lemma append_eq_self (a b : string) : a +:+ b = a -> b = "".
Proof.
  induction a as [|c a IH]; intros H; [exact H |].
  cbn in H. injection H as H. now apply IH.
Qed.

Lemma slashes_plain (x : string) : JS.includes "/" x = false -> slashes x = 0%nat.
Proof.
  induction x as [|c x IH]; intros H; [reflexivity |].
  rewrite includes_cons in H. apply orb_false_elim in H as [Hc Hx].
  cbn [JS.startsWith] in Hc. rewrite andb_true_r, Ascii.eqb_sym in Hc.
  cbn [slashes]. rewrite Hc. now apply IH.
Qed.

Lemma slashes_append (a b : string) : slashes (a +:+ b) = (slashes a + slashes b)%nat.
Proof.
  induction a as [|c a IH]; [reflexivity |].
  change (String c a +:+ b) with (String c (a +:+ b)). cbn [slashes].
  destruct (Ascii.eqb c "/"); rewrite IH; reflexivity.
Qed.

(** Paths below two different folders without slash in their names
    differ. *)
Lemma other_folder (a b x y : string) :
  JS.includes "/" a = false -> JS.includes "/" b = false ->
  (a +:+ "/") +:+ x = (b +:+ "/") +:+ y -> a = b.
Proof.
  intros Ha Hb E. rewrite !append_assoc in E.
  change ("/" +:+ x) with (String "/" x) in E. change ("/" +:+ y) with (String "/" y) in E.
  now apply before_first_char in E.
Qed.

Lemma startsWith_other_folder (a b x : string) :
  JS.includes "/" a = false -> JS.includes "/" b = false -> a <> b ->
  JS.startsWith (a +:+ "/") ((b +:+ "/") +:+ x) = false.
Proof.
  intros Ha Hb Hne.
  destruct (JS.startsWith (a +:+ "/") ((b +:+ "/") +:+ x)) eqn:E; [| reflexivity].
  apply startsWith_inv in E as [r E]. symmetry in E.
  now apply other_folder in E.
Qed.

(** A file written below a folder that is there. *)
Lemma fileAdd_inside (a x : string) (data : ZipData) (files : gmap string ZipEntry) :
  a <> "" -> x <> "" -> JS.includes "/" x = false ->
  is_Some (files !! forceTrailingSlash a) ->
  fileAdd ((a +:+ "/") +:+ x) data files = <[(a +:+ "/") +:+ x := ZipFile data]> files.
Proof.
  intros Ha Hx H Hthere. unfold fileAdd. rewrite (parentFolder_inside a x Ha Hx H).
  destruct a as [|c a]; [congruence |]. now rewrite folderAdd_present.
Qed.

Lemma png_plain (x : string) :
  JS.includes "/" x = false ->
  x +:+ ".png" <> "" /\ JS.includes "/" (x +:+ ".png") = false.
Proof.
  intros H. split; [destruct x; discriminate |].
  now rewrite includes_char_app, H.
Qed.

(** Into an archive that has no folder of that name yet, [addToZip] puts
    the entries of the item, and nothing else. *)
Lemma addToZip_plain (zip : JSZip) (index : nat) (file : ProgramFile) :
  plainNames cfg index file ->
  zip_files zip !! (formatName cfg (folderPattern cfg) file index +:+ "/") = None ->
  zip_files (addToZip cfg zip index file)
  = list_to_map (reverse (entriesOf cfg index file)) ∪ zip_files zip.
Proof.
  intros (Hne & Hf & Hn & Hns & Hs & Hpng) Hnew.
  destruct (png_plain _ Hs) as [Hp1 Hp2].
  unfold addToZip, entriesOf, zip_folder.
  destruct (formatName cfg (folderPattern cfg) file index) as [|c s] eqn:EF;
    [congruence |].
  rewrite <- EF in *. clear c s EF.
  rewrite (forceTrailingSlash_plain _ Hf), (folderAdd_top _ _ Hf Hnew).
  unfold folder_file. cbn [zip_files].
  rewrite (fileAdd_inside _ _ _ _ Hne Hn Hns)
    by (rewrite (forceTrailingSlash_plain _ Hf), lookup_insert_eq; eauto).
  destruct (imageBlob file) as [blob|]; cbn [zip_files].
  - rewrite (fileAdd_inside _ _ _ _ Hne Hp1 Hp2).
    + cbn [reverse rev_append]. rewrite !list_to_map_cons, list_to_map_nil. cbn [fst snd].
      rewrite <- !insert_union_l. now rewrite (left_id ∅ (∪)).
    + rewrite (forceTrailingSlash_plain _ Hf).
      rewrite lookup_insert_ne, lookup_insert_eq; [eauto |].
      intros E. apply append_eq_self in E. congruence.
  - cbn [reverse rev_append]. rewrite !list_to_map_cons, list_to_map_nil. cbn [fst snd].
    rewrite <- !insert_union_l. now rewrite (left_id ∅ (∪)).
Qed.

Lemma plainFrom_cons (k : nat) (a : ProgramFile) (l : list ProgramFile) :
  plainFrom cfg k (a :: l) -> plainNames cfg k a /\ plainFrom cfg (S k) l.
Proof.
  intros H. split.
  - specialize (H 0%nat a eq_refl). now rewrite Nat.add_0_r in H.
  - intros i f Hf. specialize (H (S i) f Hf). now rewrite Nat.add_succ_r in H.
Qed.

Lemma distinctFrom_cons (k : nat) (a : ProgramFile) (l : list ProgramFile) :
  distinctFrom cfg k (a :: l) ->
  (forall i f, l !! i = Some f ->
     formatName cfg (folderPattern cfg) a k
     <> formatName cfg (folderPattern cfg) f (S k + i)) /\
  distinctFrom cfg (S k) l.
Proof.
  intros H. split.
  - intros i f Hf E. specialize (H 0%nat (S i) a f eq_refl Hf).
    rewrite Nat.add_0_r, Nat.add_succ_r in H. specialize (H E). lia.
  - intros i j f g Hf Hg E. specialize (H (S i) (S j) f g Hf Hg).
    rewrite !Nat.add_succ_r in H. specialize (H E). lia.
Qed.

(** Every path of an item lies below its folder. *)
Lemma keys_entriesOf (k : nat) (a : ProgramFile) (p : string) :
  p ∈ (entriesOf cfg k a).*1 ->
  exists r, p = (formatName cfg (folderPattern cfg) a k +:+ "/") +:+ r.
Proof.
  unfold entriesOf. destruct (imageBlob a); cbn; intros H;
    repeat (apply elem_of_cons in H as [-> | H]);
    try (apply elem_of_nil in H; destruct H); eauto.
  all: exists ""; now rewrite append_nil_r.
Qed.

Lemma keys_layout_item (l : list ProgramFile) :
  forall (k : nat) (p : string),
    p ∈ (layout cfg k l).*1 ->
    exists j g, l !! j = Some g /\ p ∈ (entriesOf cfg (k + j) g).*1.
Proof.
  induction l as [|a l IH]; intros k p H; [cbn in H; apply elem_of_nil in H; destruct H |].
  cbn [layout] in H. rewrite fmap_app in H. apply elem_of_app in H as [H | H].
  - exists 0%nat, a. now rewrite Nat.add_0_r.
  - apply IH in H as (j & g & Hg & H). exists (S j), g.
    now rewrite Nat.add_succ_r.
Qed.

Lemma keys_layout (l : list ProgramFile) (k : nat) (p : string) :
  p ∈ (layout cfg k l).*1 ->
  exists j g r, l !! j = Some g /\
    p = (formatName cfg (folderPattern cfg) g (k + j) +:+ "/") +:+ r.
Proof.
  intros H. apply keys_layout_item in H as (j & g & Hg & H).
  apply keys_entriesOf in H as [r ->]. now exists j, g, r.
Qed.

Lemma entries_in_layout (l : list ProgramFile) :
  forall (k i : nat) (f : ProgramFile) (e : string * ZipEntry),
    l !! i = Some f -> e ∈ entriesOf cfg (k + i) f -> e ∈ layout cfg k l.
Proof.
  induction l as [|a l IH]; intros k i f e Hf He; [discriminate |].
  cbn [layout]. apply elem_of_app. destruct i as [|i].
  - cbn in Hf. injection Hf as ->. rewrite Nat.add_0_r in He. now left.
  - right. apply (IH (S k) i f e Hf). now rewrite Nat.add_succ_r in He.
Qed.

Lemma NoDup_entriesOf (k : nat) (a : ProgramFile) :
  plainNames cfg k a -> NoDup (entriesOf cfg k a).*1.
Proof.
  intros (Hne & Hf & Hn & Hns & Hs & Hpng). unfold entriesOf.
  assert (H1 : formatName cfg (folderPattern cfg) a k +:+ "/"
               <> (formatName cfg (folderPattern cfg) a k +:+ "/") +:+ name a).
  { intros E. symmetry in E. apply append_eq_self in E. congruence. }
  destruct (imageBlob a); cbn.
  - assert (H2 : formatName cfg (folderPattern cfg) a k +:+ "/"
                 <> (formatName cfg (folderPattern cfg) a k +:+ "/")
                    +:+ formatName cfg (screenshotPattern cfg) a k +:+ ".png").
    { intros E. symmetry in E. apply append_eq_self in E.
      destruct (formatName cfg (screenshotPattern cfg) a k); discriminate. }
    assert (H3 : (formatName cfg (folderPattern cfg) a k +:+ "/") +:+ name a
                 <> (formatName cfg (folderPattern cfg) a k +:+ "/")
                    +:+ formatName cfg (screenshotPattern cfg) a k +:+ ".png").
    { intros E. apply (inj (String.app _)) in E. congruence. }
    rewrite !NoDup_cons, !not_elem_of_cons.
    repeat split; try apply not_elem_of_nil; try apply NoDup_nil_2; assumption.
  - rewrite !NoDup_cons, !not_elem_of_cons.
    repeat split; try apply not_elem_of_nil; try apply NoDup_nil_2; assumption.
Qed.

Lemma NoDup_layout (l : list ProgramFile) :
  forall k : nat,
    plainFrom cfg k l -> distinctFrom cfg k l -> NoDup (layout cfg k l).*1.
Proof.
  induction l as [|a l IH]; intros k Hplain Hdist; [constructor |].
  apply plainFrom_cons in Hplain as [Ha Hplain].
  apply distinctFrom_cons in Hdist as [Hother Hdist].
  cbn [layout]. rewrite fmap_app. apply NoDup_app.
  split; [now apply NoDup_entriesOf |]. split; [| now apply IH].
  intros p Hp Hp'. apply keys_entriesOf in Hp as [r ->].
  apply keys_layout in Hp' as (j & g & r' & Hg & E).
  apply other_folder in E.
  - now apply (Hother j g Hg).
  - apply Ha.
  - apply (Hplain j g Hg).
Qed.

Lemma written_layout (l : list ProgramFile) :
  forall k : nat, written cfg k l ≡ₚ layout cfg k l.
Proof.
  induction l as [|a l IH]; intros k; [reflexivity |].
  cbn [written layout]. rewrite IH, reverse_Permutation. apply Permutation_app_comm.
Qed.

(** The loop of [generateSubmissionZip], from the position [k] on. *)
Lemma forEach_written (l : list ProgramFile) :
  forall (k : nat) (zip : JSZip),
    plainFrom cfg k l -> distinctFrom cfg k l ->
    (forall i f, l !! i = Some f ->
       zip_files zip !! (formatName cfg (folderPattern cfg) f (k + i) +:+ "/") = None) ->
    zip_files (forEach_from cfg k l zip) = list_to_map (written cfg k l) ∪ zip_files zip.
Proof.
  induction l as [|a l IH]; intros k zip Hplain Hdist Hnew.
  - cbn. now rewrite (left_id ∅ (∪)).
  - apply plainFrom_cons in Hplain as [Ha Hplain].
    apply distinctFrom_cons in Hdist as [Hother Hdist].
    assert (Hnew0 : zip_files zip !! (formatName cfg (folderPattern cfg) a k +:+ "/") = None).
    { specialize (Hnew 0%nat a eq_refl). now rewrite Nat.add_0_r in Hnew. }
    cbn [forEach_from written]. rewrite IH; [| exact Hplain | exact Hdist |].
    + rewrite (addToZip_plain zip k a Ha Hnew0).
      now rewrite list_to_map_app, (assoc (∪)).
    + intros i f Hf. rewrite (addToZip_plain zip k a Ha Hnew0).
      apply lookup_union_None. split.
      * apply not_elem_of_list_to_map. rewrite reverse_Permutation.
        intros Hin. apply keys_entriesOf in Hin as [r E].
        rewrite <- (append_nil_r (_ +:+ "/")) in E at 1.
        apply other_folder in E.
        -- symmetry in E. now apply (Hother i f Hf).
        -- apply (Hplain i f Hf).
        -- apply Ha.
      * specialize (Hnew (S i) f Hf). now rewrite Nat.add_succ_r in Hnew.
Qed.

Lemma filter_length_Permutation {A : Type} (p : A -> bool) (l l' : list A) :
  l ≡ₚ l' -> length (List.filter p l) = length (List.filter p l').
Proof.
  induction 1 as [| x l l' _ IH | x y l | l l' l'' _ IH1 _ IH2]; cbn [List.filter].
  - reflexivity.
  - destruct (p x); cbn [length]; now rewrite IH.
  - destruct (p x), (p y); reflexivity.
  - now rewrite IH1.
Qed.

(** One folder at the top for every item. *)
Lemma topLevel_layout (l : list ProgramFile) :
  forall k : nat,
    plainFrom cfg k l ->
    length (List.filter isTopLevelFolder (layout cfg k l)) = length l.
Proof.
  induction l as [|a l IH]; intros k Hplain; [reflexivity |].
  apply plainFrom_cons in Hplain as [(_ & Hf & _) Hplain].
  cbn [layout]. rewrite List.filter_app, length_app, (IH (S k) Hplain).
  unfold entriesOf. cbn [List.filter].
  unfold isTopLevelFolder at 1. cbn [fst snd].
  rewrite slashes_append, (slashes_plain _ Hf). cbn [slashes Nat.add Nat.eqb].
  change (Ascii.eqb "/" "/") with true. cbn iota. cbn [Nat.eqb].
  destruct (imageBlob a); reflexivity.
Qed.

(** The files of an item lie in its folder, and in no other. *)
Lemma filesIn_entriesOf (k : nat) (a : ProgramFile) :
  length (List.filter (isFileIn (formatName cfg (folderPattern cfg) a k +:+ "/"))
            (entriesOf cfg k a))
  = match imageBlob a with Some _ => 2%nat | None => 1%nat end.
Proof.
  unfold entriesOf. cbn [List.filter]. unfold isFileIn. cbn [fst snd].
  rewrite startsWith_app. destruct (imageBlob a); cbn [List.filter fst snd];
    rewrite ?startsWith_app; reflexivity.
Qed.

Lemma filesIn_entriesOf_other (k : nat) (a : ProgramFile) (x : string) :
  JS.includes "/" x = false ->
  JS.includes "/" (formatName cfg (folderPattern cfg) a k) = false ->
  x <> formatName cfg (folderPattern cfg) a k ->
  List.filter (isFileIn (x +:+ "/")) (entriesOf cfg k a) = [].
Proof.
  intros Hx Hf Hne. unfold entriesOf. cbn [List.filter]. unfold isFileIn. cbn [fst snd].
  rewrite (startsWith_other_folder _ _ _ Hx Hf Hne).
  destruct (imageBlob a); cbn [List.filter fst snd];
    rewrite ?(startsWith_other_folder _ _ _ Hx Hf Hne); reflexivity.
Qed.

Lemma filesIn_other (l : list ProgramFile) :
  forall (k : nat) (x : string),
    JS.includes "/" x = false ->
    plainFrom cfg k l ->
    (forall j g, l !! j = Some g -> x <> formatName cfg (folderPattern cfg) g (k + j)) ->
    List.filter (isFileIn (x +:+ "/")) (layout cfg k l) = [].
Proof.
  induction l as [|a l IH]; intros k x Hx Hplain Hne; [reflexivity |].
  apply plainFrom_cons in Hplain as [(_ & Hf & _) Hplain].
  cbn [layout]. rewrite List.filter_app, filesIn_entriesOf_other, (IH (S k)).
  - reflexivity.
  - exact Hx.
  - exact Hplain.
  - intros j g Hg. specialize (Hne (S j) g Hg). now rewrite Nat.add_succ_r in Hne.
  - exact Hx.
  - exact Hf.
  - specialize (Hne 0%nat a eq_refl). now rewrite Nat.add_0_r in Hne.
Qed.

Lemma filesIn_layout (l : list ProgramFile) :
  forall (k i : nat) (f : ProgramFile),
    plainFrom cfg k l -> distinctFrom cfg k l ->
    l !! i = Some f ->
    length (List.filter (isFileIn (formatName cfg (folderPattern cfg) f (k + i) +:+ "/"))
              (layout cfg k l))
    = match imageBlob f with Some _ => 2%nat | None => 1%nat end.
Proof.
  induction l as [|a l IH]; intros k i f Hplain Hdist Hf; [discriminate |].
  pose proof (Hplain i f Hf) as (_ & Hslash & _).
  apply plainFrom_cons in Hplain as [(_ & Hfa & _) Hplain].
  apply distinctFrom_cons in Hdist as [Hother Hdist].
  cbn [layout]. rewrite List.filter_app, length_app. destruct i as [|i].
  - cbn in Hf. injection Hf as ->. rewrite Nat.add_0_r.
    rewrite filesIn_entriesOf, (filesIn_other l (S k)); [cbn [length]; lia | | |].
    + now rewrite Nat.add_0_r in Hslash.
    + exact Hplain.
    + exact Hother.
  - cbn in Hf. rewrite filesIn_entriesOf_other; [| exact Hslash | exact Hfa |].
    + cbn [length Nat.add]. rewrite Nat.add_succ_r. now apply (IH (S k) i f).
    + intros E. symmetry in E. rewrite Nat.add_succ_r in E. now apply (Hother i f Hf).
Qed.

(** The archive of a list of items with plain names and folder names that
    differ. *)
Lemma archive_of_plain (l : list ProgramFile) :
  plainFrom cfg 0 l -> distinctFrom cfg 0 l ->
  zip_files (generateSubmissionZip cfg l) = list_to_map (written cfg 0 l) /\
  NoDup (written cfg 0 l).*1 /\
  map_to_list (zip_files (generateSubmissionZip cfg l)) ≡ₚ layout cfg 0 l /\
  length (topLevelFolders (generateSubmissionZip cfg l)) = length l.
Proof.
  intros Hplain Hdist.
  assert (Hfiles : zip_files (generateSubmissionZip cfg l) = list_to_map (written cfg 0 l)).
  { unfold generateSubmissionZip.
    rewrite (forEach_written l 0 emptyZip Hplain Hdist).
    - cbn [emptyZip zip_files]. apply (right_id ∅ (∪)).
    - intros i f Hf. apply lookup_empty. }
  assert (Hnd : NoDup (written cfg 0 l).*1).
  { rewrite (written_layout l 0). now apply NoDup_layout. }
  assert (Hperm : map_to_list (zip_files (generateSubmissionZip cfg l)) ≡ₚ layout cfg 0 l).
  { rewrite Hfiles, (map_to_list_to_map _ Hnd). apply written_layout. }
  split; [exact Hfiles |]. split; [exact Hnd |]. split; [exact Hperm |].
  unfold topLevelFolders. rewrite (filter_length_Permutation _ _ _ Hperm).
  now apply topLevel_layout.
Qed.

(** *** For all names *)

(** A file that is in the archive stays a file, whatever is added. *)
Lemma fileAdd_keeps_file (name : string) (data : ZipData) (files : gmap string ZipEntry)
  (path : string) :
  (exists d, files !! path = Some (ZipFile d)) ->
  exists d, fileAdd name data files !! path = Some (ZipFile d).
Proof.
  intros [d Hd]. unfold fileAdd.
  destruct (decide (name = path)) as [-> | Hne].
  - rewrite lookup_insert_eq. eauto.
  - rewrite lookup_insert_ne by exact Hne. exists d.
    destruct (parentFolder name); [exact Hd |]. now apply folderAdd_from_keeps.
Qed.

Lemma fileAdd_there (name : string) (data : ZipData) (files : gmap string ZipEntry) :
  fileAdd name data files !! name = Some (ZipFile data).
Proof. unfold fileAdd. apply lookup_insert_eq. Qed.

Lemma addToZip_unfold (zip : JSZip) (index : nat) (file : ProgramFile) :
  addToZip cfg zip index file
  = let root := rootOf (formatName cfg (folderPattern cfg) file index) in
    let zip2 := folder_file root (name file) (ZipText (content file))
                  (snd (zip_folder (formatName cfg (folderPattern cfg) file index) zip)) in
    match imageBlob file with
    | Some blob =>
        folder_file root (formatName cfg (screenshotPattern cfg) file index +:+ ".png")
          (ZipBlob blob) zip2
    | None => zip2
    end.
Proof.
  unfold addToZip, zip_folder, rootOf.
  destruct (formatName cfg (folderPattern cfg) file index); reflexivity.
Qed.

Lemma addToZip_keeps_file (zip : JSZip) (index : nat) (file : ProgramFile)
  (path : string) :
  (exists d, zip_files zip !! path = Some (ZipFile d)) ->
  exists d, zip_files (addToZip cfg zip index file) !! path = Some (ZipFile d).
Proof.
  intros [d Hd]. rewrite addToZip_unfold. cbn zeta.
  assert (H1 : exists d,
            zip_files (snd (zip_folder (formatName cfg (folderPattern cfg) file index) zip))
              !! path = Some (ZipFile d)).
  { exists d. unfold zip_folder.
    destruct (formatName cfg (folderPattern cfg) file index); [exact Hd |].
    cbn [snd zip_files]. now apply folderAdd_from_keeps. }
  destruct (imageBlob file); unfold folder_file; cbn [zip_files];
    repeat apply fileAdd_keeps_file; exact H1.
Qed.

Lemma addToZip_self (zip : JSZip) (index : nat) (file : ProgramFile) :
  (exists d, zip_files (addToZip cfg zip index file)
               !! (rootOf (formatName cfg (folderPattern cfg) file index) +:+ name file)
             = Some (ZipFile d)) /\
  (imageBlob file <> None ->
   exists d, zip_files (addToZip cfg zip index file)
               !! (rootOf (formatName cfg (folderPattern cfg) file index)
                   +:+ formatName cfg (screenshotPattern cfg) file index +:+ ".png")
             = Some (ZipFile d)).
Proof.
  rewrite addToZip_unfold. cbn zeta. destruct (imageBlob file) as [blob|].
  - split.
    + unfold folder_file at 1. cbn [zip_files]. apply fileAdd_keeps_file.
      unfold folder_file. cbn [zip_files]. eexists. apply fileAdd_there.
    + intros _. unfold folder_file at 1. cbn [zip_files]. eexists. apply fileAdd_there.
  - split; [| congruence]. unfold folder_file. cbn [zip_files].
    eexists. apply fileAdd_there.
Qed.

Lemma forEach_from_paths (l : list ProgramFile) :
  forall (k : nat) (zip : JSZip),
    (forall path, (exists d, zip_files zip !! path = Some (ZipFile d)) ->
                  exists d, zip_files (forEach_from cfg k l zip) !! path = Some (ZipFile d)) /\
    forall i f, l !! i = Some f ->
      (exists d, zip_files (forEach_from cfg k l zip)
                   !! (rootOf (formatName cfg (folderPattern cfg) f (k + i)) +:+ name f)
                 = Some (ZipFile d)) /\
      (imageBlob f <> None ->
       exists d, zip_files (forEach_from cfg k l zip)
                   !! (rootOf (formatName cfg (folderPattern cfg) f (k + i))
                       +:+ formatName cfg (screenshotPattern cfg) f (k + i) +:+ ".png")
                 = Some (ZipFile d)).
Proof.
  induction l as [|a l IH]; intros k zip.
  - cbn. split; [trivial | intros i f Hf; discriminate].
  - cbn [forEach_from].
    destruct (IH (S k) (addToZip cfg zip k a)) as (Hmono & Hitems).
    split.
    + intros path H. now apply Hmono, addToZip_keeps_file.
    + intros [|i] f Hf.
      * cbn in Hf. injection Hf as <-. rewrite Nat.add_0_r.
        destruct (addToZip_self zip k a) as [H1 H2].
        split; [now apply Hmono | intros Hi; now apply Hmono, H2].
      * cbn in Hf. rewrite Nat.add_succ_r. now apply Hitems.
Qed.

End Archive.

(** C9, as stated, fails.  With the defaults of [generateSubmissionZip], two
    files that are both called main.py, one captured and one not, land in
    one folder.  With the pattern "[index]" and numbering off the folder
    name is empty and the files are written at the root of the archive.
    With the screenshot pattern "[name]" a captured file shot.png is
    overwritten by its own screenshot.  With the folder pattern
    "labs/[index]_[name]" the folders of the items lie in the one folder
    labs at the top of the archive. *)
Lemma generateSubmissionZip_collisions :
  length (topLevelFolders (generateSubmissionZip zipDefaults twoMains)) = 1%nat /\
  length (topLevelFolders
            (generateSubmissionZip
               {| folderPattern := "[index]"; screenshotPattern := "[name]_output";
                  startIndex := 1; isNumberingEnabled := false |}
               twoItems)) = 0%nat /\
  zip_files
    (generateSubmissionZip
       {| folderPattern := "[index]_[name]"; screenshotPattern := "[name]";
          startIndex := 1; isNumberingEnabled := true |}
       [finished "a" "shot.png"]) !! "1_shot/shot.png"
  = Some (ZipFile (ZipBlob (blobOf "a"))) /\
  map fst (topLevelFolders (generateSubmissionZip nestedNaming twoItems)) = ["labs/"] /\
  zip_files (generateSubmissionZip nestedNaming twoItems) !! "labs/1_a/" = Some ZipDir /\
  zip_files (generateSubmissionZip nestedNaming twoItems) !! "labs/2_b/" = Some ZipDir.
Proof. repeat split; vm_compute; reflexivity. Qed.

(** C9 (amended): when for every item the folder name is not empty and has
    no slash, the file name is not empty and has no slash, the screenshot
    name has no slash and the screenshot file is not called as the source
    file, and when the folder names of the items differ from one another,
    the archive holds the entries of [layout] and nothing else: for item
    [i] the folder [formatName folderPattern item_i i] at the top of the
    archive, in it the content of the item under its file name, and in it
    [formatName screenshotPattern item_i i + ".png"] exactly when the item
    carries an image (and then that image).  There are as many folders at
    the top as items, and the folder of an item holds 2 files when the item
    carries an image and 1 otherwise. *)
Theorem generateSubmissionZip_layout (cfg : NamingConfig) (l : list ProgramFile) :
  (forall i f, l !! i = Some f -> plainNames cfg i f) ->
  (forall i j f g, l !! i = Some f -> l !! j = Some g ->
                   formatName cfg (folderPattern cfg) f i
                   = formatName cfg (folderPattern cfg) g j -> i = j) ->
  map_to_list (zip_files (generateSubmissionZip cfg l)) ≡ₚ layout cfg 0 l /\
  length (topLevelFolders (generateSubmissionZip cfg l)) = length l /\
  forall i f, l !! i = Some f ->
    zip_files (generateSubmissionZip cfg l)
      !! (formatName cfg (folderPattern cfg) f i +:+ "/") = Some ZipDir /\
    zip_files (generateSubmissionZip cfg l)
      !! ((formatName cfg (folderPattern cfg) f i +:+ "/") +:+ name f)
    = Some (ZipFile (ZipText (content f))) /\
    zip_files (generateSubmissionZip cfg l)
      !! ((formatName cfg (folderPattern cfg) f i +:+ "/")
          +:+ formatName cfg (screenshotPattern cfg) f i +:+ ".png")
    = (fun blob => ZipFile (ZipBlob blob)) <$> imageBlob f /\
    length (filesIn (formatName cfg (folderPattern cfg) f i +:+ "/")
              (generateSubmissionZip cfg l))
    = match imageBlob f with Some _ => 2%nat | None => 1%nat end.
Proof.
  intros Hplain Hdist.
  destruct (archive_of_plain cfg l Hplain Hdist) as (Hfiles & Hnd & Hperm & Htop).
  assert (Hin : forall i f e, l !! i = Some f -> e ∈ entriesOf cfg i f ->
            zip_files (generateSubmissionZip cfg l) !! fst e = Some (snd e)).
  { intros i f [p e] Hf He. rewrite Hfiles. apply elem_of_list_to_map_1; [exact Hnd |].
    rewrite (written_layout cfg l 0). now apply (entries_in_layout cfg l 0 i f). }
  split; [exact Hperm |]. split; [exact Htop |].
  intros i f Hf.
  split; [apply (Hin i f (_, ZipDir) Hf); unfold entriesOf; apply list_elem_of_here |].
  split.
  { apply (Hin i f (_, ZipFile (ZipText (content f))) Hf). unfold entriesOf.
    apply list_elem_of_further, list_elem_of_here. }
  split.
  - destruct (imageBlob f) as [blob|] eqn:Eimg; cbn [fmap option_fmap option_map].
    + apply (Hin i f (_, ZipFile (ZipBlob blob)) Hf). unfold entriesOf. rewrite Eimg.
      apply list_elem_of_further, list_elem_of_further, list_elem_of_here.
    + rewrite Hfiles. apply not_elem_of_list_to_map. rewrite (written_layout cfg l 0).
      intros Hkey. apply keys_layout_item in Hkey as (j & g & Hg & Hkey).
      cbn [Nat.add] in Hkey.
      pose proof (Hplain i f Hf) as (_ & Hsf & Hn & _ & Hs & Hpng).
      pose proof (Hplain j g Hg) as (_ & Hsg & _).
      assert (j = i).
      { destruct (keys_entriesOf cfg j g _ Hkey) as [r E].
        apply other_folder in E; [| exact Hsf | exact Hsg].
        now apply (Hdist j i g f Hg Hf). }
      subst j. replace g with f in * by congruence.
      unfold entriesOf in Hkey. rewrite Eimg in Hkey. cbn in Hkey.
      apply elem_of_cons in Hkey as [E | Hkey].
      * apply append_eq_self in E.
        destruct (formatName cfg (screenshotPattern cfg) f i); discriminate.
      * apply elem_of_cons in Hkey as [E | Hkey]; [| now apply elem_of_nil in Hkey].
        apply (inj (String.app _)) in E. congruence.
  - unfold filesIn. rewrite (filter_length_Permutation _ _ _ Hperm).
    now apply (filesIn_layout cfg l 0 i f).
Qed.

(** C9 (amended), for two items, the first with an image and the second
    without, under the naming settings the application starts with: two
    folders at the top, the first with two files, the second with one. *)
Lemma generateSubmissionZip_layout_witness :
  length (topLevelFolders (generateSubmissionZip (naming 1 true) twoItems)) = 2%nat /\
  length (filesIn "1_a/" (generateSubmissionZip (naming 1 true) twoItems)) = 2%nat /\
  length (filesIn "2_b/" (generateSubmissionZip (naming 1 true) twoItems)) = 1%nat.
Proof.
  destruct (generateSubmissionZip_layout (naming 1 true) twoItems) as (_ & Htop & Hitems).
  - intros [|[|i]] f Hf; cbn in Hf; try discriminate; injection Hf as <-;
      repeat split; (discriminate || reflexivity).
  - intros [|[|i]] [|[|j]] f g Hf Hg; cbn in Hf, Hg; try discriminate;
      injection Hf as <-; injection Hg as <-; try reflexivity; discriminate.
  - split; [exact Htop |]. split.
    + exact (proj2 (proj2 (proj2 (Hitems 0%nat (finished "a" "a.py") eq_refl)))).
    + exact (proj2 (proj2 (proj2 (Hitems 1%nat (item "b" "b.py" PENDING) eq_refl)))).
Defined.

(** X20: whatever the names are, no item is left out of the archive: for
    every item there is a file under its file name below the root of its
    folder handle (the archive itself when the folder name is empty) and,
    when it carries an image, a file under its screenshot name.  Under a
    collision of names the data found there may be that of a later
    write. *)
Theorem generateSubmissionZip_paths (cfg : NamingConfig) (l : list ProgramFile)
  (i : nat) (f : ProgramFile) :
  l !! i = Some f ->
  (exists data,
     zip_files (generateSubmissionZip cfg l)
       !! (rootOf (formatName cfg (folderPattern cfg) f i) +:+ name f)
     = Some (ZipFile data)) /\
  (imageBlob f <> None ->
   exists data,
     zip_files (generateSubmissionZip cfg l)
       !! (rootOf (formatName cfg (folderPattern cfg) f i)
           +:+ formatName cfg (screenshotPattern cfg) f i +:+ ".png")
     = Some (ZipFile data)).
Proof.
  intros Hf. unfold generateSubmissionZip.
  exact (proj2 (forEach_from_paths cfg l 0 emptyZip) i f Hf).
Qed.

(** X20, for the two files called main.py under the defaults of
    [generateSubmissionZip]: both paths of the first file exist in the one
    folder. *)
Lemma generateSubmissionZip_paths_witness :
  (exists data,
     zip_files (generateSubmissionZip zipDefaults twoMains) !! "main/main.py"
     = Some (ZipFile data)) /\
  (exists data,
     zip_files (generateSubmissionZip zipDefaults twoMains) !! "main/main_output.png"
     = Some (ZipFile data)).
Proof.
  destruct (generateSubmissionZip_paths zipDefaults twoMains 0 (finished "a" "main.py")
              eq_refl) as [Hsource Himage].
  split; [exact Hsource | apply Himage; discriminate].
Defined.

(** X21: with numbering on, a folder pattern that begins with "[index]_"
    (as the one the application starts with) and numbers that are safe
    integers, the folder names of the items differ whatever the files are
    called: when the names are plain, the archive holds the entries of
    [layout] and nothing else, with one folder at the top for every item,
    also for files of the same name. *)
Theorem generateSubmissionZip_numbered (cfg : NamingConfig) (q : string)
  (l : list ProgramFile) :
  isNumberingEnabled cfg = true ->
  folderPattern cfg = "[index]_" +:+ q ->
  JS.isSafeInteger (startIndex cfg) ->
  JS.isSafeInteger (startIndex cfg + Z.of_nat (length l)) ->
  (forall i f, l !! i = Some f -> plainNames cfg i f) ->
  map_to_list (zip_files (generateSubmissionZip cfg l)) ≡ₚ layout cfg 0 l /\
  length (topLevelFolders (generateSubmissionZip cfg l)) = length l.
Proof.
  intros Hn Hpat Hlo Hhi Hplain.
  assert (Hsafe : forall i f, l !! i = Some f ->
            JS.isSafeInteger (startIndex cfg + Z.of_nat i)).
  { intros i f Hf. apply lookup_lt_Some in Hf.
    unfold JS.isSafeInteger in *. lia. }
  destruct (archive_of_plain cfg l) as (_ & _ & Hperm & Htop).
  - exact Hplain.
  - intros i j f g Hf Hg E. cbn [Nat.add] in E. rewrite Hpat in E.
    destruct (Nat.eq_dec i j) as [Heq | Hne]; [exact Heq |]. exfalso.
    exact (index_prefix_names_differ cfg q f g i j Hn (Hsafe i f Hf) (Hsafe j g Hg) Hne E).
  - split; [exact Hperm | exact Htop].
Qed.

(** X21, for the two files called main.py under the naming settings the
    application starts with: two folders at the top. *)
Lemma generateSubmissionZip_numbered_witness :
  length (topLevelFolders (generateSubmissionZip (naming 1 true) twoMains)) = 2%nat.
Proof.
  refine (proj2 (generateSubmissionZip_numbered (naming 1 true) "[name]" twoMains
                   eq_refl eq_refl _ _ _)).
  - unfold JS.isSafeInteger. cbn. lia.
  - unfold JS.isSafeInteger. cbn. lia.
  - intros [|[|i]] f Hf; cbn in Hf; try discriminate; injection Hf as <-;
      repeat split; (discriminate || reflexivity).
Defined.
